(** * Agent Task Protocol Client (Bindu frontend)

    A shallow embedding of
      - [frontend/src/lib/utils/agentMessageHandler.ts]
      - [frontend/src/lib/utils/paymentHandler.ts]
      - [frontend/src/lib/stores/chat.ts] (task identity, context preview)
    and the properties of the protocol client that are stated about them. *)

From Stdlib Require Import String Ascii DecimalString Sorted.
From stdpp Require Import base option list gmap.

Local Open Scope list_scope.

(** ** JavaScript strings

    A JavaScript string is a finite sequence of UTF-16 code units.  [length],
    [padEnd], [substring] and the regular expression of [getPaymentHeaders]
    all work on code units, so a string is a list of code unit numbers. *)

Module Js.

Abbreviation jsstring := (list N).

(** An ASCII literal of the source, as code units. *)
Definition lit (s : string) : jsstring :=
  map N_of_ascii (list_ascii_of_string s).

(** [ToBoolean] on a string: the empty string is falsy. *)
Definition truthy (s : jsstring) : bool :=
  match s with
  | [] => false
  | _ :: _ => true
  end.

(** [ToBoolean] on an optional string ([undefined]/[null] are falsy). *)
Definition truthy_opt (o : option jsstring) : bool :=
  match o with
  | Some s => truthy s
  | None => false
  end.

(** [a || b] where [a] is an optional string and [b] a string. *)
Definition or_default (o : option jsstring) (d : jsstring) : jsstring :=
  match o with
  | Some s => if truthy s then s else d
  | None => d
  end.

(** [s === t] on strings. *)
Definition streq (s t : jsstring) : bool := bool_decide (s = t).

(** [Array.prototype.join(sep)] on an array of strings. *)
Fixpoint join (sep : jsstring) (xs : list jsstring) : jsstring :=
  match xs with
  | [] => []
  | x :: rest =>
      match rest with
      | [] => x
      | _ :: _ => x ++ sep ++ join sep rest
      end
  end.

(** [s.padEnd(n, c)] with a one-unit filler [c]. *)
Definition padEnd (n : nat) (c : N) (s : jsstring) : jsstring :=
  s ++ replicate (n - length s) c.

(** [s.substring(0, n)]. *)
Definition substring0 (n : nat) (s : jsstring) : jsstring := take n s.

(** Code units removed by [String.prototype.trim]: ECMAScript WhiteSpace
    and LineTerminator. *)
Definition is_trim_unit (c : N) : bool :=
  ((9 <=? c) && (c <=? 13) || (c =? 32) || (c =? 160) || (c =? 5760)
   || (8192 <=? c) && (c <=? 8202) || (c =? 8232) || (c =? 8233)
   || (c =? 8239) || (c =? 8287) || (c =? 12288) || (c =? 65279))%N.

Fixpoint trimStart (s : jsstring) : jsstring :=
  match s with
  | [] => []
  | c :: rest => if is_trim_unit c then trimStart rest else s
  end.

Definition trim (s : jsstring) : jsstring :=
  rev (trimStart (rev (trimStart s))).

(** [String(n)] for a non-negative integer (an HTTP status). *)
Definition of_N (n : N) : jsstring :=
  lit (NilEmpty.string_of_uint (N.to_uint n)).

Definition nl : jsstring := [10%N].

End Js.

Import Js.

(** ** Data model (interfaces of agentMessageHandler.ts) *)

(** A part of a message or artifact.  The wire format allows other kinds
    than ['text'], and a part of another kind carries no [text]. *)
Record Part := mkPart {
  part_kind : jsstring;
  part_text : option jsstring
}.

Record HistoryMessage := mkMsg {
  msg_role : jsstring;
  msg_parts : option (list Part)
}.

Record Artifact := mkArtifact {
  art_kind : jsstring;
  art_parts : option (list Part);
  art_text : option jsstring
}.

Record TaskStatus := mkStatus {
  status_state : jsstring;
  status_timestamp : jsstring
}.

(** [AgentTask]; of [metadata] only the [error] entry is read. *)
Record AgentTask := mkTask {
  task_id : jsstring;
  task_context_id : jsstring;
  task_status : TaskStatus;
  task_history : option (list HistoryMessage);
  task_artifacts : option (list Artifact);
  task_metadata_error : option jsstring
}.

Definition text_part (t : jsstring) : Part := mkPart (lit "text") (Some t).

(** ** Text Extractor: [extractTextFromTask] *)

Module Extractor.

(** [part.kind === 'text' && part.text] *)
Definition is_text_part (part : Part) : bool :=
  streq (part_kind part) (lit "text") && truthy_opt (part_text part).

(** Body of the inner loop over [artifact.parts]: push on [textParts]. *)
Definition push_part (textParts : list jsstring) (part : Part) : list jsstring :=
  if is_text_part part
  then textParts ++ [default [] (part_text part)]
  else textParts.

(** Body of the loop over [task.artifacts].  An empty [parts] array is
    truthy, so [artifact.text] is read only when [parts] is missing. *)
Definition push_artifact (textParts : list jsstring) (artifact : Artifact)
  : list jsstring :=
  match art_parts artifact with
  | Some parts => fold_left push_part parts textParts
  | None =>
      if truthy_opt (art_text artifact)
      then textParts ++ [default [] (art_text artifact)]
      else textParts
  end.

(** Inner loop over [msg.parts] with its early [return]. *)
Fixpoint first_text (parts : list Part) : option jsstring :=
  match parts with
  | [] => None
  | part :: rest =>
      if is_text_part part then part_text part else first_text rest
  end.

Definition is_agent_role (role : jsstring) : bool :=
  streq role (lit "assistant") || streq role (lit "agent").

(** The loop [for (i = history.length - 1; i >= 0; i--)]; [n] is [i + 1]. *)
Fixpoint scan_history (history : list HistoryMessage) (n : nat) : jsstring :=
  match n with
  | 0 => []
  | S i =>
      match history !! i with
      | Some msg =>
          if is_agent_role (msg_role msg) then
            match msg_parts msg with
            | Some parts =>
                match first_text parts with
                | Some t => t
                | None => scan_history history i
                end
            | None => scan_history history i
            end
          else scan_history history i
      | None => scan_history history i
      end
  end.

Definition from_history (task : AgentTask) : jsstring :=
  match task_history task with
  | Some history => scan_history history (length history)
  | None => []
  end.

Definition extractTextFromTask (task : AgentTask) : jsstring :=
  match task_artifacts task with
  | Some ((_ :: _) as artifacts) =>
      let textParts := fold_left push_artifact artifacts [] in
      match textParts with
      | _ :: _ => join nl textParts
      | [] => from_history task
      end
  | _ => from_history task
  end.

End Extractor.

(** ** Process state and the outside world *)

(** The module-level [paymentToken] of paymentHandler.ts, and the number of
    [crypto.randomUUID()] calls made so far. *)
Record State := mkState {
  paymentToken : option jsstring;
  idCounter : nat
}.

Definition set_token (tok : option jsstring) (σ : State) : State :=
  mkState tok (idCounter σ).

(** The state after one more id has been drawn. *)
Definition bump (σ : State) : State :=
  mkState (paymentToken σ) (S (idCounter σ)).

(** A thrown value: an [Error] instance with its message, or anything else
    (a rejected [fetch] may carry an arbitrary abort reason). *)
Inductive Thrown :=
| ErrorObj (message : jsstring)
| NonError.

(** [error instanceof Error ? error.message : 'Unknown error'] *)
Definition error_message (e : Thrown) : jsstring :=
  match e with
  | ErrorObj m => m
  | NonError => lit "Unknown error"
  end.

(** What reading a body with [json()] gives when it rejects: the rejection,
    and what a later [text()] on the same response gives. *)
Record JsonFailure := mkJsonFailure {
  json_error : Thrown;
  text_afterwards : Thrown + jsstring
}.

(** A [Response]: status, and what [text()] or [json()] yields when it is the
    first reader of the body. *)
Record Response (B : Type) := mkResponse {
  resp_status : N;
  resp_text : Thrown + jsstring;
  resp_json : JsonFailure + B
}.
Arguments mkResponse {B} _ _ _.
Arguments resp_status {B} _.
Arguments resp_text {B} _.
Arguments resp_json {B} _.

(** [response.ok] *)
Definition resp_ok {B} (r : Response B) : bool :=
  ((200 <=? resp_status r) && (resp_status r <=? 299))%N.

(** [await fetch(...)]: the promise rejects or resolves to a response. *)
Inductive FetchResult (B : Type) :=
| Rejects (e : Thrown)
| Responds (r : Response B).
Arguments Rejects {B} _.
Arguments Responds {B} _.

(** JSON-RPC envelope: [error] (truthy, with its optional [message]) and
    [result] (a task when truthy). *)
Record RpcEnvelope := mkEnvelope {
  rpc_error : option (option jsstring);
  rpc_result : option AgentTask
}.

Record SessionData := mkSession {
  session_id : jsstring;
  browser_url : jsstring
}.

Record StatusData := mkStatusData {
  pay_status : jsstring;
  pay_token : option jsstring;
  pay_error : option jsstring
}.

Record AgentMessage := mkAgentMessage {
  am_role : jsstring;
  am_parts : list Part;
  am_kind : jsstring;
  am_messageId : jsstring;
  am_contextId : jsstring;
  am_taskId : jsstring;
  am_referenceTaskIds : option (list jsstring)
}.

(** Everything the client reads from outside: the remote agent, the payment
    endpoints, the browser. Requests are numbered by attempt. *)
Record World := mkWorld {
  w_uuid : nat -> jsstring;
  w_auth_token : option jsstring;
  w_type_error : jsstring;
  w_send : nat -> gmap jsstring jsstring -> AgentMessage -> jsstring
           -> FetchResult RpcEnvelope;
  w_poll : nat -> gmap jsstring jsstring -> jsstring -> jsstring
           -> FetchResult RpcEnvelope;
  w_start_session : FetchResult SessionData;
  w_window_open : jsstring -> bool;
  w_payment_status : nat -> jsstring -> FetchResult StatusData
}.

(** ** Payment Challenge Handler (paymentHandler.ts) *)

Module Payment.

(** [/^[\x00-\x7F]*$/.test(s)] *)
Definition is_ascii (s : jsstring) : bool :=
  forallb (fun c => (c <=? 127)%N) s.

Definition X_PAYMENT : jsstring := lit "X-PAYMENT".

Definition getPaymentHeaders (σ : State) : gmap jsstring jsstring * State :=
  if negb (truthy_opt (paymentToken σ)) then (∅, σ)
  else
    let cleanToken := trim (default [] (paymentToken σ)) in
    if negb (is_ascii cleanToken) then (∅, set_token None σ)
    else ({[ X_PAYMENT := cleanToken ]}, σ).

Definition clearPaymentToken (σ : State) : State := set_token None σ.

Definition hasPaymentToken (σ : State) : bool :=
  match paymentToken σ with
  | Some tok => bool_decide (0 < length tok)
  | None => false
  end.

(** The strings handed to [onStatusUpdate], by phase. *)
Inductive Notice :=
| NStarting
| NOpening
| NPopupBlocked
| NWaiting
| NApproved
| NFailed (detail : jsstring)
| NTimeout
| NError (message : jsstring).

(** The [while (attempts < maxAttempts)] loop; [fuel] is
    [maxAttempts - attempts].  The result is what the function returns, or
    the value thrown into the enclosing [catch]. *)
Fixpoint pollPayment (w : World) (sid : jsstring) (fuel attempts : nat)
    (σ : State) : (Thrown + bool) * list Notice * State :=
  match fuel with
  | 0 => (inr false, [NTimeout], σ)
  | S fuel' =>
      let attempts := S attempts in
      match w_payment_status w attempts sid with
      | Rejects e => (inl e, [], σ)
      | Responds statusResponse =>
          if negb (resp_ok statusResponse)
          then pollPayment w sid fuel' attempts σ
          else
            match resp_json statusResponse with
            | inl f => (inl (json_error f), [], σ)
            | inr statusData =>
                if streq (pay_status statusData) (lit "completed")
                   && truthy_opt (pay_token statusData)
                then (inr true, [NApproved],
                      set_token (pay_token statusData) σ)
                else if streq (pay_status statusData) (lit "failed")
                then (inr false,
                      [NFailed (or_default (pay_error statusData)
                                           (lit "Unknown error"))], σ)
                else pollPayment w sid fuel' attempts σ
            end
      end
  end.

Definition maxAttempts : nat := 60.

(** The [try] block of [handlePaymentRequired]. *)
Definition paymentAttempt (w : World) (σ : State)
  : (Thrown + bool) * list Notice * State :=
  match w_start_session w with
  | Rejects e => (inl e, [NStarting], σ)
  | Responds sessionResponse =>
      if negb (resp_ok sessionResponse)
      then (inl (ErrorObj (lit "Failed to start payment session")),
            [NStarting], σ)
      else
        match resp_json sessionResponse with
        | inl f => (inl (json_error f), [NStarting], σ)
        | inr sessionData =>
            if negb (w_window_open w (browser_url sessionData))
            then (inr false, [NStarting; NOpening; NPopupBlocked], σ)
            else
              let '(r, notices, σ') :=
                pollPayment w (session_id sessionData) maxAttempts 0 σ in
              (r, [NStarting; NOpening; NWaiting] ++ notices, σ')
        end
  end.

Definition handlePaymentRequired (w : World) (σ : State)
  : bool * list Notice * State :=
  let '(r, notices, σ') := paymentAttempt w σ in
  match r with
  | inr b => (b, notices, σ')
  | inl e => (false, notices ++ [NError (error_message e)], σ')
  end.

End Payment.

(** ** Updates (types/MessageUpdate) *)

Inductive MessageUpdateStatus := Started | Finished | Error | KeepAlive.

Inductive MessageUpdate :=
| Status (status : MessageUpdateStatus) (message : option jsstring)
| TaskMetadata (taskId contextId status : jsstring)
               (referenceTaskIds : option (list jsstring))
| FinalAnswer (text : jsstring) (interrupted : bool).

Definition is_final_answer (u : MessageUpdate) : bool :=
  match u with
  | FinalAnswer _ _ => true
  | _ => false
  end.

(** ** The generator monad

    An [async function*] body driven to its end: it reads and writes the
    process state, yields updates in order, and either returns a value or
    throws.  A run that the consumer cuts at a [yield] is the subject of
    [Resumable] below. *)

Record Res (A : Type) := mkRes {
  trace : list MessageUpdate;
  value : Thrown + A;
  final : State
}.
Arguments mkRes {A} _ _ _.
Arguments trace {A} _.
Arguments value {A} _.
Arguments final {A} _.

Definition Gen (A : Type) : Type := State -> Res A.

Definition ret {A} (a : A) : Gen A := fun σ => mkRes [] (inr a) σ.

Definition bind {A B} (m : Gen A) (k : A -> Gen B) : Gen B :=
  fun σ =>
    let r := m σ in
    match value r with
    | inl e => mkRes (trace r) (inl e) (final r)
    | inr a =>
        let r' := k a (final r) in
        mkRes (trace r ++ trace r') (value r') (final r')
    end.

Definition yield (u : MessageUpdate) : Gen unit :=
  fun σ => mkRes [u] (inr tt) σ.

Definition throw {A} (e : Thrown) : Gen A :=
  fun σ => mkRes [] (inl e) σ.

(** [try { m } catch (error) { h error }] *)
Definition try_catch {A} (m : Gen A) (h : Thrown -> Gen A) : Gen A :=
  fun σ =>
    let r := m σ in
    match value r with
    | inl e =>
        let r' := h e (final r) in
        mkRes (trace r ++ trace r') (value r') (final r')
    | inr _ => r
    end.

(** A state-passing function of paymentHandler.ts, called from the body. *)
Definition call {A} (f : State -> A * State) : Gen A :=
  fun σ => let '(a, σ') := f σ in mkRes [] (inr a) σ'.

(** [await p] for a fetch promise. *)
Definition await {B} (p : FetchResult B) : Gen (Response B) :=
  match p with
  | Rejects e => throw e
  | Responds r => ret r
  end.

Declare Scope gen_scope.
Delimit Scope gen_scope with gen.
Notation "x <- m ;; k" := (bind m (fun x => k))
  (at level 100, m at next level, right associativity) : gen_scope.
Notation "m ;;; k" := (bind m (fun _ => k))
  (at level 100, right associativity) : gen_scope.

(** ** Send/Poll Engine: [sendAgentMessage] (agentMessageHandler.ts) *)

Module Engine.

Import Payment Extractor.
Local Open Scope gen_scope.

Section WithWorld.

Variable w : World.

(** [generateId()]: the next [crypto.randomUUID()]. *)
Definition generateId : Gen jsstring :=
  fun σ => mkRes [] (inr (w_uuid w (idCounter σ))) (bump σ).

(** Task identity (lines 187-209): the task id of the outgoing message and
    its [referenceTaskIds]. *)
Definition resolveTaskIdentity
    (replyToTaskId currentTaskId taskState : option jsstring)
  : Gen (jsstring * list jsstring) :=
  if truthy_opt replyToTaskId then
    taskId <- generateId ;;
    ret (taskId, [default [] replyToTaskId])
  else
    let isNonTerminalState :=
      truthy_opt taskState
      && (streq (default [] taskState) (lit "input-required")
          || streq (default [] taskState) (lit "auth-required")) in
    if isNonTerminalState && truthy_opt currentTaskId then
      ret (default [] currentTaskId, [])
    else
      taskId <- generateId ;;
      ret (taskId,
           if truthy_opt currentTaskId then [default [] currentTaskId] else []).

(** The branch taken for a context id that is there (lines 212-213). *)
Definition padContextId (contextId : jsstring) : jsstring :=
  if bool_decide (length contextId = 24) then padEnd 32 48%N contextId
  else contextId.

(** [newContextId] (lines 212-214). *)
Definition deriveContextId (contextId : option jsstring) : Gen jsstring :=
  if truthy_opt contextId
  then ret (padContextId (default [] contextId))
  else generateId.

Definition CONTENT_TYPE : jsstring := lit "Content-Type".
Definition AUTHORIZATION : jsstring := lit "Authorization".

(** [{ 'Content-Type': 'application/json', ...getPaymentHeaders() }],
    then [Authorization] when a bearer token is stored. *)
Definition buildHeaders : Gen (gmap jsstring jsstring) :=
  payment <- call getPaymentHeaders ;;
  let headers : gmap jsstring jsstring :=
    payment ∪ {[ CONTENT_TYPE := lit "application/json" ]} in
  ret (match w_auth_token w with
       | Some token =>
           if truthy token
           then <[ AUTHORIZATION := lit "Bearer " ++ token ]> headers
           else headers
       | None => headers
       end).

(** [await response.text().catch(() => 'Unknown error')] *)
Definition errorText {B} (response : Response B) : jsstring :=
  match resp_text response with
  | inr t => t
  | inl _ => lit "Unknown error"
  end.

Inductive Control := Continue | Return.
Inductive LoopExit := LoopReturned | LoopExhausted.

Section Polling.

Variable abortSignal : option (nat -> bool).
Variable headers : gmap jsstring jsstring.
Variable submittedTaskId newContextId : jsstring.
Variable referenceTaskIds : option (list jsstring).

(** [abortSignal?.aborted] at the top of iteration [attempt]. *)
Definition aborted (attempt : nat) : bool :=
  match abortSignal with
  | Some signal => signal attempt
  | None => false
  end.

(** One iteration of the poll loop (lines 336-413). *)
Definition pollIteration (attempt : nat) : Gen Control :=
  if aborted attempt then throw (ErrorObj (lit "Request aborted"))
  else
    requestId <- generateId ;;
    statusResponse <-
      await (w_poll w attempt headers submittedTaskId requestId) ;;
    if negb (resp_ok statusResponse) then ret Continue
    else
      match resp_json statusResponse with
      | inl f => throw (json_error f)
      | inr statusResult =>
          match rpc_error statusResult with
          | Some message =>
              throw (ErrorObj (or_default message (lit "Task status error")))
          | None =>
              match rpc_result statusResult with
              | None => throw (ErrorObj (w_type_error w))
              | Some currentTask =>
                  let taskState := status_state (task_status currentTask) in
                  yield (TaskMetadata submittedTaskId newContextId taskState
                                      referenceTaskIds) ;;;
                  if streq taskState (lit "completed")
                     || streq taskState (lit "input-required") then
                    let text := extractTextFromTask currentTask in
                    yield (FinalAnswer (or_default (Some text) []) false) ;;;
                    yield (Status Finished None) ;;;
                    (if streq taskState (lit "completed")
                     then call (fun σ => (tt, clearPaymentToken σ))
                     else ret tt) ;;;
                    ret Return
                  else if streq taskState (lit "failed") then
                    call (fun σ => (tt, clearPaymentToken σ)) ;;;
                    throw (ErrorObj
                             (lit "Task failed: "
                              ++ or_default (task_metadata_error currentTask)
                                            (lit "Unknown error")))
                  else if streq taskState (lit "canceled") then
                    call (fun σ => (tt, clearPaymentToken σ)) ;;;
                    throw (ErrorObj (lit "Task was canceled"))
                  else ret Continue
              end
          end
      end.

(** [for (let attempt = 0; attempt < maxAttempts; attempt++)]; [fuel] is
    [maxAttempts - attempt]. *)
Fixpoint pollLoop (fuel attempt : nat) : Gen LoopExit :=
  match fuel with
  | 0 => ret LoopExhausted
  | S fuel' =>
      c <- pollIteration attempt ;;
      match c with
      | Return => ret LoopReturned
      | Continue => pollLoop fuel' (S attempt)
      end
  end.

End Polling.

Definition maxAttempts : nat := 300.

(** Lines 243-297: the send, and the payment challenge on a 402. The result
    is the response to read and the headers for later polls. *)
Definition sendWithPayment (headers : gmap jsstring jsstring)
    (agentMessage : AgentMessage) (requestId : jsstring)
  : Gen (Response RpcEnvelope * gmap jsstring jsstring) :=
  response <- await (w_send w 0 headers agentMessage requestId) ;;
  if (resp_status response =? 402)%N then
    paymentSuccess <-
      call (fun σ => let '(b, _, σ') := handlePaymentRequired w σ in (b, σ')) ;;
    if paymentSuccess : bool then
      payment <- call getPaymentHeaders ;;
      let retryHeaders : gmap jsstring jsstring :=
        payment ∪ {[ CONTENT_TYPE := lit "application/json" ]} in
      let retryHeaders :=
        match w_auth_token w with
        | Some token =>
            if truthy token
            then <[ AUTHORIZATION := lit "Bearer " ++ token ]> retryHeaders
            else retryHeaders
        | None => retryHeaders
        end in
      response <- await (w_send w 1 retryHeaders agentMessage requestId) ;;
      if negb (resp_ok response) then
        throw (ErrorObj (lit "Agent request failed after payment: "
                         ++ of_N (resp_status response) ++ lit " - "
                         ++ errorText response))
      else
        payment' <- call getPaymentHeaders ;;
        ret (response,
             <[ X_PAYMENT := or_default (payment' !! X_PAYMENT) [] ]> headers)
    else throw (ErrorObj (lit "Payment required but not completed"))
  else if negb (resp_ok response) then
    throw (ErrorObj (lit "Agent request failed: "
                     ++ of_N (resp_status response) ++ lit " - "
                     ++ errorText response))
  else ret (response, headers).

(** Lines 299-319: read the task out of the response. *)
Definition readTask (response : Response RpcEnvelope) : Gen AgentTask :=
  match resp_json response with
  | inl f =>
      match text_afterwards f with
      | inl e => throw e
      | inr _ => throw (ErrorObj (lit "Failed to parse response"))
      end
  | inr result =>
      match rpc_error result with
      | Some message => throw (ErrorObj (or_default message (lit "Agent error")))
      | None =>
          match rpc_result result with
          | None => throw (ErrorObj (lit "Invalid response: missing result"))
          | Some task => ret task
          end
      end
  end.

(** The [try] block (lines 243-416). *)
Definition sendAndPoll (abortSignal : option (nat -> bool))
    (headers : gmap jsstring jsstring) (agentMessage : AgentMessage)
    (newContextId requestId : jsstring) : Gen unit :=
  sent <- sendWithPayment headers agentMessage requestId ;;
  task <- readTask sent.1 ;;
  let submittedTaskId := task_id task in
  yield (TaskMetadata submittedTaskId newContextId
                      (status_state (task_status task))
                      (am_referenceTaskIds agentMessage)) ;;;
  exit <- pollLoop abortSignal sent.2 submittedTaskId newContextId
                   (am_referenceTaskIds agentMessage) maxAttempts 0 ;;
  match exit with
  | LoopReturned => ret tt
  | LoopExhausted => throw (ErrorObj (lit "Task polling timeout"))
  end.

(** The [catch] block (lines 418-425). *)
Definition reportError (error : Thrown) : Gen unit :=
  yield (Status Error (Some (error_message error))) ;;;
  throw error.

Definition sendAgentMessage (message : jsstring) (contextId : option jsstring)
    (abortSignal : option (nat -> bool))
    (currentTaskId taskState replyToTaskId : option jsstring) : Gen unit :=
  headers <- buildHeaders ;;
  messageId <- generateId ;;
  identity <- resolveTaskIdentity replyToTaskId currentTaskId taskState ;;
  let taskId := identity.1 in
  let referenceTaskIds := identity.2 in
  newContextId <- deriveContextId contextId ;;
  let agentMessage :=
    mkAgentMessage (lit "user") [text_part message] (lit "message")
                   messageId newContextId taskId
                   (if bool_decide (0 < length referenceTaskIds)
                    then Some referenceTaskIds else None) in
  yield (Status Started None) ;;;
  requestId <- generateId ;;
  try_catch
    (sendAndPoll abortSignal headers agentMessage newContextId requestId)
    reportError.

End WithWorld.

End Engine.

(** ** chat.ts: task identity of [sendMessage], preview of [loadContexts] *)

Module Chat.

(** The [Task] of [$lib/types/agent] as chat.ts reads it.  [chat_time] is
    [new Date(task.status.timestamp).getTime()]; [None] stands for NaN, the
    time of a missing or unparsable timestamp. *)
Record Task := mkChatTask {
  chat_id : jsstring;
  chat_state : jsstring;
  chat_time : option Z;
  chat_history : option (list HistoryMessage)
}.

(** [timeA - timeB < 0], which is false when either time is NaN. *)
Definition earlier (a b : Task) : bool :=
  match chat_time a, chat_time b with
  | Some timeA, Some timeB => (timeA <? timeB)%Z
  | _, _ => false
  end.

Section Identity.

(** [isNonTerminalState] and [generateUUID] are imported from
    [$lib/types/agent]; [generateUUID] stands for the id its call returns. *)
Variable isNonTerminalState : jsstring -> bool.
Variable generateUUID : jsstring.

(** Lines 236-253 of [sendMessage]. *)
Definition sendMessageIdentity (replyTo currentState currentTask : option jsstring)
  : jsstring * list jsstring :=
  if truthy_opt replyTo then
    (generateUUID, [default [] replyTo])
  else if truthy_opt currentState
          && isNonTerminalState (default [] currentState)
          && truthy_opt currentTask then
    (default [] currentTask, [])
  else if truthy_opt currentTask then
    (generateUUID, [default [] currentTask])
  else
    (generateUUID, []).

End Identity.

(** [parts.filter(part => part.kind === 'text').map(part => part.text || '')] *)
Definition textParts (msg : HistoryMessage) : list jsstring :=
  map (fun part => or_default (part_text part) [])
      (List.filter (fun part => streq (part_kind part) (lit "text"))
                   (default [] (msg_parts msg))).

(** The loop over [history] with its [break] (lines 102-113). *)
Fixpoint previewFromHistory (history : list HistoryMessage)
    (firstMessage : jsstring) : jsstring :=
  match history with
  | [] => firstMessage
  | msg :: rest =>
      if streq (msg_role msg) (lit "user") then
        match textParts msg with
        | first :: _ => substring0 50 first
        | [] => previewFromHistory rest firstMessage
        end
      else previewFromHistory rest firstMessage
  end.

(** The [firstMessage] that [loadContexts] leaves on a context with the
    given [taskIds] (lines 93-121); [getTask] is [agentAPI.getTask], [None]
    when it rejects. *)
Definition loadPreview (getTask : jsstring -> option Task)
    (taskIds : list jsstring) : jsstring :=
  let firstMessage := lit "Loading..." in
  match taskIds with
  | [] => firstMessage
  | first :: _ =>
      match getTask first with
      | Some task =>
          previewFromHistory (default [] (chat_history task)) firstMessage
      | None => firstMessage
      end
  end.

End Chat.

(** ** The behaviour in the words of the design document

    Declarative counterparts of the loops above, to compare them with. *)

Module Doc.

Import Extractor.

(** The texts an artifact contributes: the non-empty texts of its text-kind
    parts, or its own non-empty [text] when it has no [parts]. *)
Definition part_texts (parts : list Part) : list jsstring :=
  omap (fun part => if is_text_part part then part_text part else None) parts.

Definition artifact_texts (artifact : Artifact) : list jsstring :=
  match art_parts artifact with
  | Some parts => part_texts parts
  | None => if truthy_opt (art_text artifact)
            then [default [] (art_text artifact)] else []
  end.

Definition answers (msg : HistoryMessage) : bool :=
  is_agent_role (msg_role msg)
  && bool_decide (part_texts (default [] (msg_parts msg)) ≠ []).

(** The first text of the most recent assistant/agent message that has
    one, else empty. *)
Definition latest_answer (history : list HistoryMessage) : jsstring :=
  match List.find answers (rev history) with
  | Some msg => default [] (head (part_texts (default [] (msg_parts msg))))
  | None => []
  end.

(** Join of the artifact texts if there are any, else the latest answer of
    the history. *)
Definition extract (task : AgentTask) : jsstring :=
  match mjoin (map artifact_texts (default [] (task_artifacts task))) with
  | (_ :: _) as texts => join nl texts
  | [] => latest_answer (default [] (task_history task))
  end.

(** The Text Extractor read literally: every text-kind part counts, whatever
    its text. *)
Definition is_text_kind (part : Part) : bool :=
  streq (part_kind part) (lit "text").

Definition text_kind_parts (parts : option (list Part)) : list Part :=
  List.filter is_text_kind (default [] parts).

Definition extract_literal (task : AgentTask) : jsstring :=
  match mjoin (map (fun a => text_kind_parts (art_parts a))
                   (default [] (task_artifacts task))) with
  | (_ :: _) as parts => join nl (map (fun p => default [] (part_text p)) parts)
  | [] =>
      match List.find
              (fun msg => is_agent_role (msg_role msg)
                          && bool_decide (text_kind_parts (msg_parts msg) ≠ []))
              (rev (default [] (task_history task))) with
      | Some msg =>
          default [] (head (text_kind_parts (msg_parts msg)) ≫= part_text)
      | None => []
      end
  end.

(** The earliest of some tasks by [status.timestamp] (the first one among
    equals). *)
Fixpoint earliest (tasks : list Chat.Task) : option Chat.Task :=
  match tasks with
  | [] => None
  | t :: rest =>
      match earliest rest with
      | Some t' => if Chat.earlier t' t then Some t' else Some t
      | None => Some t
      end
  end.

Definition says_text (msg : HistoryMessage) : bool :=
  streq (msg_role msg) (lit "user")
  && bool_decide (Chat.textParts msg ≠ []).

(** The first user-role text of a history, cut to 50 code units. *)
Definition first_user_text (history : list HistoryMessage) : option jsstring :=
  msg ← List.find says_text history;
  first ← head (Chat.textParts msg);
  Some (substring0 50 first).

(** The preview title read literally: taken from the earliest task by
    timestamp among the tasks of the context. *)
Definition preview_literal (getTask : jsstring -> option Chat.Task)
    (taskIds : list jsstring) : option jsstring :=
  task ← earliest (omap getTask taskIds);
  first_user_text (default [] (Chat.chat_history task)).

(** An optional id is present when it is a non-empty string: the code tests
    ids for truthiness, which [undefined], [null] and the empty string fail. *)
Definition present (o : option jsstring) (s : jsstring) : Prop :=
  o = Some s /\ s <> [].

Definition absent (o : option jsstring) : Prop :=
  o = None \/ o = Some [].

(** The task awaits input: [currentTaskState] is input-required or
    auth-required. *)
Definition awaits_input (taskState : option jsstring) : Prop :=
  taskState = Some (lit "input-required")
  \/ taskState = Some (lit "auth-required").

(** Modelled from the spec: [isNonTerminalState] of [$lib/types/agent],
    which is not among the sources; the design document names
    input-required and auth-required as the non-terminal-with-input
    states. *)
Definition isNonTerminalState (taskState : jsstring) : bool :=
  streq taskState (lit "input-required")
  || streq taskState (lit "auth-required").

(** The task state reported by the last [TaskMetadata] of a sequence of
    updates: the last polled state, when the sequence is that of a poll
    loop. *)
Fixpoint last_polled_state (updates : list MessageUpdate) : option jsstring :=
  match updates with
  | [] => None
  | u :: rest =>
      match last_polled_state rest with
      | Some st => Some st
      | None =>
          match u with
          | TaskMetadata _ _ st _ => Some st
          | _ => None
          end
      end
  end.

(** The states on which the payment token is dropped. *)
Definition drops_token (st : option jsstring) : bool :=
  match st with
  | Some st =>
      streq st (lit "completed") || streq st (lit "failed")
      || streq st (lit "canceled")
  | None => false
  end.

(** What one poll iteration does with a task snapshot, written out: the
    updates, how the iteration ends, and the state afterwards. *)
Definition on_task (submittedTaskId newContextId : jsstring)
    (referenceTaskIds : option (list jsstring)) (currentTask : AgentTask)
    (σ : State) : Res Engine.Control :=
  let st := status_state (task_status currentTask) in
  let meta := TaskMetadata submittedTaskId newContextId st referenceTaskIds in
  let answer :=
    [meta; FinalAnswer (Extractor.extractTextFromTask currentTask) false;
     Status Finished None] in
  if streq st (lit "completed") then
    mkRes answer (inr Engine.Return) (Payment.clearPaymentToken σ)
  else if streq st (lit "input-required") then
    mkRes answer (inr Engine.Return) σ
  else if streq st (lit "failed") then
    mkRes [meta]
          (inl (ErrorObj (lit "Task failed: "
                          ++ or_default (task_metadata_error currentTask)
                                        (lit "Unknown error"))))
          (Payment.clearPaymentToken σ)
  else if streq st (lit "canceled") then
    mkRes [meta] (inl (ErrorObj (lit "Task was canceled")))
          (Payment.clearPaymentToken σ)
  else mkRes [meta] (inr Engine.Continue) σ.

End Doc.

(** ** Observations used to state further properties *)

Module Obs.

(** A payment-status poll that neither ends nor breaks the wait: the
    response is not ok, or its data is neither "completed" with a token nor
    "failed". *)
Definition payment_pending (p : FetchResult StatusData) : bool :=
  match p with
  | Rejects _ => false
  | Responds r =>
      negb (resp_ok r)
      || match resp_json r with
         | inl _ => false
         | inr d =>
             negb (streq (pay_status d) (lit "completed")
                   && truthy_opt (pay_token d))
             && negb (streq (pay_status d) (lit "failed"))
         end
  end.

(** The notice that closes a run of the payment handler. *)
Definition closing_notice (n : Payment.Notice) : bool :=
  match n with
  | Payment.NPopupBlocked | Payment.NApproved | Payment.NFailed _
  | Payment.NTimeout | Payment.NError _ => true
  | _ => false
  end.

(** The string does not start with a code unit that [trim] removes. *)
Definition head_kept (s : jsstring) : Prop :=
  match s with
  | [] => True
  | c :: _ => is_trim_unit c = false
  end.

(** No code unit at either end of the string is one that [trim] removes. *)
Definition trimmed (s : jsstring) : Prop :=
  head_kept s /\ head_kept (rev s).

End Obs.

(** ** Observations on update sequences and polls *)

Module Trace.

(** The [TaskMetadata] updates for a sequence of polled states. *)
Definition metadata (taskId contextId : jsstring)
    (referenceTaskIds : option (list jsstring)) (states : list jsstring)
  : list MessageUpdate :=
  map (fun st => TaskMetadata taskId contextId st referenceTaskIds) states.

Definition is_finished (u : MessageUpdate) : bool :=
  match u with
  | Status Finished _ => true
  | _ => false
  end.

Definition is_error (u : MessageUpdate) : bool :=
  match u with
  | Status Error _ => true
  | _ => false
  end.

(** The task state is one on which the poll loop goes on. *)
Definition keeps_polling (st : jsstring) : bool :=
  negb (streq st (lit "completed")) && negb (streq st (lit "input-required"))
  && negb (streq st (lit "failed")) && negb (streq st (lit "canceled")).

(** A poll after which the loop goes on: an HTTP failure, or a snapshot in
    a state that keeps polling. *)
Definition goes_on (p : FetchResult RpcEnvelope) : bool :=
  match p with
  | Rejects _ => false
  | Responds r =>
      negb (resp_ok r)
      || match resp_json r with
         | inl _ => false
         | inr envelope =>
             match rpc_error envelope, rpc_result envelope with
             | None, Some task => keeps_polling (status_state (task_status task))
             | _, _ => false
             end
         end
  end.

(** A send that is accepted: a 2xx response whose body is a task. *)
Definition accepted (p : FetchResult RpcEnvelope) : option AgentTask :=
  match p with
  | Rejects _ => None
  | Responds r =>
      if resp_ok r then
        match resp_json r with
        | inl _ => None
        | inr envelope =>
            match rpc_error envelope with
            | Some _ => None
            | None => rpc_result envelope
            end
        end
      else None
  end.

(** What the prologue of [sendAgentMessage] (lines 169-241) hands to its
    [try] block: the headers, the outgoing message, the context id and the
    id of the send request. *)
Definition request (w : World) (message : jsstring)
    (contextId currentTaskId taskState replyToTaskId : option jsstring)
  : Gen (gmap jsstring jsstring * AgentMessage * jsstring * jsstring) :=
  (headers <- Engine.buildHeaders w ;;
   messageId <- Engine.generateId w ;;
   identity <- Engine.resolveTaskIdentity w replyToTaskId currentTaskId
                                          taskState ;;
   newContextId <- Engine.deriveContextId w contextId ;;
   let agentMessage :=
     mkAgentMessage (lit "user") [text_part message] (lit "message")
                    messageId newContextId identity.1
                    (if bool_decide (0 < length identity.2)
                     then Some identity.2 else None) in
   requestId <- Engine.generateId w ;;
   ret (headers, agentMessage, newContextId, requestId))%gen.


End Trace.

(** ** The caller of [sendAgentMessage]: the update loop of [writeMessage]

    The conversation page iterates over the updates ([for await]) and keeps
    the answer being written and the task to thread the next message on. *)

Module Caller.

(** What the loop reads and writes: the message being written
    ([content], [updates], [taskMetadata]) and the page state. *)
Record Page := mkPage {
  content : jsstring;
  updates : list MessageUpdate;
  taskMetadata : option (jsstring * jsstring * jsstring * option (list jsstring));
  currentTaskId : option jsstring;
  currentTaskState : option jsstring;
  error : option jsstring;
  pending : bool
}.

(** The body of the loop for one update of the kinds [sendAgentMessage]
    yields.  These updates carry no [statusCode], and no stream token is
    ever buffered. *)
Definition onUpdate (update : MessageUpdate) (p : Page) : Page :=
  match update with
  | Status KeepAlive _ => p
  | FinalAnswer text interrupted =>
      let content' :=
        if negb interrupted then text
        else if negb (truthy (content p)) then text else content p in
      mkPage content' (updates p ++ [update]) (taskMetadata p)
             (currentTaskId p) (currentTaskState p) (error p) (pending p)
  | Status Error message =>
      mkPage (content p) (updates p ++ [update]) (taskMetadata p)
             (currentTaskId p) (currentTaskState p)
             (Some (default (lit "An error has occurred") message)) (pending p)
  | Status Finished _ =>
      mkPage (content p) (updates p ++ [update]) (taskMetadata p)
             (currentTaskId p) (currentTaskState p) (error p) false
  | Status Started _ =>
      mkPage (content p) (updates p ++ [update]) (taskMetadata p)
             (currentTaskId p) (currentTaskState p) (error p) (pending p)
  | TaskMetadata taskId contextId status referenceTaskIds =>
      mkPage (content p) (updates p ++ [update])
             (Some (taskId, contextId, status, referenceTaskIds))
             (Some taskId) (Some status) (error p) (pending p)
  end.

(** The loop over the updates; [isAborted n] is [$isAborted] when update
    number [n] arrives: the loop then aborts the request and returns. *)
Fixpoint consume (isAborted : nat -> bool) (n : nat)
    (stream : list MessageUpdate) (p : Page) : Page :=
  match stream with
  | [] => p
  | update :: rest =>
      if isAborted n then p
      else consume isAborted (S n) rest (onUpdate update p)
  end.

End Caller.

(** ** The generator stopped by its consumer

    The consumer of an [async function*] may leave its [for await] loop at
    any update; the generator is then returned at the [yield] it is suspended
    on: the statements after that [yield] do not run, and neither does a
    [catch] block.  A [Run] keeps, with every update, the process state at
    its [yield], so that the run can be cut there.  The bodies below are
    those of [Engine], line by line. *)

Module Resumable.

Import Payment Extractor.

Record Run (A : Type) := mkRun {
  steps : list (MessageUpdate * State);
  outcome : Thrown + A;
  rest : State
}.
Arguments mkRun {A} _ _ _.
Arguments steps {A} _.
Arguments outcome {A} _.
Arguments rest {A} _.

Definition Co (A : Type) : Type := State -> Run A.

Definition ret {A} (a : A) : Co A := fun σ => mkRun [] (inr a) σ.

Definition bind {A B} (m : Co A) (k : A -> Co B) : Co B :=
  fun σ =>
    let r := m σ in
    match outcome r with
    | inl e => mkRun (steps r) (inl e) (rest r)
    | inr a =>
        let r' := k a (rest r) in
        mkRun (steps r ++ steps r') (outcome r') (rest r')
    end.

(** [yield u]: the generator is suspended in the state it has reached. *)
Definition yield (u : MessageUpdate) : Co unit :=
  fun σ => mkRun [(u, σ)] (inr tt) σ.

Definition throw {A} (e : Thrown) : Co A :=
  fun σ => mkRun [] (inl e) σ.

Definition try_catch {A} (m : Co A) (h : Thrown -> Co A) : Co A :=
  fun σ =>
    let r := m σ in
    match outcome r with
    | inl e =>
        let r' := h e (rest r) in
        mkRun (steps r ++ steps r') (outcome r') (rest r')
    | inr _ => r
    end.

(** A stretch of the body without [yield]: it cannot be cut. *)
Definition quiet {A} (m : Gen A) : Co A :=
  fun σ => mkRun [] (value (m σ)) (final (m σ)).

(** The run driven to its end, without the states at the yields. *)
Definition erase {A} (r : Run A) : Res A :=
  mkRes (map fst (steps r)) (outcome r) (rest r).



Declare Scope co_scope.
Delimit Scope co_scope with co.
Notation "x <- m ;; k" := (bind m (fun x => k))
  (at level 100, m at next level, right associativity) : co_scope.
Notation "m ;;; k" := (bind m (fun _ => k))
  (at level 100, right associativity) : co_scope.
Local Open Scope co_scope.

Section WithWorld.

Variable w : World.

Section Polling.

Variable abortSignal : option (nat -> bool).
Variable headers : gmap jsstring jsstring.
Variable submittedTaskId newContextId : jsstring.
Variable referenceTaskIds : option (list jsstring).

(** One iteration of the poll loop (lines 336-413). *)
Definition pollIteration (attempt : nat) : Co Engine.Control :=
  if Engine.aborted abortSignal attempt
  then throw (ErrorObj (lit "Request aborted"))
  else
    requestId <- quiet (Engine.generateId w) ;;
    statusResponse <-
      quiet (await (w_poll w attempt headers submittedTaskId requestId)) ;;
    if negb (resp_ok statusResponse) then ret Engine.Continue
    else
      match resp_json statusResponse with
      | inl f => throw (json_error f)
      | inr statusResult =>
          match rpc_error statusResult with
          | Some message =>
              throw (ErrorObj (or_default message (lit "Task status error")))
          | None =>
              match rpc_result statusResult with
              | None => throw (ErrorObj (w_type_error w))
              | Some currentTask =>
                  let taskState := status_state (task_status currentTask) in
                  yield (TaskMetadata submittedTaskId newContextId taskState
                                      referenceTaskIds) ;;;
                  if streq taskState (lit "completed")
                     || streq taskState (lit "input-required") then
                    let text := extractTextFromTask currentTask in
                    yield (FinalAnswer (or_default (Some text) []) false) ;;;
                    yield (Status Finished None) ;;;
                    (if streq taskState (lit "completed")
                     then quiet (call (fun σ => (tt, clearPaymentToken σ)))
                     else ret tt) ;;;
                    ret Engine.Return
                  else if streq taskState (lit "failed") then
                    quiet (call (fun σ => (tt, clearPaymentToken σ))) ;;;
                    throw (ErrorObj
                             (lit "Task failed: "
                              ++ or_default (task_metadata_error currentTask)
                                            (lit "Unknown error")))
                  else if streq taskState (lit "canceled") then
                    quiet (call (fun σ => (tt, clearPaymentToken σ))) ;;;
                    throw (ErrorObj (lit "Task was canceled"))
                  else ret Engine.Continue
              end
          end
      end.

Fixpoint pollLoop (fuel attempt : nat) : Co Engine.LoopExit :=
  match fuel with
  | 0 => ret Engine.LoopExhausted
  | S fuel' =>
      c <- pollIteration attempt ;;
      match c with
      | Engine.Return => ret Engine.LoopReturned
      | Engine.Continue => pollLoop fuel' (S attempt)
      end
  end.

End Polling.

(** The [try] block (lines 243-416). *)
Definition sendAndPoll (abortSignal : option (nat -> bool))
    (headers : gmap jsstring jsstring) (agentMessage : AgentMessage)
    (newContextId requestId : jsstring) : Co unit :=
  sent <- quiet (Engine.sendWithPayment w headers agentMessage requestId) ;;
  task <- quiet (Engine.readTask sent.1) ;;
  let submittedTaskId := task_id task in
  yield (TaskMetadata submittedTaskId newContextId
                      (status_state (task_status task))
                      (am_referenceTaskIds agentMessage)) ;;;
  exit <- pollLoop abortSignal sent.2 submittedTaskId newContextId
                   (am_referenceTaskIds agentMessage) Engine.maxAttempts 0 ;;
  match exit with
  | Engine.LoopReturned => ret tt
  | Engine.LoopExhausted => throw (ErrorObj (lit "Task polling timeout"))
  end.

(** The [catch] block (lines 418-425). *)
Definition reportError (error : Thrown) : Co unit :=
  yield (Status Error (Some (error_message error))) ;;;
  throw error.

Definition sendAgentMessage (message : jsstring) (contextId : option jsstring)
    (abortSignal : option (nat -> bool))
    (currentTaskId taskState replyToTaskId : option jsstring) : Co unit :=
  headers <- quiet (Engine.buildHeaders w) ;;
  messageId <- quiet (Engine.generateId w) ;;
  identity <- quiet (Engine.resolveTaskIdentity w replyToTaskId currentTaskId
                                                taskState) ;;
  let taskId := identity.1 in
  let referenceTaskIds := identity.2 in
  newContextId <- quiet (Engine.deriveContextId w contextId) ;;
  let agentMessage :=
    mkAgentMessage (lit "user") [text_part message] (lit "message")
                   messageId newContextId taskId
                   (if bool_decide (0 < length referenceTaskIds)
                    then Some referenceTaskIds else None) in
  yield (Status Started None) ;;;
  requestId <- quiet (Engine.generateId w) ;;
  try_catch
    (sendAndPoll abortSignal headers agentMessage newContextId requestId)
    reportError.

End WithWorld.

End Resumable.

(** ** The chat store (chat.ts): display messages, contexts, polling *)

Module Store.

Inductive Role := User | Assistant | StatusRole.

Record DisplayMessage := mkDisplay {
  dm_id : jsstring;
  dm_text : jsstring;
  dm_role : Role;
  dm_taskId : option jsstring;
  dm_state : option jsstring;
  dm_timestamp : Z
}.

(** A context as [loadContexts] stores it; [id] and [taskIds] are what the
    functions below read. *)
Record Context := mkContext {
  ctx_id : jsstring;
  ctx_taskIds : list jsstring;
  ctx_firstMessage : jsstring;
  ctx_timestamp : Z
}.

(** The writable stores of chat.ts, with the number of [generateUUID()] and
    [Date.now()] calls made so far. *)
Record Chat := mkChat {
  currentTaskId : option jsstring;
  currentTaskState : option jsstring;
  contextId : option jsstring;
  replyToTaskId : option jsstring;
  messages : list DisplayMessage;
  contexts : list Context;
  isThinking : bool;
  error : option jsstring;
  uuids : nat;
  clock : nat
}.

(** What the store reads from outside: [generateUUID], [Date.now],
    [agentAPI.getTask] ([None]: the promise rejects),
    [agentAPI.clearContext] ([inl]: the message of the rejection), and the
    order in which the engine's [Array.prototype.sort] leaves tasks whose
    times do not give a consistent comparison function (that order is
    implementation-defined). *)
Record Env := mkEnv {
  generateUUID : nat -> jsstring;
  now : nat -> Z;
  getTask : jsstring -> option Chat.Task;
  clearContextApi : jsstring -> Thrown + unit;
  sortAnyhow : list Chat.Task -> list Chat.Task
}.

Section WithEnv.

Variable env : Env.

Definition addMessage (text : jsstring) (role : Role)
    (taskId state : option jsstring) (s : Chat) : Chat :=
  let message :=
    mkDisplay (generateUUID env (uuids s)) text role taskId state
              (now env (clock s)) in
  mkChat (currentTaskId s) (currentTaskState s) (contextId s)
         (replyToTaskId s) (messages s ++ [message]) (contexts s)
         (isThinking s) (error s) (S (uuids s)) (S (clock s)).

Definition clearMessages (s : Chat) : Chat :=
  mkChat (currentTaskId s) (currentTaskState s) (contextId s)
         (replyToTaskId s) [] (contexts s) (isThinking s) (error s)
         (uuids s) (clock s).

Definition setError (errorMessage : option jsstring) (s : Chat) : Chat :=
  mkChat (currentTaskId s) (currentTaskState s) (contextId s)
         (replyToTaskId s) (messages s) (contexts s) (isThinking s)
         errorMessage (uuids s) (clock s).

Definition setContextId (ctxId : option jsstring) (s : Chat) : Chat :=
  mkChat (currentTaskId s) (currentTaskState s) ctxId
         (replyToTaskId s) (messages s) (contexts s) (isThinking s)
         (error s) (uuids s) (clock s).

Definition setCurrentTask (taskId taskState : option jsstring) (s : Chat)
  : Chat :=
  mkChat taskId taskState (contextId s) (replyToTaskId s) (messages s)
         (contexts s) (isThinking s) (error s) (uuids s) (clock s).

(** The loop that fetches the tasks of a context: a task that cannot be
    loaded is logged and skipped. *)
Fixpoint loadTasks (taskIds : list jsstring) : list Chat.Task :=
  match taskIds with
  | [] => []
  | taskId :: rest =>
      match getTask env taskId with
      | Some task => task :: loadTasks rest
      | None => loadTasks rest
      end
  end.

(** The stable ascending arrangement by time, computed by insertion. *)
Fixpoint insertByTime (task : Chat.Task) (sorted : list Chat.Task)
  : list Chat.Task :=
  match sorted with
  | [] => [task]
  | first :: rest =>
      if Chat.earlier first task
      then first :: insertByTime task rest
      else task :: sorted
  end.

Definition stableByTime (tasks : list Chat.Task) : list Chat.Task :=
  fold_right insertByTime [] tasks.

(** The comparator [(a, b) => timeA - timeB], whose NaN results count as
    +0, is a consistent comparison function for the tasks exactly when no
    time is NaN or no task is earlier than another. *)
Definition consistentTimes (tasks : list Chat.Task) : bool :=
  forallb (fun task => bool_decide (is_Some (Chat.chat_time task))) tasks
  || forallb (fun a => forallb (fun b => negb (Chat.earlier a b)) tasks) tasks.

(** [contextTasks.sort((a, b) => timeA - timeB)]: [Array.prototype.sort] is
    stable, so with a consistent comparator the result is the stable
    ascending arrangement by time; otherwise the order is
    implementation-defined. *)
Definition sortByTime (tasks : list Chat.Task) : list Chat.Task :=
  if consistentTimes tasks then stableByTime tasks else sortAnyhow env tasks.

(** The body of the inner loop of [switchContext] (lines 171-184). *)
Definition showMessage (task : Chat.Task) (s : Chat) (msg : HistoryMessage)
  : Chat :=
  match Chat.textParts msg with
  | [] => s
  | (_ :: _) as textParts =>
      let text := join nl textParts in
      let sender := if streq (msg_role msg) (lit "user") then User else Assistant in
      let state := match sender with
                   | Assistant => Some (Chat.chat_state task)
                   | _ => None
                   end in
      addMessage text sender (Some (Chat.chat_id task)) state s
  end.

Definition showTask (s : Chat) (task : Chat.Task) : Chat :=
  fold_left (showMessage task) (default [] (Chat.chat_history task)) s.

Definition switchContext (ctxId : jsstring) (s : Chat) : Chat :=
  let s := setContextId (Some ctxId) (clearMessages s) in
  match List.find (fun c => streq (ctx_id c) ctxId) (contexts s) with
  | None => s
  | Some selectedContext =>
      match ctx_taskIds selectedContext with
      | [] => s
      | (_ :: _) as taskIds =>
          let contextTasks := sortByTime (loadTasks taskIds) in
          let s := fold_left showTask contextTasks s in
          match last contextTasks with
          | Some lastTask =>
              setCurrentTask (Some (Chat.chat_id lastTask))
                             (Some (Chat.chat_state lastTask)) s
          | None => s
          end
      end
  end.

Definition createNewContext (s : Chat) : Chat :=
  mkChat None None None None [] (contexts s) (isThinking s) (error s)
         (uuids s) (clock s).

Definition clearContext (ctxId : jsstring) (s : Chat) : Chat :=
  match clearContextApi env ctxId with
  | inr _ =>
      let s :=
        mkChat (currentTaskId s) (currentTaskState s) (contextId s)
               (replyToTaskId s) (messages s)
               (List.filter (fun c => negb (streq (ctx_id c) ctxId)) (contexts s))
               (isThinking s) (error s) (uuids s) (clock s) in
      let s := if bool_decide (contextId s = Some ctxId)
               then createNewContext s else s in
      addMessage (lit "Context cleared successfully") StatusRole None None s
  | inl _ => setError (Some (lit "Failed to clear context")) s
  end.

(** One run of the interval callback of [startPollingTask], from the
    completion of [getTask] on: [result] is what the fetch gave,
    [lastHistoryLength] the variable of the closure, [polling] whether
    [pollingInterval] is set.  [isTerminalState] comes from
    [$lib/types/agent]. *)
Definition pollTick (isTerminalState : jsstring -> bool)
    (result : option Chat.Task) (poller : nat * bool) (s : Chat)
  : nat * bool * Chat :=
  let '(lastHistoryLength, polling) := poller in
  let stopped (s : Chat) :=
    mkChat (currentTaskId s) (currentTaskState s) (contextId s)
           (replyToTaskId s) (messages s) (contexts s) false (error s)
           (uuids s) (clock s) in
  match result with
  | None => (lastHistoryLength, false, stopped s)
  | Some task =>
      let history := default [] (Chat.chat_history task) in
      let shown :=
        if bool_decide (lastHistoryLength < length history) then
          (length history,
           fold_left
             (fun s msg =>
                if streq (msg_role msg) (lit "assistant") then
                  match Chat.textParts msg with
                  | [] => s
                  | (_ :: _) as textParts =>
                      addMessage (join nl textParts) Assistant
                                 (Some (Chat.chat_id task))
                                 (Some (Chat.chat_state task)) s
                  end
                else s)
             (drop lastHistoryLength history) s)
        else (lastHistoryLength, s) in
      let s := setCurrentTask (currentTaskId shown.2)
                              (Some (Chat.chat_state task)) shown.2 in
      if isTerminalState (Chat.chat_state task)
      then (shown.1, false, stopped s)
      else (shown.1, polling, s)
  end.

End WithEnv.

(** What a display message shows, without its generated id and time. *)
Definition shown (m : DisplayMessage)
  : jsstring * Role * option jsstring * option jsstring :=
  (dm_text m, dm_role m, dm_taskId m, dm_state m).

(** What [switchContext] shows of one history entry of a task. *)
Definition entry (task : Chat.Task) (msg : HistoryMessage)
  : list (jsstring * Role * option jsstring * option jsstring) :=
  match Chat.textParts msg with
  | [] => []
  | (_ :: _) as textParts =>
      [(join nl textParts,
        if streq (msg_role msg) (lit "user") then User else Assistant,
        Some (Chat.chat_id task),
        if streq (msg_role msg) (lit "user") then None
        else Some (Chat.chat_state task))]
  end.

Definition entries (task : Chat.Task)
  : list (jsstring * Role * option jsstring * option jsstring) :=
  mjoin (map (entry task) (default [] (Chat.chat_history task))).

(** Ascending by time, for tasks whose times are numbers. *)
Definition byTime (a b : Chat.Task) : Prop :=
  match Chat.chat_time a, Chat.chat_time b with
  | Some timeA, Some timeB => (timeA <= timeB)%Z
  | _, _ => False
  end.

(** The texts the polling callback shows for a stretch of history: one per
    assistant-role entry that has a text-kind part. *)
Definition assistantTexts (history : list HistoryMessage) : list jsstring :=
  mjoin (map (fun msg =>
                if streq (msg_role msg) (lit "assistant") then
                  match Chat.textParts msg with
                  | [] => []
                  | (_ :: _) as textParts => [join nl textParts]
                  end
                else [])
             history).

(** Successive snapshots of a task whose history only grows. *)
Fixpoint growing (previous : list HistoryMessage) (snapshots : list Chat.Task)
  : Prop :=
  match snapshots with
  | [] => True
  | task :: rest =>
      previous `prefix_of` default [] (Chat.chat_history task)
      /\ growing (default [] (Chat.chat_history task)) rest
  end.

(** The texts of the display messages with their roles. *)
Definition spoken (s : Chat) : list (jsstring * Role) :=
  map (fun m => (dm_text m, dm_role m)) (messages s).

(** The polling callback run on successive snapshots. *)
Definition pollTicks (env : Env) (isTerminalState : jsstring -> bool)
    (snapshots : list Chat.Task) (start : nat * bool * Chat)
  : nat * bool * Chat :=
  fold_left (fun st task => pollTick env isTerminalState (Some task) st.1 st.2)
            snapshots start.

End Store.

(** ** chat.ts: [sendMessage] *)

Module Sending.

Import Store.

(** What [agentAPI.sendMessage] resolves to, as [sendMessage] reads it:
    the task id, and [task.context_id || task.contextId]. *)
Record SentTask := mkSent {
  sent_id : jsstring;
  sent_context : option jsstring
}.

Section WithEnv.

Variable env : Env.

(** [isNonTerminalState] of [$lib/types/agent], and [agentAPI.sendMessage]
    ([inl]: the promise rejects with that value). *)
Variable isNonTerminalState : jsstring -> bool.
Variable sendMessageApi : AgentMessage -> Thrown + SentTask.

(** Lines 236-253, with the ids drawn: the task id, the references, and
    the number of [generateUUID()] calls made. *)
Definition identity (s : Chat) : jsstring * list jsstring * nat :=
  if truthy_opt (replyToTaskId s) then
    (generateUUID env (uuids s), [default [] (replyToTaskId s)], S (uuids s))
  else if truthy_opt (currentTaskState s)
          && isNonTerminalState (default [] (currentTaskState s))
          && truthy_opt (currentTaskId s) then
    (default [] (currentTaskId s), [], uuids s)
  else if truthy_opt (currentTaskId s) then
    (generateUUID env (uuids s), [default [] (currentTaskId s)], S (uuids s))
  else
    (generateUUID env (uuids s), [], S (uuids s)).

(** [sendMessage(text)]: the store afterwards, and the task whose polling
    was started, if any. *)
Definition sendMessage (text : jsstring) (s : Chat) : Chat * option jsstring :=
  let currentContext := contextId s in
  let '(taskId, referenceTaskIds, n) := identity s in
  let messageId := generateUUID env n in
  let n := S n in
  let '(useContextId, n) :=
    if truthy_opt currentContext then (default [] currentContext, n)
    else (generateUUID env n, S n) in
  let s1 :=
    addMessage env text User (Some taskId) None
      (mkChat (currentTaskId s) (currentTaskState s) (contextId s)
              (replyToTaskId s) (messages s) (contexts s) (isThinking s)
              (error s) n (clock s)) in
  let s2 :=
    mkChat (currentTaskId s1) (currentTaskState s1) (contextId s1) None
           (messages s1) (contexts s1) true (error s1) (uuids s1) (clock s1) in
  let message :=
    mkAgentMessage (lit "user") [text_part text] (lit "message") messageId
                   useContextId taskId
                   (if bool_decide (0 < length referenceTaskIds)
                    then Some referenceTaskIds else None) in
  match sendMessageApi message with
  | inr task =>
      let taskContextId :=
        if truthy_opt (sent_context task) then default [] (sent_context task)
        else useContextId in
      let ctx := if truthy_opt currentContext then contextId s2
                 else Some taskContextId in
      (mkChat (Some (sent_id task)) (currentTaskState s2) ctx
              (replyToTaskId s2) (messages s2) (contexts s2) (isThinking s2)
              (error s2) (uuids s2) (clock s2),
       Some (sent_id task))
  | inl err =>
      (mkChat (currentTaskId s2) (currentTaskState s2) (contextId s2)
              (replyToTaskId s2) (messages s2) (contexts s2) false
              (Some (match err with
                     | ErrorObj m => m
                     | NonError => lit "Failed to send message"
                     end))
              (uuids s2) (clock s2),
       None)
  end.

End WithEnv.

End Sending.

(** ** TaskInfo.svelte: how a task id is displayed *)

Module TaskInfo.

(** [truncateId]: [id.slice(0, 6)], three dots, [id.slice(-6)]. *)
Definition truncateId (id : jsstring) : jsstring :=
  if bool_decide (length id <= 12) then id
  else take 6 id ++ lit "..." ++ drop (length id - 6) id.

End TaskInfo.

(** ** Concrete inputs used by the examples below *)

Module Sample.

Definition status0 (s : string) : TaskStatus := mkStatus (lit s) (lit "2024-01-01T00:00:00Z").

Definition said (role text : string) : HistoryMessage :=
  mkMsg (lit role) (Some [text_part (lit text)]).

(** Two artifacts with one text part each, ["A"] and ["B"]. *)
Definition task_AB : AgentTask :=
  mkTask (lit "t1") (lit "c1") (status0 "completed") (Some [])
         (Some [mkArtifact (lit "artifact") (Some [text_part (lit "A")]) None;
                mkArtifact (lit "artifact") (Some [text_part (lit "B")]) None])
         None.

(** No artifacts; history [user:"hi", assistant:"ok", assistant:"final"]. *)
Definition task_history3 : AgentTask :=
  mkTask (lit "t2") (lit "c1") (status0 "input-required")
         (Some [said "user" "hi"; said "assistant" "ok"; said "assistant" "final"])
         (Some []) None.

(** One artifact whose only text part is empty; the history has an answer. *)
Definition task_empty_part : AgentTask :=
  mkTask (lit "t3") (lit "c1") (status0 "completed")
         (Some [said "user" "hi"; said "agent" "ok"])
         (Some [mkArtifact (lit "artifact") (Some [text_part []]) None])
         None.

Definition state0 : State := mkState None 0.

Definition ok_response {B} (body : B) : Response B :=
  mkResponse 200 (inr []) (inr body).

Definition uuid (n : nat) : jsstring := lit "id-" ++ of_N (N.of_nat n).

(** A world whose payment session completes at the first status poll with
    the given token; the agent itself is unreachable. *)
Definition world_paid (token : jsstring) : World :=
  mkWorld uuid None (lit "TypeError")
          (fun _ _ _ _ => Rejects NonError)
          (fun _ _ _ _ => Rejects NonError)
          (Responds (ok_response (mkSession (lit "s1") (lit "http://pay"))))
          (fun _ => true)
          (fun _ _ =>
             Responds (ok_response
                         (mkStatusData (lit "completed") (Some token) None))).

(** A snapshot of the remote task in the given state; its answer is
    ["final"]. *)
Definition task_in (st : string) : AgentTask :=
  mkTask (lit "task-1") (lit "ctx-1") (status0 st)
         (Some [said "user" "hi"; said "agent" "final"]) None None.

Definition snapshot (st : string) : FetchResult RpcEnvelope :=
  Responds (ok_response (mkEnvelope None (Some (task_in st)))).

(** A world whose agent accepts the message and answers the polls as
    [poll] says; no payment service. *)
Definition world_agent (poll : nat -> FetchResult RpcEnvelope) : World :=
  mkWorld uuid None (lit "TypeError")
          (fun _ _ _ _ => snapshot "submitted")
          (fun attempt _ _ _ => poll attempt)
          (Rejects NonError)
          (fun _ => false)
          (fun _ _ => Rejects NonError).

(** submitted, then working, then completed. *)
Definition poll_happy (attempt : nat) : FetchResult RpcEnvelope :=
  match attempt with
  | 0 => snapshot "submitted"
  | 1 => snapshot "working"
  | _ => snapshot "completed"
  end.

(** The first poll awaits input. *)
Definition poll_input (attempt : nat) : FetchResult RpcEnvelope :=
  snapshot "input-required".

(** The first poll fails at transport level; every later one would find
    the task completed. *)
Definition poll_flaky (attempt : nat) : FetchResult RpcEnvelope :=
  match attempt with
  | 0 => Rejects (ErrorObj (lit "Failed to fetch"))
  | _ => snapshot "completed"
  end.

(** The first poll gets HTTP 503; every later one finds the task
    completed. *)
Definition poll_503 (attempt : nat) : FetchResult RpcEnvelope :=
  match attempt with
  | 0 => Responds (mkResponse 503 (inr (lit "busy")) (inl (mkJsonFailure NonError (inl NonError))))
  | _ => snapshot "completed"
  end.

(** [sendAgentMessage("hello", "ctx-1")] in the given world, from a state
    holding the token ["tok"]. *)
Definition run (w : World) : Res unit :=
  Engine.sendAgentMessage w (lit "hello") (Some (lit "ctx-1")) None
                          None None None (mkState (Some (lit "tok")) 0).

(** A context whose task ids are listed newest first. *)
Definition chat_task (id question : string) (time : Z) : Chat.Task :=
  Chat.mkChatTask (lit id) (lit "completed") (Some time)
                  (Some [said "user" question; said "assistant" "ok"]).

Definition getTask2 (id : jsstring) : option Chat.Task :=
  if streq id (lit "t-late") then Some (chat_task "t-late" "second question" 2000)
  else if streq id (lit "t-early")
       then Some (chat_task "t-early" "first question" 1000)
       else None.

Definition taskIds2 : list jsstring := [lit "t-late"; lit "t-early"].

(** The task never leaves working. *)
Definition poll_working (attempt : nat) : FetchResult RpcEnvelope :=
  snapshot "working".

(** The caller aborts between attempt 5 and attempt 6 (counted from 1). *)
Definition abort_after_5 (attempt : nat) : bool := bool_decide (5 <= attempt).

Definition payment_required : FetchResult RpcEnvelope :=
  Responds (mkResponse 402 (inr (lit "Payment Required"))
                       (inl (mkJsonFailure NonError (inl NonError)))).

(** An agent that answers only requests carrying [X-PAYMENT: tok123], and
    a payment service that hands out that token. *)
Definition world_402 : World :=
  mkWorld uuid None (lit "TypeError")
          (fun _ headers _ _ =>
             if bool_decide (headers !! Payment.X_PAYMENT = Some (lit "tok123"))
             then snapshot "submitted" else payment_required)
          (fun _ headers _ _ =>
             if bool_decide (headers !! Payment.X_PAYMENT = Some (lit "tok123"))
             then snapshot "completed" else payment_required)
          (Responds (ok_response (mkSession (lit "s1") (lit "http://pay"))))
          (fun _ => true)
          (fun _ _ =>
             Responds (ok_response
                         (mkStatusData (lit "completed") (Some (lit "tok123"))
                                       None))).

(** A payment service whose session never leaves "pending". *)
Definition world_pending : World :=
  mkWorld uuid None (lit "TypeError")
          (fun _ _ _ _ => payment_required)
          (fun _ _ _ _ => payment_required)
          (Responds (ok_response (mkSession (lit "s1") (lit "http://pay"))))
          (fun _ => true)
          (fun _ _ =>
             Responds (ok_response (mkStatusData (lit "pending") None None))).

(** An agent that always asks for payment, with a browser that blocks the
    payment popup. *)
Definition world_blocked : World :=
  mkWorld uuid None (lit "TypeError")
          (fun _ _ _ _ => payment_required)
          (fun _ _ _ _ => payment_required)
          (Responds (ok_response (mkSession (lit "s1") (lit "http://pay"))))
          (fun _ => false)
          (fun _ _ => Rejects NonError).

(** A chat store that knows one context, whose tasks are listed newest
    first, and an environment that serves them. *)
Definition env2 : Store.Env :=
  Store.mkEnv uuid (fun n => Z.of_nat n) getTask2 (fun _ => inr tt)
              (fun tasks => tasks).

Definition chat2 : Store.Chat :=
  Store.mkChat (Some (lit "old-task")) (Some (lit "completed")) None None []
               [Store.mkContext (lit "ctx-1") taskIds2 (lit "Loading...") 0%Z]
               false None 0 0.

(** Three snapshots of a task whose history grows. *)
Definition snapshots3 : list Chat.Task :=
  [Chat.mkChatTask (lit "t") (lit "working") (Some 1%Z)
                   (Some [said "user" "hi"]);
   Chat.mkChatTask (lit "t") (lit "working") (Some 1%Z)
                   (Some [said "user" "hi"; said "assistant" "one"]);
   Chat.mkChatTask (lit "t") (lit "completed") (Some 1%Z)
                   (Some [said "user" "hi"; said "assistant" "one";
                          said "assistant" "two"])].

(** An agent that answers every request with a JSON-RPC error (and a
    result besides). *)
Definition world_rpc_error : World :=
  mkWorld uuid None (lit "TypeError")
          (fun _ _ _ _ =>
             Responds (ok_response
                         (mkEnvelope (Some (Some (lit "method not found")))
                                     (Some (task_in "completed")))))
          (fun _ _ _ _ => Rejects NonError)
          (Rejects NonError)
          (fun _ => false)
          (fun _ _ => Rejects NonError).

End Sample.

(** * Properties *)

(** ** Text Extractor *)

Section ExtractorFacts.

Import Extractor.

Lemma fold_push_part (parts : list Part) (acc : list jsstring) :
  fold_left push_part parts acc = acc ++ Doc.part_texts parts.
Proof.
  revert acc. induction parts as [|p parts IH]; intros acc; simpl.
  - by rewrite app_nil_r.
  - rewrite IH. unfold push_part.
    destruct (is_text_part p) eqn:Hp; [|done].
    unfold is_text_part in Hp. apply andb_prop in Hp as [_ Ht].
    destruct (part_text p) as [t|]; [|done]. simpl.
    by rewrite <- app_assoc.
Qed.

Lemma fold_push_artifact (artifacts : list Artifact) (acc : list jsstring) :
  fold_left push_artifact artifacts acc
  = acc ++ mjoin (map Doc.artifact_texts artifacts).
Proof.
  revert acc. induction artifacts as [|a artifacts IH]; intros acc; simpl.
  - by rewrite app_nil_r.
  - rewrite IH, app_assoc. f_equal.
    unfold push_artifact, Doc.artifact_texts.
    destruct (art_parts a) as [parts|].
    + apply fold_push_part.
    + destruct (truthy_opt (art_text a)); [done|]. by rewrite app_nil_r.
Qed.

Lemma first_text_head (parts : list Part) :
  first_text parts = head (Doc.part_texts parts).
Proof.
  induction parts as [|p parts IH]; simpl; [done|].
  destruct (is_text_part p) eqn:Hp; [|done].
  unfold is_text_part in Hp. apply andb_prop in Hp as [_ Ht].
  by destruct (part_text p).
Qed.

Lemma scan_history_take (history : list HistoryMessage) (n : nat) :
  n ≤ length history ->
  scan_history history n = Doc.latest_answer (take n history).
Proof.
  induction n as [|i IH]; intros Hn.
  - by rewrite take_0.
  - destruct (lookup_lt_is_Some_2 history i) as [msg Hmsg]; [lia|].
    rewrite (take_S_r _ _ _ Hmsg). unfold Doc.latest_answer.
    rewrite rev_unit. simpl. rewrite Hmsg.
    unfold Doc.answers at 1.
    destruct (is_agent_role (msg_role msg)); simpl.
    + destruct (msg_parts msg) as [parts|] eqn:Hparts; simpl.
      * rewrite first_text_head.
        destruct (Doc.part_texts parts) as [|t ts] eqn:Hts; simpl.
        -- apply IH. lia.
        -- by rewrite Hparts; simpl; rewrite Hts.
      * apply IH. lia.
    + apply IH. lia.
Qed.

Lemma from_history_latest (task : AgentTask) :
  from_history task = Doc.latest_answer (default [] (task_history task)).
Proof.
  unfold from_history. destruct (task_history task) as [history|]; [|done].
  simpl. rewrite scan_history_take by done. by rewrite firstn_all.
Qed.

Lemma extract_refines (task : AgentTask) :
  extractTextFromTask task = Doc.extract task.
Proof.
  unfold extractTextFromTask, Doc.extract.
  rewrite from_history_latest.
  destruct (task_artifacts task) as [[|a artifacts]|]; try done.
  cbv zeta. rewrite fold_push_artifact, app_nil_l.
  change (default [] (Some (a :: artifacts))) with (a :: artifacts).
  by destruct (mjoin _).
Qed.

End ExtractorFacts.

Section ExtractorClaims.

Import Extractor.

Lemma bare_artifact_texts (kind text : jsstring) :
  Doc.artifact_texts (mkArtifact kind None (Some text))
  = Doc.artifact_texts (mkArtifact kind (Some [text_part text]) (Some text)).
Proof. by destruct text. Qed.

Lemma artifact_texts_app (before after : list Artifact) (a : Artifact) :
  mjoin (map Doc.artifact_texts (before ++ a :: after))
  = mjoin (map Doc.artifact_texts before) ++ Doc.artifact_texts a
    ++ mjoin (map Doc.artifact_texts after).
Proof. by rewrite map_app, join_app. Qed.

(** C7 (as the code has it): the Text Extractor returns the newline-join, in
    order, of the non-empty texts of the text-kind parts of all artifacts (an
    artifact without a [parts] array contributing its non-empty top-level
    text) when there is at least one such text; otherwise the first non-empty
    text part of the most recent assistant- or agent-role history message
    that has one; otherwise the empty string.  Two artifacts with text parts
    "A" and "B" give "A\nB", and the history [user:"hi", assistant:"ok",
    assistant:"final"] without artifacts gives "final". *)
Theorem extractTextFromTask_policy :
  (forall task : AgentTask, extractTextFromTask task = Doc.extract task)
  /\ extractTextFromTask Sample.task_AB = lit "A" ++ nl ++ lit "B"
  /\ extractTextFromTask Sample.task_history3 = lit "final".
Proof.
  split; [apply extract_refines|]. split; reflexivity.
Qed.

(** C7 (as stated) fails: with one artifact whose only text-kind part has the
    empty text, a text-kind part exists, so the join of all of them is the
    empty string; the code skips the empty text and answers from history. *)
Lemma extractTextFromTask_skips_empty_text :
  Doc.extract_literal Sample.task_empty_part = []
  /\ extractTextFromTask Sample.task_empty_part = lit "ok"
  /\ extractTextFromTask Sample.task_empty_part
     <> Doc.extract_literal Sample.task_empty_part.
Proof. split; [|split]; [reflexivity | reflexivity | discriminate]. Qed.

(** C10 (as the code has it): an artifact without a [parts] array that
    carries a top-level [text] is read exactly as if it were an artifact
    with that one text-kind part; when the text is non-empty it is an
    element of the newline-joined result, in the artifact's position. *)
Theorem extractTextFromTask_bare_artifact
    (before after : list Artifact) (kind text : jsstring)
    (tid ctx : jsstring) (st : TaskStatus)
    (history : option (list HistoryMessage)) (err : option jsstring) :
  let bare := mkArtifact kind None (Some text) in
  let parted := mkArtifact kind (Some [text_part text]) (Some text) in
  let task_with a := mkTask tid ctx st history (Some (before ++ a :: after)) err in
  extractTextFromTask (task_with bare) = extractTextFromTask (task_with parted)
  /\ (text <> [] ->
      extractTextFromTask (task_with bare)
      = join nl (mjoin (map Doc.artifact_texts before) ++ [text]
                 ++ mjoin (map Doc.artifact_texts after))).
Proof.
  intros bare parted task_with. split.
  - rewrite !extract_refines. unfold Doc.extract, task_with, bare, parted.
    cbn [task_artifacts task_history from_option id].
    by rewrite !artifact_texts_app, bare_artifact_texts.
  - intros Htext. rewrite extract_refines. unfold Doc.extract, task_with, bare, parted.
    cbn [task_artifacts task_history from_option id].
    rewrite artifact_texts_app.
    replace (Doc.artifact_texts (mkArtifact kind None (Some text))) with [text]
      by (by destruct text).
    by destruct (mjoin (map Doc.artifact_texts before)).
Qed.

Lemma extractTextFromTask_bare_artifact_witness :
  extractTextFromTask
    (mkTask (lit "t") (lit "c") (Sample.status0 "completed") None
            (Some ([mkArtifact (lit "a") (Some [text_part (lit "A")]) None]
                   ++ mkArtifact (lit "a") None (Some (lit "X")) :: []))
            None)
  = lit "A" ++ nl ++ lit "X".
Proof.
  refine (proj2 (extractTextFromTask_bare_artifact
                   [mkArtifact (lit "a") (Some [text_part (lit "A")]) None] []
                   (lit "a") (lit "X") (lit "t") (lit "c")
                   (Sample.status0 "completed") None None) _).
  discriminate.
Defined.

(** C10 (as stated) fails: an artifact without [parts] whose top-level text
    is the empty string contributes nothing.  After an artifact saying "A"
    the result is "A", not "A" followed by a newline and the empty text;
    and when it is the only artifact the answer comes from the history. *)
Lemma extractTextFromTask_bare_artifact_empty :
  let bare := mkArtifact (lit "artifact") None (Some []) in
  let saysA := mkArtifact (lit "artifact") (Some [text_part (lit "A")]) None in
  let task artifacts :=
    mkTask (lit "t") (lit "c") (Sample.status0 "completed")
           (Some [Sample.said "user" "hi"; Sample.said "agent" "ok"])
           (Some artifacts) None in
  extractTextFromTask (task [saysA; bare]) = lit "A"
  /\ extractTextFromTask (task [saysA; bare]) <> join nl [lit "A"; []]
  /\ extractTextFromTask (task [bare]) = lit "ok"
  /\ extractTextFromTask (task [bare]) <> join nl [[]].
Proof. repeat split; try reflexivity; discriminate. Qed.

End ExtractorClaims.

(** ** Payment Challenge Handler *)

Section PaymentClaims.

Import Payment.

Lemma getPaymentHeaders_none (σ : State) :
  truthy_opt (paymentToken σ) = false -> getPaymentHeaders σ = (∅, σ).
Proof. unfold getPaymentHeaders. by intros ->. Qed.

Lemma getPaymentHeaders_held (σ : State) (tok : jsstring) :
  paymentToken σ = Some tok -> tok <> [] ->
  getPaymentHeaders σ
  = if is_ascii (trim tok) then ({[ X_PAYMENT := trim tok ]}, σ)
    else (∅, set_token None σ).
Proof.
  intros Htok Hne. unfold getPaymentHeaders. rewrite Htok.
  destruct tok; [done|]. simpl truthy_opt. cbn [negb from_option id].
  by destruct (is_ascii _).
Qed.

Lemma pollPayment_completed (w : World) (sid : jsstring) (fuel n : nat)
    (σ : State) (r : Response StatusData) (d : StatusData) (tok : jsstring) :
  w_payment_status w (S n) sid = Responds r -> resp_ok r = true ->
  resp_json r = inr d -> pay_status d = lit "completed" ->
  pay_token d = Some tok -> tok <> [] ->
  pollPayment w sid (S fuel) n σ = (inr true, [NApproved], set_token (Some tok) σ).
Proof.
  intros Hr Hok Hd Hst Htok Hne. simpl. rewrite Hr, Hok, Hd, Hst, Htok.
  by destruct tok.
Qed.

(** C6 (as the code has it): a payment-status poll returning
    status=completed with a non-empty token stores the token as received,
    without validation, and the handler's loop ends with [true].  Validation
    happens in [getPaymentHeaders]: with a non-empty token held, the token
    is trimmed; if the trimmed token is ASCII-only the result is
    { "X-PAYMENT": trimmed token } and the token stays, otherwise the token
    is cleared and the result is {}.  With no token (or an empty one) held
    the result is {} and nothing changes. *)
Theorem getPaymentHeaders_contract :
  (forall (w : World) (sid : jsstring) (fuel n : nat) (σ : State)
          (r : Response StatusData) (d : StatusData) (tok : jsstring),
      w_payment_status w (S n) sid = Responds r -> resp_ok r = true ->
      resp_json r = inr d -> pay_status d = lit "completed" ->
      pay_token d = Some tok -> tok <> [] ->
      let σ' := set_token (Some tok) σ in
      pollPayment w sid (S fuel) n σ = (inr true, [NApproved], σ')
      /\ paymentToken σ' = Some tok
      /\ getPaymentHeaders σ'
         = if is_ascii (trim tok) then ({[ X_PAYMENT := trim tok ]}, σ')
           else (∅, set_token None σ))
  /\ (forall (σ : State) (tok : jsstring),
         paymentToken σ = Some tok -> tok <> [] ->
         getPaymentHeaders σ
         = if is_ascii (trim tok) then ({[ X_PAYMENT := trim tok ]}, σ)
           else (∅, set_token None σ))
  /\ (forall σ : State,
         paymentToken σ = None \/ paymentToken σ = Some [] ->
         getPaymentHeaders σ = (∅, σ)).
Proof.
  split; [|split].
  - intros w sid fuel n σ r d tok Hr Hok Hd Hst Htok Hne σ'.
    split; [by eapply pollPayment_completed|]. split; [done|].
    by rewrite (getPaymentHeaders_held σ' tok).
  - apply getPaymentHeaders_held.
  - intros σ [H|H]; apply getPaymentHeaders_none; by rewrite H.
Qed.

Lemma getPaymentHeaders_contract_witness :
  pollPayment (Sample.world_paid (lit " tok123")) (lit "s1") 60 0 Sample.state0
  = (inr true, [NApproved], set_token (Some (lit " tok123")) Sample.state0)
  /\ (getPaymentHeaders (set_token (Some (lit " tok123")) Sample.state0)).1
     = {[ X_PAYMENT := lit "tok123" ]}.
Proof.
  destruct (proj1 getPaymentHeaders_contract
              (Sample.world_paid (lit " tok123")) (lit "s1") 59 0 Sample.state0
              (Sample.ok_response
                 (mkStatusData (lit "completed") (Some (lit " tok123")) None))
              (mkStatusData (lit "completed") (Some (lit " tok123")) None)
              (lit " tok123") eq_refl eq_refl eq_refl eq_refl eq_refl
              ltac:(discriminate)) as (Hpoll & _ & Hheaders).
  split; [exact Hpoll|]. rewrite Hheaders. reflexivity.
Defined.

(** C6 (as stated) fails: a non-ASCII token delivered by the status poll is
    stored as the payment token, the handler reports success and
    [hasPaymentToken] holds; and a held ASCII token with a leading blank is
    not what [getPaymentHeaders] returns. *)
Lemma payment_token_stored_unvalidated :
  is_ascii [233%N] = false
  /\ (handlePaymentRequired (Sample.world_paid [233%N]) Sample.state0).1.1 = true
  /\ paymentToken (handlePaymentRequired (Sample.world_paid [233%N]) Sample.state0).2
     = Some [233%N]
  /\ hasPaymentToken
       (handlePaymentRequired (Sample.world_paid [233%N]) Sample.state0).2 = true
  /\ is_ascii (lit " tok123") = true
  /\ (getPaymentHeaders (mkState (Some (lit " tok123")) 0)).1 !! X_PAYMENT
     <> Some (lit " tok123").
Proof.
  repeat split; try reflexivity.
  rewrite (getPaymentHeaders_held _ (lit " tok123")) by done.
  simpl. rewrite lookup_singleton_eq. discriminate.
Qed.

End PaymentClaims.

(** ** Task identity and context id *)

Section IdentityClaims.

Import Engine.

Lemma generateId_run (w : World) (σ : State) :
  generateId w σ = mkRes [] (inr (w_uuid w (idCounter σ))) (bump σ).
Proof. reflexivity. Qed.

Lemma truthy_present (o : option jsstring) (s : jsstring) :
  Doc.present o s -> truthy_opt o = true /\ default [] o = s.
Proof. intros [-> Hs]. by destruct s. Qed.

Lemma truthy_absent (o : option jsstring) :
  Doc.absent o -> truthy_opt o = false.
Proof. by intros [-> | ->]. Qed.

Lemma awaits_input_test (taskState : option jsstring) :
  truthy_opt taskState
  && (streq (default [] taskState) (lit "input-required")
      || streq (default [] taskState) (lit "auth-required")) = true
  <-> Doc.awaits_input taskState.
Proof.
  unfold Doc.awaits_input, streq. split.
  - intros H. apply andb_prop in H as [_ H]. apply orb_prop in H.
    destruct taskState as [s|]; [|by destruct H].
    simpl in H. destruct H as [H|H]; apply bool_decide_eq_true_1 in H;
      subst; auto.
  - by intros [-> | ->].
Qed.

Lemma resolveTaskIdentity_run (w : World)
    (replyToTaskId currentTaskId taskState : option jsstring) (σ : State) :
  resolveTaskIdentity w replyToTaskId currentTaskId taskState σ
  = if truthy_opt replyToTaskId then
      mkRes [] (inr (w_uuid w (idCounter σ), [default [] replyToTaskId])) (bump σ)
    else if truthy_opt taskState
            && (streq (default [] taskState) (lit "input-required")
                || streq (default [] taskState) (lit "auth-required"))
            && truthy_opt currentTaskId then
      mkRes [] (inr (default [] currentTaskId, [])) σ
    else
      mkRes [] (inr (w_uuid w (idCounter σ),
                     if truthy_opt currentTaskId
                     then [default [] currentTaskId] else []))
            (bump σ).
Proof.
  unfold resolveTaskIdentity.
  destruct (truthy_opt replyToTaskId); [reflexivity|].
  destruct (_ && truthy_opt currentTaskId); reflexivity.
Qed.



(** [sendMessage] of chat.ts decides the same way, given the generated id
    and [isNonTerminalState] as the design document describes it. *)
Lemma sendMessageIdentity_agrees (w : World)
    (replyTo currentState currentTask : option jsstring) (σ : State) :
  value (resolveTaskIdentity w replyTo currentTask currentState σ)
  = inr (Chat.sendMessageIdentity Doc.isNonTerminalState
           (w_uuid w (idCounter σ)) replyTo currentState currentTask).
Proof.
  rewrite resolveTaskIdentity_run.
  unfold Chat.sendMessageIdentity, Doc.isNonTerminalState.
  destruct (truthy_opt replyTo); [done|].
  destruct (_ && truthy_opt currentTask); [done|].
  by destruct (truthy_opt currentTask).
Qed.

(** C8 (as the code has it): a non-empty context id of length exactly 24 is
    right-padded with '0' to length 32 and a non-empty one of any other
    length is passed through unchanged, no id being drawn; so on non-empty
    strings the derivation is idempotent.  An empty or missing context id is
    replaced by a generated id. *)
Theorem deriveContextId_padding (w : World) (σ : State) :
  (forall contextId : jsstring,
      contextId <> [] ->
      let derived :=
        if bool_decide (length contextId = 24)
        then contextId ++ replicate 8 48%N else contextId in
      deriveContextId w (Some contextId) σ = mkRes [] (inr derived) σ
      /\ (length contextId = 24 -> length derived = 32)
      /\ deriveContextId w (Some derived) σ = mkRes [] (inr derived) σ)
  /\ deriveContextId w (Some []) σ = generateId w σ
  /\ deriveContextId w None σ = generateId w σ.
Proof.
  split; [|done]. intros contextId Hne derived.
  assert (Hpad : padContextId contextId = derived).
  { unfold padContextId, derived, padEnd. case_bool_decide as Hlen; [|done].
    by rewrite Hlen. }
  assert (Hlen : length contextId = 24 -> length derived = 32).
  { intros Hlen. unfold derived. rewrite bool_decide_eq_true_2 by done.
    rewrite length_app, length_replicate. lia. }
  assert (Hderived : derived <> []).
  { unfold derived. case_bool_decide; [|done]. by destruct contextId. }
  assert (Hfix : padContextId derived = derived).
  { unfold padContextId. case_bool_decide as H24; [|done].
    unfold derived in H24 |- *. case_bool_decide as Hc; [|done].
    rewrite length_app, length_replicate in H24. lia. }
  split; [|split; [done|]].
  - unfold deriveContextId. destruct contextId; [done|]. simpl truthy_opt.
    cbn [from_option id]. by rewrite Hpad.
  - unfold deriveContextId. destruct derived; [done|]. simpl truthy_opt.
    cbn [from_option id]. by rewrite Hfix.
Qed.

Lemma deriveContextId_padding_witness :
  deriveContextId (Sample.world_paid []) (Some (lit "65f0a1b2c3d4e5f6a7b8c9d0"))
                  Sample.state0
  = mkRes [] (inr (lit "65f0a1b2c3d4e5f6a7b8c9d000000000")) Sample.state0.
Proof.
  refine (proj1 (proj1 (deriveContextId_padding (Sample.world_paid [])
                          Sample.state0)
                   (lit "65f0a1b2c3d4e5f6a7b8c9d0") _)).
  discriminate.
Defined.

(** C8 (as stated) fails on the string of length 0: it is not passed through
    but replaced by a generated id. *)
Lemma deriveContextId_empty_replaced :
  value (deriveContextId (Sample.world_paid []) (Some []) Sample.state0)
  = inr (lit "id-0")
  /\ value (deriveContextId (Sample.world_paid []) (Some []) Sample.state0)
     <> inr [].
Proof. split; [reflexivity | discriminate]. Qed.

End IdentityClaims.

(** ** Send/Poll Engine *)

Section EngineFacts.

Import Engine.

Variable w : World.

Lemma bind_run {A B} (m : Gen A) (k : A -> Gen B) (σ σ' : State) (a : A)
    (t : list MessageUpdate) :
  m σ = mkRes t (inr a) σ' ->
  bind m k σ = mkRes (t ++ trace (k a σ')) (value (k a σ')) (final (k a σ')).
Proof. intros H. unfold bind. by rewrite H. Qed.

Lemma bind_throw {A B} (m : Gen A) (k : A -> Gen B) (σ σ' : State)
    (e : Thrown) (t : list MessageUpdate) :
  m σ = mkRes t (inl e) σ' -> bind m k σ = mkRes t (inl e) σ'.
Proof. intros H. unfold bind. by rewrite H. Qed.

Lemma res_eta {A} (r : Res A) : mkRes (trace r) (value r) (final r) = r.
Proof. by destruct r. Qed.

Lemma bind_silent {A B} (m : Gen A) (k : A -> Gen B) (σ σ' : State) (a : A) :
  m σ = mkRes [] (inr a) σ' -> bind m k σ = k a σ'.
Proof. intros H. rewrite (bind_run _ _ _ _ _ _ H). apply res_eta. Qed.

Lemma or_default_empty (s : jsstring) : or_default (Some s) [] = s.
Proof. by destruct s. Qed.

Section Poll.

Variable abortSignal : option (nat -> bool).
Variable headers : gmap jsstring jsstring.
Variable tid ctx : jsstring.
Variable refs : option (list jsstring).


(** One iteration of the loop, case by case. *)
Lemma pollIteration_run (attempt : nat) (σ : State) :
  pollIteration w abortSignal headers tid ctx refs attempt σ
  = if aborted abortSignal attempt
    then mkRes [] (inl (ErrorObj (lit "Request aborted"))) σ
    else
      match w_poll w attempt headers tid (w_uuid w (idCounter σ)) with
      | Rejects e => mkRes [] (inl e) (bump σ)
      | Responds response =>
          if resp_ok response then
            match resp_json response with
            | inl f => mkRes [] (inl (json_error f)) (bump σ)
            | inr envelope =>
                match rpc_error envelope with
                | Some message =>
                    mkRes [] (inl (ErrorObj (or_default message
                                               (lit "Task status error"))))
                          (bump σ)
                | None =>
                    match rpc_result envelope with
                    | None => mkRes [] (inl (ErrorObj (w_type_error w))) (bump σ)
                    | Some task => Doc.on_task tid ctx refs task (bump σ)
                    end
                end
            end
          else mkRes [] (inr Continue) (bump σ)
      end.
Proof.
  unfold pollIteration.
  destruct (aborted abortSignal attempt); [reflexivity|].
  unfold bind, generateId. cbn [value trace final].
  destruct (w_poll _ _ _ _ _) as [e|response]; [reflexivity|].
  cbn [await ret value trace final].
  destruct (resp_ok response); cbn [negb]; [|reflexivity].
  destruct (resp_json response) as [f|envelope]; [reflexivity|].
  destruct (rpc_error envelope) as [message|]; [reflexivity|].
  destruct (rpc_result envelope) as [task|]; [|reflexivity].
  unfold Doc.on_task. rewrite or_default_empty. cbn [yield value trace final].
  destruct (streq _ (lit "completed")) eqn:Hc; [reflexivity|].
  destruct (streq _ (lit "input-required")) eqn:Hi; [reflexivity|].
  cbn [orb].
  destruct (streq _ (lit "failed")) eqn:Hf; [reflexivity|].
  destruct (streq _ (lit "canceled")) eqn:Hx; reflexivity.
Qed.

Lemma pollLoop_step (fuel attempt : nat) (σ : State) :
  pollLoop w abortSignal headers tid ctx refs (S fuel) attempt σ
  = let r := pollIteration w abortSignal headers tid ctx refs attempt σ in
    match value r with
    | inl e => mkRes (trace r) (inl e) (final r)
    | inr Return => mkRes (trace r) (inr LoopReturned) (final r)
    | inr Continue =>
        let r' := pollLoop w abortSignal headers tid ctx refs fuel (S attempt) (final r) in
        mkRes (trace r ++ trace r') (value r') (final r')
    end.
Proof.
  cbn [pollLoop]. unfold bind at 1. cbv zeta.
  destruct (value _) as [e|[|]]; try reflexivity.
  cbn [ret trace value final]. by rewrite app_nil_r.
Qed.

(** How an iteration ends: without a snapshot it yields nothing and keeps
    the token; with one it does what [Doc.on_task] says. *)
Lemma pollIteration_cases (attempt : nat) (σ : State) :
  (trace (pollIteration w abortSignal headers tid ctx refs attempt σ) = []
   /\ paymentToken (final (pollIteration w abortSignal headers tid ctx refs attempt σ)) = paymentToken σ
   /\ value (pollIteration w abortSignal headers tid ctx refs attempt σ) <> inr Return)
  \/ exists task, pollIteration w abortSignal headers tid ctx refs attempt σ = Doc.on_task tid ctx refs task (bump σ).
Proof.
  rewrite pollIteration_run.
  repeat case_match; eauto; by left.
Qed.

Lemma last_polled_state_app (t t' : list MessageUpdate) :
  Doc.last_polled_state (t ++ t')
  = match Doc.last_polled_state t' with
    | Some st => Some st
    | None => Doc.last_polled_state t
    end.
Proof.
  induction t as [|u t IH]; simpl.
  - by destruct (Doc.last_polled_state t').
  - rewrite IH. by destruct (Doc.last_polled_state t').
Qed.

Lemma streq_true (s t : jsstring) : streq s t = true -> s = t.
Proof. apply bool_decide_eq_true_1. Qed.

(** The token after the loop, from the last state it polled. *)
Lemma pollLoop_token (fuel attempt : nat) (σ : State) :
  paymentToken (final (pollLoop w abortSignal headers tid ctx refs fuel attempt σ))
  = if Doc.drops_token (Doc.last_polled_state (trace (pollLoop w abortSignal headers tid ctx refs fuel attempt σ)))
    then None else paymentToken σ.
Proof.
  revert attempt σ. induction fuel as [|fuel IH]; intros attempt σ; [done|].
  rewrite pollLoop_step. cbv zeta.
  destruct (pollIteration_cases attempt σ) as [(Ht & Hf & Hv)|[task Htask]].
  - destruct (value (pollIteration w abortSignal headers tid ctx refs attempt σ)) as [e|[|]] eqn:E;
      cbn [trace final]; rewrite ?Ht; [by rewrite Hf| |done].
    rewrite app_nil_l, IH. by rewrite Hf.
  - rewrite Htask. unfold Doc.on_task. cbv zeta.
    destruct (streq _ (lit "completed")) eqn:Hc.
    { cbn [trace value final Doc.last_polled_state Doc.drops_token].
      by rewrite Hc. }
    destruct (streq _ (lit "input-required")) eqn:Hi.
    { cbn [trace value final Doc.last_polled_state Doc.drops_token].
      by rewrite Hc, (streq_true _ _ Hi). }
    destruct (streq _ (lit "failed")) eqn:Hfl.
    { cbn [trace value final Doc.last_polled_state Doc.drops_token].
      by rewrite Hfl, orb_true_r. }
    destruct (streq _ (lit "canceled")) eqn:Hx.
    { cbn [trace value final Doc.last_polled_state Doc.drops_token].
      by rewrite Hx, orb_true_r. }
    cbn [trace value final]. rewrite IH, last_polled_state_app.
    destruct (Doc.last_polled_state (trace (pollLoop w abortSignal headers tid ctx refs _ _ _))); [done|].
    cbn [Doc.last_polled_state Doc.drops_token]. by rewrite Hc, Hfl, Hx.
Qed.

(** A loop that returns ends with the one final answer and the finished
    status. *)
Lemma pollLoop_returned (fuel attempt : nat) (σ : State) :
  value (pollLoop w abortSignal headers tid ctx refs fuel attempt σ) = inr LoopReturned ->
  exists mid st task,
    trace (pollLoop w abortSignal headers tid ctx refs fuel attempt σ)
    = mid ++ [TaskMetadata tid ctx st refs;
              FinalAnswer (Extractor.extractTextFromTask task) false;
              Status Finished None]
    /\ Forall (fun u => is_final_answer u = false) mid
    /\ st = status_state (task_status task)
    /\ (st = lit "completed" \/ st = lit "input-required").
Proof.
  revert attempt σ. induction fuel as [|fuel IH]; intros attempt σ; [done|].
  rewrite pollLoop_step. cbv zeta.
  destruct (pollIteration_cases attempt σ) as [(Ht & Hf & Hv)|[task Htask]].
  - destruct (value (pollIteration w abortSignal headers tid ctx refs attempt σ)) as [e|[|]] eqn:E;
      cbn [trace value final]; [| |done]; [done|].
    rewrite Ht, app_nil_l. apply IH.
  - rewrite Htask. unfold Doc.on_task. cbv zeta.
    destruct (streq _ (lit "completed")) eqn:Hc.
    { intros _. exists [], (status_state (task_status task)), task.
      apply streq_true in Hc. cbn. auto. }
    destruct (streq _ (lit "input-required")) eqn:Hi.
    { intros _. exists [], (status_state (task_status task)), task.
      apply streq_true in Hi. cbn. auto. }
    destruct (streq _ (lit "failed")) eqn:Hfl; [done|].
    destruct (streq _ (lit "canceled")) eqn:Hx; [done|].
    cbn [trace value final]. intros Hv.
    destruct (IH _ _ Hv) as (mid & st & task' & Htr & Hmid & Hst & Hor).
    exists (TaskMetadata tid ctx (status_state (task_status task)) refs :: mid),
           st, task'.
    rewrite Htr. split; [done|]. split; [|done].
    by constructor.
Qed.

End Poll.

Lemma trace_bind {A B} (m : Gen A) (k : A -> Gen B) (σ : State) :
  trace (bind m k σ)
  = trace (m σ) ++ match value (m σ) with
                   | inr a => trace (k a (final (m σ)))
                   | inl _ => []
                   end.
Proof. unfold bind. destruct (value (m σ)); [|done]. by rewrite app_nil_r. Qed.

Lemma value_bind {A B} (m : Gen A) (k : A -> Gen B) (σ : State) :
  value (bind m k σ)
  = match value (m σ) with
    | inr a => value (k a (final (m σ)))
    | inl e => inl e
    end.
Proof. unfold bind. by destruct (value (m σ)). Qed.

Lemma sendWithPayment_trace (headers : gmap jsstring jsstring)
    (agentMessage : AgentMessage) (requestId : jsstring) (σ : State) :
  trace (sendWithPayment w headers agentMessage requestId σ) = [].
Proof.
  unfold sendWithPayment, bind, call, await.
  destruct (w_send w 0 _ _ _) as [e|response]; [done|].
  cbn [ret value trace final]. destruct (_ =? _)%N.
  - destruct (Payment.handlePaymentRequired w σ) as [[[|] notices] σ'];
      cbn [value trace final]; [|done].
    destruct (Payment.getPaymentHeaders σ') as [payment σ''].
    cbn [value trace final].
    destruct (w_send w 1 _ _ _) as [e|response']; [done|].
    cbn [ret value trace final]. destruct (negb (resp_ok response')); [done|].
    by destruct (Payment.getPaymentHeaders σ'').
  - by destruct (negb (resp_ok response)).
Qed.

Lemma readTask_trace (response : Response RpcEnvelope) (σ : State) :
  trace (readTask response σ) = [].
Proof. unfold readTask. by repeat case_match. Qed.

(** A successful [try] block: the initial metadata, then a poll loop that
    returned. *)
Lemma sendAndPoll_returned (abortSignal : option (nat -> bool))
    (headers : gmap jsstring jsstring) (agentMessage : AgentMessage)
    (newContextId requestId : jsstring) (σ : State) :
  value (sendAndPoll w abortSignal headers agentMessage newContextId requestId σ)
  = inr tt ->
  exists mid text,
    trace (sendAndPoll w abortSignal headers agentMessage newContextId
                       requestId σ)
    = mid ++ [FinalAnswer text false; Status Finished None]
    /\ Forall (fun u => is_final_answer u = false) mid.
Proof.
  unfold sendAndPoll. rewrite trace_bind, value_bind, sendWithPayment_trace.
  destruct (value (sendWithPayment _ _ _ _ _)) as [e|sent]; [done|].
  rewrite trace_bind, value_bind, readTask_trace.
  destruct (value (readTask _ _)) as [e|task]; [done|].
  rewrite trace_bind, value_bind. cbn [yield trace value final].
  rewrite trace_bind, value_bind.
  destruct (value (pollLoop _ _ _ _ _ _ _ _ _)) as [e|[|]] eqn:Hloop;
    [done| |done].
  intros _.
  destruct (pollLoop_returned _ _ _ _ _ _ _ _ Hloop)
    as (mid & st & task' & Htr & Hmid & _).
  exists (TaskMetadata (task_id task) newContextId
            (status_state (task_status task))
            (am_referenceTaskIds agentMessage)
          :: mid ++ [TaskMetadata (task_id task) newContextId st
                                  (am_referenceTaskIds agentMessage)]),
         (Extractor.extractTextFromTask task').
  rewrite Htr. cbn [ret trace app]. rewrite app_nil_r, <- app_assoc.
  split; [reflexivity|].
  constructor; [done|]. apply Forall_app. split; [done|]. by constructor.
Qed.

Lemma buildHeaders_silent (σ : State) :
  exists headers σ', buildHeaders w σ = mkRes [] (inr headers) σ'.
Proof.
  unfold buildHeaders, bind, call.
  destruct (Payment.getPaymentHeaders σ) as [payment σ'].
  eexists _, _. reflexivity.
Qed.

Lemma resolveTaskIdentity_silent
    (replyToTaskId currentTaskId taskState : option jsstring) (σ : State) :
  exists identity σ',
    resolveTaskIdentity w replyToTaskId currentTaskId taskState σ
    = mkRes [] (inr identity) σ'.
Proof.
  rewrite resolveTaskIdentity_run. repeat case_match; eexists _, _; reflexivity.
Qed.

Lemma deriveContextId_silent (contextId : option jsstring) (σ : State) :
  exists newContextId σ',
    deriveContextId w contextId σ = mkRes [] (inr newContextId) σ'.
Proof.
  unfold deriveContextId.
  destruct (truthy_opt contextId); eexists _, _; reflexivity.
Qed.

(** The prologue neither yields nor throws: an invocation is [Started]
    followed by the guarded [try] block, run in some state. *)
Lemma sendAgentMessage_run (message : jsstring) (contextId : option jsstring)
    (abortSignal : option (nat -> bool))
    (currentTaskId taskState replyToTaskId : option jsstring) (σ : State) :
  exists headers agentMessage newContextId requestId σ1,
    let r := try_catch (sendAndPoll w abortSignal headers agentMessage
                                    newContextId requestId)
                       reportError σ1 in
    sendAgentMessage w message contextId abortSignal currentTaskId taskState
                     replyToTaskId σ
    = mkRes (Status Started None :: trace r) (value r) (final r).
Proof.
  unfold sendAgentMessage.
  destruct (buildHeaders_silent σ) as (headers & σa & Hh).
  rewrite (bind_silent _ _ _ _ _ Hh).
  rewrite (bind_silent _ _ _ _ _ (generateId_run w σa)).
  destruct (resolveTaskIdentity_silent replyToTaskId currentTaskId taskState
              (bump σa)) as (identity & σb & Hi).
  rewrite (bind_silent _ _ _ _ _ Hi).
  destruct (deriveContextId_silent contextId σb) as (newContextId & σc & Hc).
  rewrite (bind_silent _ _ _ _ _ Hc).
  rewrite (bind_run _ _ σc σc tt [Status Started None]) by reflexivity.
  rewrite (bind_silent _ _ _ _ _ (generateId_run w σc)).
  eexists _, _, _, _, _. reflexivity.
Qed.

Lemma try_catch_reportError (m : Gen unit) (σ : State) :
  try_catch m reportError σ
  = match value (m σ) with
    | inl e =>
        mkRes (trace (m σ) ++ [Status Error (Some (error_message e))])
              (inl e) (final (m σ))
    | inr _ => m σ
    end.
Proof. unfold try_catch. by destruct (value (m σ)). Qed.

End EngineFacts.

Section EngineClaims.

Import Engine.

Lemma count_final_answer (mid : list MessageUpdate) (text : jsstring) :
  Forall (fun u => is_final_answer u = false) mid ->
  length (List.filter is_final_answer
            (Status Started None :: mid
             ++ [FinalAnswer text false; Status Finished None])) = 1.
Proof.
  intros Hmid. cbn [List.filter is_final_answer].
  rewrite List.filter_app. cbn [List.filter is_final_answer].
  replace (List.filter is_final_answer mid) with (@nil MessageUpdate); [done|].
  induction Hmid as [|u mid Hu _ IH]; [done|].
  cbn [List.filter]. by rewrite Hu.
Qed.

(** C1: an invocation of [sendAgentMessage] that completes without raising
    yields [Status{started}] first, exactly one [FinalAnswer], and that
    [FinalAnswer] is immediately followed by [Status{finished}], which is
    the last update. *)
Theorem sendAgentMessage_success (w : World) (message : jsstring)
    (contextId : option jsstring) (abortSignal : option (nat -> bool))
    (currentTaskId taskState replyToTaskId : option jsstring) (σ : State) :
  let r := sendAgentMessage w message contextId abortSignal currentTaskId
                            taskState replyToTaskId σ in
  value r = inr tt ->
  (exists mid text,
      trace r = Status Started None :: mid
                ++ [FinalAnswer text false; Status Finished None]
      /\ Forall (fun u => is_final_answer u = false) mid)
  /\ length (List.filter is_final_answer (trace r)) = 1.
Proof.
  intros r. subst r.
  destruct (sendAgentMessage_run w message contextId abortSignal currentTaskId
              taskState replyToTaskId σ)
    as (headers & agentMessage & newContextId & requestId & σ1 & ->).
  cbv zeta. rewrite try_catch_reportError. cbn [trace value].
  destruct (value (sendAndPoll _ _ _ _ _ _ _)) as [e|[]] eqn:Hv; [done|].
  intros _.
  destruct (sendAndPoll_returned _ _ _ _ _ _ _ Hv) as (mid & text & -> & Hmid).
  split; [by exists mid, text|]. by apply count_final_answer.
Qed.

Lemma sendAgentMessage_success_witness :
  trace (Sample.run (Sample.world_agent Sample.poll_happy))
  = [Status Started None;
     TaskMetadata (lit "task-1") (lit "ctx-1") (lit "submitted") None;
     TaskMetadata (lit "task-1") (lit "ctx-1") (lit "submitted") None;
     TaskMetadata (lit "task-1") (lit "ctx-1") (lit "working") None;
     TaskMetadata (lit "task-1") (lit "ctx-1") (lit "completed") None;
     FinalAnswer (lit "final") false;
     Status Finished None]
  /\ length (List.filter is_final_answer
               (trace (Sample.run (Sample.world_agent Sample.poll_happy)))) = 1.
Proof.
  split; [vm_compute; reflexivity|].
  refine (proj2 (sendAgentMessage_success
                   (Sample.world_agent Sample.poll_happy) (lit "hello")
                   (Some (lit "ctx-1")) None None None None
                   (mkState (Some (lit "tok")) 0) _)).
  vm_compute. reflexivity.
Defined.

(** C4: when an invocation of [sendAgentMessage] fails, whatever the
    failure, the last update yielded before the error reaches the caller is
    [Status{error}] carrying the message of the error. *)
Theorem sendAgentMessage_failure (w : World) (message : jsstring)
    (contextId : option jsstring) (abortSignal : option (nat -> bool))
    (currentTaskId taskState replyToTaskId : option jsstring) (σ : State)
    (error : Thrown) :
  let r := sendAgentMessage w message contextId abortSignal currentTaskId
                            taskState replyToTaskId σ in
  value r = inl error ->
  exists before,
    trace r = Status Started None :: before
              ++ [Status Error (Some (error_message error))].
Proof.
  intros r. subst r.
  destruct (sendAgentMessage_run w message contextId abortSignal currentTaskId
              taskState replyToTaskId σ)
    as (headers & agentMessage & newContextId & requestId & σ1 & ->).
  cbv zeta. rewrite try_catch_reportError.
  destruct (value (sendAndPoll _ _ _ _ _ _ _)) as [e|[]] eqn:Hv;
    cbn [trace value].
  - intros [= ->]. by eexists.
  - by rewrite Hv.
Qed.

Lemma sendAgentMessage_failure_witness :
  exists before,
    trace (Sample.run (Sample.world_agent Sample.poll_flaky))
    = Status Started None :: before
      ++ [Status Error (Some (lit "Failed to fetch"))].
Proof.
  refine (sendAgentMessage_failure
            (Sample.world_agent Sample.poll_flaky) (lit "hello")
            (Some (lit "ctx-1")) None None None None
            (mkState (Some (lit "tok")) 0)
            (ErrorObj (lit "Failed to fetch")) _).
  vm_compute. reflexivity.
Defined.

End EngineClaims.

Section Erasure.

Lemma erase_bind {A B} (m : Resumable.Co A) (k : A -> Resumable.Co B)
    (m' : Gen A) (k' : A -> Gen B) (σ : State) :
  Resumable.erase (m σ) = m' σ ->
  (forall a σ', Resumable.erase (k a σ') = k' a σ') ->
  Resumable.erase (Resumable.bind m k σ) = bind m' k' σ.
Proof.
  intros Hm Hk. unfold Resumable.bind, bind. rewrite <- Hm.
  cbn [Resumable.erase value trace final].
  destruct (Resumable.outcome (m σ)) as [e|a]; [reflexivity|].
  rewrite <- Hk. unfold Resumable.erase.
  cbn [Resumable.steps Resumable.outcome Resumable.rest trace value final].
  by rewrite map_app.
Qed.

Lemma erase_quiet {A} (m : Gen A) (σ : State) :
  trace (m σ) = [] -> Resumable.erase (Resumable.quiet m σ) = m σ.
Proof.
  intros Ht. unfold Resumable.erase, Resumable.quiet.
  cbn [Resumable.steps Resumable.outcome Resumable.rest map].
  rewrite <- Ht. apply res_eta.
Qed.

Lemma erase_try_catch {A} (m : Resumable.Co A) (h : Thrown -> Resumable.Co A)
    (m' : Gen A) (h' : Thrown -> Gen A) (σ : State) :
  Resumable.erase (m σ) = m' σ ->
  (forall e σ', Resumable.erase (h e σ') = h' e σ') ->
  Resumable.erase (Resumable.try_catch m h σ) = try_catch m' h' σ.
Proof.
  intros Hm Hh. unfold Resumable.try_catch, try_catch. rewrite <- Hm.
  cbn [Resumable.erase value trace final].
  destruct (Resumable.outcome (m σ)) as [e|a]; [|reflexivity].
  rewrite <- Hh. unfold Resumable.erase.
  cbn [Resumable.steps Resumable.outcome Resumable.rest trace value final].
  by rewrite map_app.
Qed.

End Erasure.

Section ResumableFacts.

Import Engine.

Variable w : World.

Section Poll.

Variable abortSignal : option (nat -> bool).
Variable headers : gmap jsstring jsstring.
Variable tid ctx : jsstring.
Variable refs : option (list jsstring).

(** Driven to its end, the resumable iteration is the iteration of
    [Engine]. *)
Lemma erase_pollIteration (attempt : nat) (σ : State) :
  Resumable.erase
    (Resumable.pollIteration w abortSignal headers tid ctx refs attempt σ)
  = pollIteration w abortSignal headers tid ctx refs attempt σ.
Proof.
  unfold Resumable.pollIteration, pollIteration.
  destruct (aborted abortSignal attempt); [reflexivity|].
  apply erase_bind; [by apply erase_quiet|]. intros requestId σ1.
  apply erase_bind; [apply erase_quiet; by destruct (w_poll _ _ _ _ _)|].
  intros response σ2.
  destruct (negb (resp_ok response)); [reflexivity|].
  destruct (resp_json response) as [f|envelope]; [reflexivity|].
  destruct (rpc_error envelope) as [message|]; [reflexivity|].
  destruct (rpc_result envelope) as [task|]; [|reflexivity].
  cbv zeta. apply erase_bind; [reflexivity|]. intros _ σ3.
  destruct (_ || _).
  - apply erase_bind; [reflexivity|]. intros _ σ4.
    apply erase_bind; [reflexivity|]. intros _ σ5.
    apply erase_bind; [|reflexivity].
    destruct (streq _ _); [by apply erase_quiet|reflexivity].
  - destruct (streq _ (lit "failed")).
    { apply erase_bind; [by apply erase_quiet|reflexivity]. }
    destruct (streq _ (lit "canceled")); [|reflexivity].
    apply erase_bind; [by apply erase_quiet|reflexivity].
Qed.

Lemma erase_pollLoop (fuel attempt : nat) (σ : State) :
  Resumable.erase
    (Resumable.pollLoop w abortSignal headers tid ctx refs fuel attempt σ)
  = pollLoop w abortSignal headers tid ctx refs fuel attempt σ.
Proof.
  revert attempt σ. induction fuel as [|fuel IH]; intros attempt σ;
    [reflexivity|].
  cbn [Resumable.pollLoop pollLoop].
  apply erase_bind; [apply erase_pollIteration|].
  intros [|] σ'; [apply IH|reflexivity].
Qed.

End Poll.

Lemma erase_sendAndPoll (abortSignal : option (nat -> bool))
    (headers : gmap jsstring jsstring) (agentMessage : AgentMessage)
    (newContextId requestId : jsstring) (σ : State) :
  Resumable.erase
    (Resumable.sendAndPoll w abortSignal headers agentMessage newContextId
                           requestId σ)
  = sendAndPoll w abortSignal headers agentMessage newContextId requestId σ.
Proof.
  unfold Resumable.sendAndPoll, sendAndPoll.
  apply erase_bind; [apply erase_quiet, sendWithPayment_trace|].
  intros sent σ1.
  apply erase_bind; [apply erase_quiet, readTask_trace|]. intros task σ2.
  cbv zeta. apply erase_bind; [reflexivity|]. intros _ σ3.
  apply erase_bind; [apply erase_pollLoop|]. by intros [|] σ4.
Qed.

Lemma erase_sendAgentMessage (message : jsstring)
    (contextId : option jsstring) (abortSignal : option (nat -> bool))
    (currentTaskId taskState replyToTaskId : option jsstring) (σ : State) :
  Resumable.erase
    (Resumable.sendAgentMessage w message contextId abortSignal currentTaskId
                                taskState replyToTaskId σ)
  = sendAgentMessage w message contextId abortSignal currentTaskId taskState
                     replyToTaskId σ.
Proof.
  unfold Resumable.sendAgentMessage, sendAgentMessage.
  apply erase_bind.
  { apply erase_quiet.
    destruct (buildHeaders_silent w σ) as (headers & σ' & ->). reflexivity. }
  intros headers σ1. apply erase_bind; [by apply erase_quiet|].
  intros messageId σ2. apply erase_bind.
  { apply erase_quiet.
    destruct (resolveTaskIdentity_silent w replyToTaskId currentTaskId
                taskState σ2) as (identity & σ' & ->). reflexivity. }
  intros identity σ3. apply erase_bind.
  { apply erase_quiet.
    destruct (deriveContextId_silent w contextId σ3) as (c & σ' & ->).
    reflexivity. }
  intros newContextId σ4. cbv zeta.
  apply erase_bind; [reflexivity|]. intros _ σ5.
  apply erase_bind; [by apply erase_quiet|]. intros requestId σ6.
  apply erase_try_catch; [apply erase_sendAndPoll|]. intros e σ7.
  unfold Resumable.reportError, reportError.
  apply erase_bind; reflexivity.
Qed.

End ResumableFacts.

Section PollToken.

Import Engine.

Variable w : World.
Variable abortSignal : option (nat -> bool).
Variable headers : gmap jsstring jsstring.
Variable tid ctx : jsstring.
Variable refs : option (list jsstring).






End PollToken.

Section PollClaims.

Import Engine.

Variable w : World.
Variable abortSignal : option (nat -> bool).
Variable headers : gmap jsstring jsstring.
Variable tid ctx : jsstring.
Variable refs : option (list jsstring).


(** C5 (as the code has it): in the poll loop a fetch of the task snapshot
    that comes back with a non-success HTTP status is swallowed: nothing is
    yielded and the loop goes on with the next attempt.  A fetch that fails
    at transport level is not swallowed: the loop ends there with that
    error thrown.  A transport failure of the initial send is thrown as
    well. *)
Theorem pollLoop_fetch_failure (fuel attempt : nat) (σ : State) :
  (forall response,
      aborted abortSignal attempt = false ->
      w_poll w attempt headers tid (w_uuid w (idCounter σ)) = Responds response ->
      resp_ok response = false ->
      pollLoop w abortSignal headers tid ctx refs (S fuel) attempt σ
      = pollLoop w abortSignal headers tid ctx refs fuel (S attempt) (bump σ))
  /\ (forall e,
         aborted abortSignal attempt = false ->
         w_poll w attempt headers tid (w_uuid w (idCounter σ)) = Rejects e ->
         pollLoop w abortSignal headers tid ctx refs (S fuel) attempt σ
         = mkRes [] (inl e) (bump σ))
  /\ (forall e agentMessage requestId,
         w_send w 0 headers agentMessage requestId = Rejects e ->
         sendWithPayment w headers agentMessage requestId σ
         = mkRes [] (inl e) σ).
Proof.
  split; [|split].
  - intros response Ha Hr Hok. rewrite pollLoop_step, pollIteration_run.
    rewrite Ha, Hr, Hok. cbn [trace value final app]. apply res_eta.
  - intros e Ha Hr. rewrite pollLoop_step, pollIteration_run.
    by rewrite Ha, Hr.
  - intros e agentMessage requestId Hr. unfold sendWithPayment.
    rewrite Hr. reflexivity.
Qed.

End PollClaims.



Lemma pollLoop_fetch_failure_witness :
  Engine.pollLoop (Sample.world_agent Sample.poll_503) None ∅
    (lit "task-1") (lit "ctx-1") None 300 0 (mkState (Some (lit "tok")) 0)
  = Engine.pollLoop (Sample.world_agent Sample.poll_503) None ∅
      (lit "task-1") (lit "ctx-1") None 299 1 (mkState (Some (lit "tok")) 1).
Proof.
  refine (proj1 (pollLoop_fetch_failure
                   (Sample.world_agent Sample.poll_503) None ∅
                   (lit "task-1") (lit "ctx-1") None 299 0
                   (mkState (Some (lit "tok")) 0)) _ _ _ _);
    reflexivity.
Defined.

(** C5 (as stated) fails: the first poll fails at transport level and every
    later poll would find the task completed, yet the loop does not go on
    to a next iteration; the invocation ends with that error and without a
    final answer. *)
Lemma pollLoop_transport_failure_fatal :
  Sample.poll_flaky 1 = Sample.snapshot "completed"
  /\ Engine.pollLoop (Sample.world_agent Sample.poll_flaky) None ∅
       (lit "task-1") (lit "ctx-1") None 300 0 (mkState None 0)
     = mkRes [] (inl (ErrorObj (lit "Failed to fetch"))) (mkState None 1)
  /\ Sample.run (Sample.world_agent Sample.poll_flaky)
     = mkRes [Status Started None;
              TaskMetadata (lit "task-1") (lit "ctx-1") (lit "submitted") None;
              Status Error (Some (lit "Failed to fetch"))]
             (inl (ErrorObj (lit "Failed to fetch")))
             (mkState (Some (lit "tok")) 4).
Proof. repeat split; vm_compute; reflexivity. Qed.

(** ** Context preview (chat.ts) *)

Section PreviewClaims.

Lemma previewFromHistory_find (history : list HistoryMessage)
    (firstMessage : jsstring) :
  Chat.previewFromHistory history firstMessage
  = default firstMessage (Doc.first_user_text history).
Proof.
  induction history as [|msg history IH]; [done|].
  unfold Doc.first_user_text in *. cbn [Chat.previewFromHistory List.find].
  unfold Doc.says_text at 1.
  destruct (streq (msg_role msg) (lit "user")); [|exact IH].
  destruct (Chat.textParts msg) as [|first others] eqn:Hparts.
  - exact IH.
  - cbn [andb]. rewrite bool_decide_eq_true_2 by done.
    cbn [mbind option_bind]. by rewrite Hparts.
Qed.

Lemma first_user_text_length (history : list HistoryMessage) (text : jsstring) :
  Doc.first_user_text history = Some text -> length text <= 50.
Proof.
  unfold Doc.first_user_text. intros H.
  destruct (List.find _ _) as [msg|]; [|done]. cbn [mbind option_bind] in H.
  destruct (head _) as [first|]; [|done]. cbn [mbind option_bind] in H.
  assert (Heq : substring0 50 first = text) by congruence.
  rewrite <- Heq. unfold substring0. rewrite length_take. lia.
Qed.

(** C9 (as the code has it): for a context with at least one task, the
    preview title is taken from the task listed first in the context's task
    ids, whatever the timestamps: it is the first text-kind part of the
    first user-role message of that task's history that has a text-kind
    part, cut to 50 code units; when that task cannot be loaded or has no
    such message, the title stays "Loading...".  It never exceeds 50 code
    units. *)
Theorem loadPreview_first_listed (getTask : jsstring -> option Chat.Task)
    (first : jsstring) (rest : list jsstring) :
  Chat.loadPreview getTask (first :: rest)
  = match getTask first with
    | Some task =>
        default (lit "Loading...")
                (Doc.first_user_text (default [] (Chat.chat_history task)))
    | None => lit "Loading..."
    end
  /\ length (Chat.loadPreview getTask (first :: rest)) <= 50.
Proof.
  assert (H : Chat.loadPreview getTask (first :: rest)
              = match getTask first with
                | Some task =>
                    default (lit "Loading...")
                      (Doc.first_user_text (default [] (Chat.chat_history task)))
                | None => lit "Loading..."
                end).
  { unfold Chat.loadPreview. destruct (getTask first) as [task|]; [|done].
    apply previewFromHistory_find. }
  split; [exact H|]. rewrite H.
  destruct (getTask first) as [task|]; [|cbn; lia].
  destruct (Doc.first_user_text _) as [text|] eqn:Htext; [|cbn; lia].
  by apply first_user_text_length in Htext.
Qed.

(** C9 (as stated) fails: with the later task listed first, the title is
    the later task's question, not that of the earliest task by
    timestamp. *)
Lemma loadPreview_ignores_timestamps :
  Doc.preview_literal Sample.getTask2 Sample.taskIds2
  = Some (lit "first question")
  /\ Chat.loadPreview Sample.getTask2 Sample.taskIds2 = lit "second question"
  /\ Some (Chat.loadPreview Sample.getTask2 Sample.taskIds2)
     <> Doc.preview_literal Sample.getTask2 Sample.taskIds2.
Proof. split; [|split]; [reflexivity | reflexivity | discriminate]. Qed.

End PreviewClaims.

(** ** Scenarios of the design document *)

Section Scenarios.

(** 300 polls that all find the task working: the operation fails with the
    timeout error, and no final answer is yielded. *)
Example scenario_timeout :
  let r := Sample.run (Sample.world_agent Sample.poll_working) in
  value r = inl (ErrorObj (lit "Task polling timeout"))
  /\ List.filter is_final_answer (trace r) = []
  /\ last (trace r) = Some (Status Error (Some (lit "Task polling timeout")))
  /\ length (trace r) = 303.
Proof. vm_compute. auto. Qed.

(** The abort signal fires between attempts 5 and 6: five snapshots are
    reported, then the operation fails with the abort error. *)
Example scenario_abort :
  let r := Engine.sendAgentMessage (Sample.world_agent Sample.poll_working)
             (lit "hello") (Some (lit "ctx-1")) (Some Sample.abort_after_5)
             None None None Sample.state0 in
  value r = inl (ErrorObj (lit "Request aborted"))
  /\ length (trace r) = 1 + 1 + 5 + 1
  /\ idCounter (final r) = 3 + 5.
Proof. vm_compute. auto. Qed.

(** HTTP 402 on the send, a payment session that completes with "tok123",
    and a retried send that succeeds: the polls carry the token, the task
    completes, and the token is cleared at the end. *)
Example scenario_payment :
  Engine.sendAgentMessage Sample.world_402 (lit "hello") (Some (lit "ctx-1"))
    None None None None Sample.state0
  = mkRes [Status Started None;
           TaskMetadata (lit "task-1") (lit "ctx-1") (lit "submitted") None;
           TaskMetadata (lit "task-1") (lit "ctx-1") (lit "completed") None;
           FinalAnswer (lit "final") false;
           Status Finished None]
          (inr tt) (mkState None 4).
Proof. vm_compute. reflexivity. Qed.

End Scenarios.

(** * Further properties *)

(** ** Payment handler: outcome, token and notices *)

Section PaymentMore.

Import Payment.

Variable w : World.

Lemma pollPayment_outcome (sid : jsstring) (fuel n : nat) (σ : State) :
  match pollPayment w sid fuel n σ with
  | (inr true, notices, σ') =>
      notices = [NApproved]
      /\ exists k r d tok,
          n < k <= n + fuel
          /\ w_payment_status w k sid = Responds r
          /\ resp_json r = inr d /\ pay_token d = Some tok /\ tok <> []
          /\ σ' = set_token (Some tok) σ
  | (_, notices, σ') =>
      σ' = σ /\ Forall (fun x => x <> NApproved) notices
  end.
Proof.
  revert n. induction fuel as [|fuel IH]; intros n.
  { simpl. split; [done|]. by repeat constructor. }
  cbn [pollPayment].
  destruct (w_payment_status w (S n) sid) as [e|r] eqn:Hr; [by split|].
  destruct (resp_ok r) eqn:Hok; cbn [negb].
  2:{ specialize (IH (S n)). destruct (pollPayment w sid fuel (S n) σ)
        as [[[e|[|]] notices] σ']; try done.
      destruct IH as (Hn & k & r' & d & tok & Hk & H). split; [done|].
      exists k, r', d, tok. split; [lia|done]. }
  destruct (resp_json r) as [f|d] eqn:Hd; [by split|].
  destruct (streq (pay_status d) (lit "completed") && truthy_opt (pay_token d))
    eqn:Hc.
  { apply andb_prop in Hc as [_ Htok].
    destruct (pay_token d) as [tok|] eqn:Ht; [|done].
    split; [done|]. exists (S n), r, d, tok.
    repeat split; try done; try lia. by destruct tok. }
  destruct (streq (pay_status d) (lit "failed")).
  { split; [done|]. by repeat constructor. }
  specialize (IH (S n)). destruct (pollPayment w sid fuel (S n) σ)
    as [[[e|[|]] notices] σ']; try done.
  destruct IH as (Hn & k & r' & d' & tok & Hk & H). split; [done|].
  exists k, r', d', tok. split; [lia|done].
Qed.

(** X1: [handlePaymentRequired] changes the payment token only when it
    returns [true], and then to a non-empty token that one of the first 60
    status polls delivered; when it returns [false] the state is untouched. *)
Theorem handlePaymentRequired_token (σ : State) :
  match handlePaymentRequired w σ with
  | (true, _, σ') =>
      exists k r d tok,
        1 <= k <= 60
        /\ (exists sid, w_payment_status w k sid = Responds r)
        /\ resp_json r = inr d /\ pay_token d = Some tok /\ tok <> []
        /\ σ' = set_token (Some tok) σ
        /\ hasPaymentToken σ' = true
  | (false, _, σ') => σ' = σ
  end.
Proof.
  unfold handlePaymentRequired, paymentAttempt.
  destruct (w_start_session w) as [e|s]; [done|].
  destruct (resp_ok s); cbn [negb]; [|done].
  destruct (resp_json s) as [f|sd]; [done|].
  destruct (w_window_open w _); cbn [negb]; [|done].
  pose proof (pollPayment_outcome (session_id sd) maxAttempts 0 σ) as H.
  destruct (pollPayment w (session_id sd) maxAttempts 0 σ)
    as [[[e|[|]] notices] σ']; try by destruct H.
  destruct H as (_ & k & r & d & tok & Hk & Hr & Hd & Ht & Hne & ->).
  exists k, r, d, tok. unfold maxAttempts in Hk.
  repeat split; try done; try lia; [by exists (session_id sd)|].
  unfold hasPaymentToken. cbn. apply bool_decide_eq_true_2.
  destruct tok; [done|cbn; lia].
Qed.

(** X2: the notices handed to the status callback tell the outcome: the
    first is always the start notice, exactly the last one is a closing
    notice, and it is the approval notice exactly when the handler returns
    [true]. *)
Theorem handlePaymentRequired_notices (σ : State) :
  let '(ok, notices, _) := handlePaymentRequired w σ in
  exists middle closing,
    notices = NStarting :: middle ++ [closing]
    /\ Forall (fun x => Obs.closing_notice x = false) middle
    /\ Obs.closing_notice closing = true
    /\ (ok = true <-> closing = NApproved).
Proof.
  unfold handlePaymentRequired, paymentAttempt.
  destruct (w_start_session w) as [e|s].
  { exists [], (NError (error_message e)). by repeat split. }
  destruct (resp_ok s); cbn [negb].
  2:{ eexists [], (NError _). by repeat split. }
  destruct (resp_json s) as [f|sd].
  { eexists [], (NError _). by repeat split. }
  destruct (w_window_open w _); cbn [negb].
  2:{ exists [NOpening], NPopupBlocked. repeat split; try done.
      by repeat constructor. }
  generalize (session_id sd) 0. generalize maxAttempts.
  intros fuel sid n.
  assert (H : match pollPayment w sid fuel n σ with
              | (inr b, notices, _) =>
                  exists closing, notices = [closing]
                    /\ Obs.closing_notice closing = true
                    /\ (b = true <-> closing = NApproved)
              | (inl _, notices, _) => notices = []
              end).
  { revert n. induction fuel as [|fuel IH]; intros n.
    - exists NTimeout. by repeat split.
    - cbn [pollPayment].
      destruct (w_payment_status w (S n) sid) as [e|r]; [done|].
      destruct (resp_ok r); cbn [negb]; [|apply IH].
      destruct (resp_json r) as [f|d]; [done|].
      destruct (_ && _).
      { exists NApproved. by repeat split. }
      destruct (streq _ _); [|apply IH].
      eexists (NFailed _). by repeat split. }
  destruct (pollPayment w sid fuel n σ) as [[[e|b] notices] σ'].
  - subst notices. exists [NOpening; NWaiting], (NError (error_message e)).
    repeat split; try done. by repeat constructor.
  - destruct H as (closing & -> & Hc & Hb).
    exists [NOpening; NWaiting], closing.
    repeat split; try done; try apply Hb. by repeat constructor.
Qed.

(** X3: the wait for a payment is bounded: when the session starts, the
    popup opens and the first 60 status polls are all pending, the handler
    gives up with the timeout notice, returns [false] and leaves the state
    as it was, whatever a later poll would say. *)
Theorem handlePaymentRequired_timeout (σ : State) (s : Response SessionData)
    (sd : SessionData) :
  w_start_session w = Responds s -> resp_ok s = true ->
  resp_json s = inr sd -> w_window_open w (browser_url sd) = true ->
  (forall k, 1 <= k <= 60 ->
             Obs.payment_pending (w_payment_status w k (session_id sd)) = true) ->
  handlePaymentRequired w σ
  = (false, [NStarting; NOpening; NWaiting; NTimeout], σ).
Proof.
  intros Hs Hok Hsd Hopen Hpending.
  unfold handlePaymentRequired, paymentAttempt.
  rewrite Hs, Hok, Hsd, Hopen. cbn [negb].
  assert (H : forall fuel n, n + fuel = 60 ->
              pollPayment w (session_id sd) fuel n σ = (inr false, [NTimeout], σ)).
  { induction fuel as [|fuel IH]; intros n Hn; [done|].
    cbn [pollPayment]. specialize (Hpending (S n) ltac:(lia)).
    unfold Obs.payment_pending in Hpending.
    destruct (w_payment_status w (S n) (session_id sd)) as [e|r]; [done|].
    destruct (resp_ok r); cbn [negb orb] in *; [|apply IH; lia].
    destruct (resp_json r) as [f|d]; [done|].
    apply andb_prop in Hpending as [H1 H2].
    apply negb_true_iff in H1, H2. rewrite H1, H2. apply IH. lia. }
  unfold maxAttempts. by rewrite H.
Qed.

End PaymentMore.

Lemma handlePaymentRequired_timeout_witness :
  Payment.handlePaymentRequired Sample.world_pending Sample.state0
  = (false, [Payment.NStarting; Payment.NOpening; Payment.NWaiting;
             Payment.NTimeout], Sample.state0).
Proof.
  refine (handlePaymentRequired_timeout Sample.world_pending Sample.state0
            (Sample.ok_response (mkSession (lit "s1") (lit "http://pay")))
            (mkSession (lit "s1") (lit "http://pay"))
            eq_refl eq_refl eq_refl eq_refl _).
  intros k _. reflexivity.
Defined.

(** ** Payment headers *)

Section HeaderFacts.

Import Payment.

Lemma trimStart_head_kept (s : jsstring) : Obs.head_kept (trimStart s).
Proof.
  induction s as [|c s IH]; [done|]. cbn [trimStart].
  by destruct (is_trim_unit c) eqn:Hc.
Qed.

Lemma trimStart_kept (s : jsstring) : Obs.head_kept s -> trimStart s = s.
Proof. destruct s as [|c s]; [done|]. cbn. by intros ->. Qed.

Lemma trimStart_suffix (s : jsstring) : exists k, s = k ++ trimStart s.
Proof.
  induction s as [|c s [k IH]]; [by exists []|]. cbn [trimStart].
  destruct (is_trim_unit c); [|by exists []].
  exists (c :: k). cbn. by rewrite <- IH.
Qed.

Lemma trim_trimmed (s : jsstring) : Obs.trimmed (trim s).
Proof.
  unfold trim, Obs.trimmed. rewrite rev_involutive.
  split; [|apply trimStart_head_kept].
  destruct (trimStart_suffix (rev (trimStart s))) as [k Hk].
  apply (f_equal (@rev N)) in Hk. rewrite rev_involutive, rev_app_distr in Hk.
  pose proof (trimStart_head_kept s) as Hs. rewrite Hk in Hs.
  by destruct (rev (trimStart (rev (trimStart s)))).
Qed.

Lemma trim_kept (s : jsstring) : Obs.trimmed s -> trim s = s.
Proof.
  intros [H1 H2]. unfold trim.
  by rewrite (trimStart_kept _ H1), (trimStart_kept _ H2), rev_involutive.
Qed.

Lemma trimStart_blank (s : jsstring) :
  forallb is_trim_unit s = true -> trimStart s = [].
Proof.
  induction s as [|c s IH]; [done|]. cbn [forallb trimStart].
  intros [Hc Hs]%andb_prop. rewrite Hc. by apply IH.
Qed.

(** X4: asking for the payment headers twice gives the same headers and
    the same state as asking once: the validation that may drop the token
    happens at the first call. *)
Theorem getPaymentHeaders_twice (σ : State) :
  getPaymentHeaders (getPaymentHeaders σ).2 = getPaymentHeaders σ.
Proof.
  unfold getPaymentHeaders.
  destruct (truthy_opt (paymentToken σ)) eqn:Ht; cbn [negb snd].
  - destruct (is_ascii _) eqn:Ha; cbn [negb snd]; [by rewrite Ht, Ha|done].
  - by rewrite Ht.
Qed.

(** X5: whatever [getPaymentHeaders] returns has no other key than
    X-PAYMENT, and its value is the held token trimmed: ASCII-only and
    without white space at either end; returning a header never changes the
    state. *)
Theorem getPaymentHeaders_value (σ : State) (key value : jsstring) :
  (getPaymentHeaders σ).1 !! key = Some value ->
  key = X_PAYMENT
  /\ is_ascii value = true
  /\ Obs.trimmed value /\ trim value = value
  /\ (getPaymentHeaders σ).2 = σ
  /\ hasPaymentToken σ = true
  /\ exists tok, paymentToken σ = Some tok /\ value = trim tok.
Proof.
  unfold getPaymentHeaders.
  destruct (paymentToken σ) as [tok|] eqn:Htok; [|done].
  destruct tok as [|c tok]; [done|]. cbn [truthy_opt truthy negb from_option id].
  destruct (is_ascii _) eqn:Ha; cbn [negb fst snd]; [|done].
  intros [<- <-]%lookup_singleton_Some.
  pose proof (trim_trimmed (c :: tok)) as Htr.
  repeat split; try done; try apply Htr.
  - by apply trim_kept.
  - unfold hasPaymentToken. rewrite Htok. apply bool_decide_eq_true_2. cbn. lia.
  - by exists (c :: tok).
Qed.

Lemma getPaymentHeaders_value_witness :
  is_ascii (lit "tok123") = true /\ trim (lit "tok123") = lit "tok123".
Proof.
  destruct (getPaymentHeaders_value (mkState (Some (lit "  tok123 ")) 0)
              X_PAYMENT (lit "tok123")) as (_ & Ha & _ & Ht & _).
  - reflexivity.
  - by split.
Defined.

(** X6: a held token made of white space only is not dropped: it is sent
    as an empty X-PAYMENT header, and [hasPaymentToken] holds. *)
Theorem getPaymentHeaders_blank_token (σ : State) (tok : jsstring) :
  paymentToken σ = Some tok -> tok <> [] ->
  forallb is_trim_unit tok = true ->
  getPaymentHeaders σ = ({[ X_PAYMENT := [] ]}, σ)
  /\ hasPaymentToken σ = true.
Proof.
  intros Htok Hne Hblank. split.
  - unfold getPaymentHeaders. rewrite Htok.
    destruct tok as [|c tok]; [done|]. cbn [truthy_opt truthy negb from_option id].
    unfold trim. by rewrite (trimStart_blank _ Hblank).
  - unfold hasPaymentToken. rewrite Htok. apply bool_decide_eq_true_2.
    destruct tok; [done|cbn; lia].
Qed.

Lemma getPaymentHeaders_blank_token_witness :
  getPaymentHeaders (mkState (Some (lit "  ")) 0)
  = ({[ X_PAYMENT := [] ]}, mkState (Some (lit "  ")) 0).
Proof.
  refine (proj1 (getPaymentHeaders_blank_token (mkState (Some (lit "  ")) 0)
                   (lit "  ") eq_refl _ eq_refl)).
  discriminate.
Defined.

End HeaderFacts.

(** ** Text Extractor: precedence, roles, emptiness *)

Section ExtractorMore.

Import Extractor.

Lemma find_app {A} (p : A -> bool) (l1 l2 : list A) :
  List.find p (l1 ++ l2)
  = match List.find p l1 with
    | Some x => Some x
    | None => List.find p l2
    end.
Proof.
  induction l1 as [|x l1 IH]; [done|]. cbn [app List.find].
  by destruct (p x).
Qed.

Lemma part_texts_nonempty (parts : list Part) :
  Forall (fun t => t <> []) (Doc.part_texts parts).
Proof.
  induction parts as [|p parts IH]; [constructor|].
  unfold Doc.part_texts in *. cbn [omap list_omap].
  destruct (is_text_part p) eqn:Hp; [|done].
  unfold is_text_part in Hp. apply andb_prop in Hp as [_ Ht].
  destruct (part_text p) as [[|c t]|]; try done. by constructor.
Qed.

Lemma artifact_texts_nonempty (artifacts : list Artifact) :
  Forall (fun t => t <> []) (mjoin (map Doc.artifact_texts artifacts)).
Proof.
  induction artifacts as [|a artifacts IH]; [constructor|].
  cbn [map mjoin list_join]. apply Forall_app. split; [|done].
  unfold Doc.artifact_texts. destruct (art_parts a) as [parts|].
  - apply part_texts_nonempty.
  - destruct (art_text a) as [[|c t]|]; try constructor; done.
Qed.

Lemma join_nonempty (texts : list jsstring) :
  texts <> [] -> Forall (fun t => t <> []) texts -> join nl texts <> [].
Proof.
  destruct texts as [|t texts]; [done|]. intros _ Hall.
  apply Forall_cons_1 in Hall as [Ht _]. cbn [join].
  destruct texts; [done|]. by destruct t.
Qed.

Lemma latest_answer_agents (history : list HistoryMessage) :
  Doc.latest_answer
    (List.filter (fun msg => is_agent_role (msg_role msg)) history)
  = Doc.latest_answer history.
Proof.
  unfold Doc.latest_answer.
  assert (H : List.find Doc.answers
                (rev (List.filter (fun msg => is_agent_role (msg_role msg))
                                  history))
              = List.find Doc.answers (rev history)); [|by rewrite H].
  induction history as [|msg history IH]; [done|].
  cbn [List.filter rev]. destruct (is_agent_role (msg_role msg)) eqn:Hr.
  - cbn [rev]. by rewrite !find_app, IH.
  - rewrite find_app, IH. cbn [List.find]. unfold Doc.answers at 3.
    rewrite Hr. cbn [andb]. by destruct (List.find Doc.answers (rev history)).
Qed.

Lemma latest_answer_empty (history : list HistoryMessage) :
  Doc.latest_answer history = []
  <-> Forall (fun msg => Doc.answers msg = false) history.
Proof.
  unfold Doc.latest_answer. split.
  - intros H.
    destruct (List.find Doc.answers (rev history)) as [msg|] eqn:Hfind.
    + apply find_some in Hfind as [_ Hmsg]. unfold Doc.answers in Hmsg.
      apply andb_prop in Hmsg as [_ Hne%bool_decide_eq_true_1].
      pose proof (part_texts_nonempty (default [] (msg_parts msg))) as Hall.
      destruct (Doc.part_texts _) as [|t ts]; [done|].
      apply Forall_cons_1 in Hall as [Ht _]. by cbn in H.
    + apply List.Forall_forall. intros msg Hin.
      apply (find_none _ _ Hfind). by apply in_rev in Hin.
  - intros Hall.
    destruct (List.find Doc.answers (rev history)) as [msg|] eqn:Hfind; [|done].
    apply find_some in Hfind as [Hin Hmsg]. apply in_rev in Hin.
    rewrite List.Forall_forall in Hall. by rewrite (Hall _ Hin) in Hmsg.
Qed.

(** X7: artifacts take precedence: as soon as one artifact contributes a
    text, the result is not empty and does not depend on the history. *)
Theorem extractTextFromTask_precedence (tid ctx : jsstring) (st : TaskStatus)
    (history history' : option (list HistoryMessage))
    (artifacts : list Artifact) (err : option jsstring) :
  mjoin (map Doc.artifact_texts artifacts) <> [] ->
  extractTextFromTask (mkTask tid ctx st history (Some artifacts) err)
  = extractTextFromTask (mkTask tid ctx st history' (Some artifacts) err)
  /\ extractTextFromTask (mkTask tid ctx st history (Some artifacts) err) <> [].
Proof.
  intros Hne. rewrite !extract_refines. unfold Doc.extract.
  cbn [task_artifacts task_history from_option].
  pose proof (artifact_texts_nonempty artifacts) as Hall. unfold id.
  destruct (mjoin (map Doc.artifact_texts artifacts)) as [|t ts] eqn:E; [done|].
  split; [done|]. by apply join_nonempty.
Qed.

Lemma extractTextFromTask_precedence_witness :
  extractTextFromTask Sample.task_AB
  = extractTextFromTask
      (mkTask (lit "t1") (lit "c1") (Sample.status0 "completed")
              (Some [Sample.said "agent" "ignored"])
              (Some [mkArtifact (lit "artifact") (Some [text_part (lit "A")]) None;
                     mkArtifact (lit "artifact") (Some [text_part (lit "B")]) None])
              None).
Proof.
  refine (proj1 (extractTextFromTask_precedence _ _ _ _ _ _ _ _)).
  discriminate.
Defined.

(** X8: only assistant- and agent-role messages can answer: removing every
    other message from the history never changes the extracted text. *)
Theorem extractTextFromTask_agents_only (tid ctx : jsstring) (st : TaskStatus)
    (history : list HistoryMessage) (artifacts : option (list Artifact))
    (err : option jsstring) :
  extractTextFromTask
    (mkTask tid ctx st
            (Some (List.filter (fun msg => is_agent_role (msg_role msg)) history))
            artifacts err)
  = extractTextFromTask (mkTask tid ctx st (Some history) artifacts err).
Proof.
  rewrite !extract_refines. unfold Doc.extract.
  cbn [task_artifacts task_history from_option]. unfold id.
  by rewrite latest_answer_agents.
Qed.

(** X9: the extracted text is empty exactly when there is nothing to show:
    no artifact contributes a text and no assistant- or agent-role message
    of the history has a non-empty text part. *)
Theorem extractTextFromTask_empty (task : AgentTask) :
  extractTextFromTask task = []
  <-> mjoin (map Doc.artifact_texts (default [] (task_artifacts task))) = []
      /\ Forall (fun msg => Doc.answers msg = false)
                (default [] (task_history task)).
Proof.
  rewrite extract_refines. unfold Doc.extract.
  pose proof (artifact_texts_nonempty (default [] (task_artifacts task))) as Hall.
  destruct (mjoin _) as [|t ts] eqn:E.
  - rewrite latest_answer_empty. tauto.
  - split; [|by intros [? _]]. intros H.
    by apply join_nonempty in H.
Qed.

End ExtractorMore.

(** ** Send/Poll Engine: the shape of every update sequence *)

Section TraceShape.

Import Engine.

Variable w : World.

Section Loop.

Variable abortSignal : option (nat -> bool).
Variable headers : gmap jsstring jsstring.
Variable tid ctx : jsstring.
Variable refs : option (list jsstring).

(** The updates of a poll loop: one [TaskMetadata] per snapshot, then the
    final answer and the finished status exactly when the loop returns. *)
Lemma pollLoop_shape (fuel attempt : nat) (σ : State) :
  exists states,
    match value (pollLoop w abortSignal headers tid ctx refs fuel attempt σ) with
    | inr LoopReturned =>
        exists states' task,
          states = states' ++ [status_state (task_status task)]
          /\ trace (pollLoop w abortSignal headers tid ctx refs fuel attempt σ)
             = Trace.metadata tid ctx refs states
               ++ [FinalAnswer (Extractor.extractTextFromTask task) false;
                   Status Finished None]
    | _ =>
        trace (pollLoop w abortSignal headers tid ctx refs fuel attempt σ)
        = Trace.metadata tid ctx refs states
    end.
Proof.
  revert attempt σ. induction fuel as [|fuel IH]; intros attempt σ.
  { by exists []. }
  rewrite pollLoop_step. cbv zeta.
  destruct (pollIteration_cases w abortSignal headers tid ctx refs attempt σ)
    as [(Ht & Hf & Hv)|[task Htask]].
  - destruct (value (pollIteration _ _ _ _ _ _ _ _)) as [e|[|]] eqn:E;
      cbn [trace value final]; rewrite ?Ht; [by exists []| |done].
    rewrite app_nil_l. apply IH.
  - rewrite Htask. unfold Doc.on_task. cbv zeta.
    destruct (streq _ (lit "completed")).
    { cbn [trace value final].
      exists [status_state (task_status task)]. by exists [], task. }
    destruct (streq _ (lit "input-required")).
    { cbn [trace value final].
      exists [status_state (task_status task)]. by exists [], task. }
    destruct (streq _ (lit "failed")).
    { by exists [status_state (task_status task)]. }
    destruct (streq _ (lit "canceled")).
    { by exists [status_state (task_status task)]. }
    cbn [trace value final].
    destruct (IH (S attempt) (bump σ)) as [states Hstates].
    exists (status_state (task_status task) :: states).
    destruct (value (pollLoop _ _ _ _ _ _ _ _ _)) as [e|[|]].
    + by rewrite Hstates.
    + destruct Hstates as (states' & task' & -> & ->).
      by exists (status_state (task_status task) :: states'), task'.
    + by rewrite Hstates.
Qed.

End Loop.

(** The [try] block: nothing before the task is read, then metadata for the
    task's id only. *)
Lemma sendAndPoll_shape (abortSignal : option (nat -> bool))
    (headers : gmap jsstring jsstring) (agentMessage : AgentMessage)
    (newContextId requestId : jsstring) (σ : State) :
  exists tid states,
    match value (sendAndPoll w abortSignal headers agentMessage newContextId
                             requestId σ) with
    | inr _ =>
        exists text,
          2 <= length states
          /\ trace (sendAndPoll w abortSignal headers agentMessage
                                newContextId requestId σ)
             = Trace.metadata tid newContextId
                              (am_referenceTaskIds agentMessage) states
               ++ [FinalAnswer text false; Status Finished None]
    | inl _ =>
        trace (sendAndPoll w abortSignal headers agentMessage newContextId
                           requestId σ)
        = Trace.metadata tid newContextId (am_referenceTaskIds agentMessage)
                         states
    end.
Proof.
  unfold sendAndPoll. rewrite trace_bind, value_bind, sendWithPayment_trace.
  destruct (value (sendWithPayment _ _ _ _ _)) as [e|sent]; [by exists [], []|].
  rewrite trace_bind, value_bind, readTask_trace.
  destruct (value (readTask _ _)) as [e|task]; [by exists [], []|].
  rewrite trace_bind, value_bind. cbn [yield trace value final].
  rewrite trace_bind, value_bind.
  match goal with
  | |- context [pollLoop w ?a ?h ?t ?c ?r ?f ?n ?s] =>
      destruct (pollLoop_shape a h t c r f n s) as [states Hstates];
      destruct (value (pollLoop w a h t c r f n s)) as [e|[|]]
  end.
  - exists (task_id task), (status_state (task_status task) :: states).
    rewrite Hstates. cbn [app]. by rewrite app_nil_r.
  - destruct Hstates as (states' & task' & -> & ->).
    exists (task_id task), (status_state (task_status task) :: states'
                            ++ [status_state (task_status task')]).
    cbn [ret throw trace value app]. eexists.
    split; [cbn; rewrite length_app; cbn; lia|].
    by rewrite app_nil_r.
  - exists (task_id task), (status_state (task_status task) :: states).
    rewrite Hstates. cbn [throw trace value app]. by rewrite app_nil_r.
Qed.

Lemma buildHeaders_run (σ : State) :
  buildHeaders w σ
  = mkRes []
      (inr (match w_auth_token w with
            | Some token =>
                if truthy token
                then <[ AUTHORIZATION := lit "Bearer " ++ token ]>
                       ((Payment.getPaymentHeaders σ).1
                        ∪ {[ CONTENT_TYPE := lit "application/json" ]})
                else (Payment.getPaymentHeaders σ).1
                     ∪ {[ CONTENT_TYPE := lit "application/json" ]}
            | None => (Payment.getPaymentHeaders σ).1
                      ∪ {[ CONTENT_TYPE := lit "application/json" ]}
            end))
      (Payment.getPaymentHeaders σ).2.
Proof.
  unfold buildHeaders, bind, call.
  by destruct (Payment.getPaymentHeaders σ) as [payment σ'].
Qed.

(** The prologue of an invocation, with what it hands to the [try] block. *)
Lemma sendAgentMessage_prologue (message : jsstring)
    (contextId : option jsstring) (abortSignal : option (nat -> bool))
    (currentTaskId taskState replyToTaskId : option jsstring) (σ : State) :
  exists headers identity newContextId requestId σb σ1,
    let agentMessage :=
      mkAgentMessage (lit "user") [text_part message] (lit "message")
        (w_uuid w (idCounter (Payment.getPaymentHeaders σ).2))
        newContextId identity.1
        (if bool_decide (0 < length identity.2) then Some identity.2 else None) in
    let r := try_catch (sendAndPoll w abortSignal headers agentMessage
                                    newContextId requestId)
                       reportError σ1 in
    sendAgentMessage w message contextId abortSignal currentTaskId taskState
                     replyToTaskId σ
    = mkRes (Status Started None :: trace r) (value r) (final r)
    /\ value (buildHeaders w σ) = inr headers
    /\ value (resolveTaskIdentity w replyToTaskId currentTaskId taskState
                (bump (Payment.getPaymentHeaders σ).2)) = inr identity
    /\ value (deriveContextId w contextId σb) = inr newContextId
    /\ paymentToken σ1 = paymentToken (Payment.getPaymentHeaders σ).2.
Proof.
  unfold sendAgentMessage.
  rewrite (bind_silent _ _ _ _ _ (buildHeaders_run σ)).
  rewrite (bind_silent _ _ _ _ _ (generateId_run w _)).
  destruct (resolveTaskIdentity_silent w replyToTaskId currentTaskId taskState
              (bump (Payment.getPaymentHeaders σ).2)) as (identity & σb & Hi).
  rewrite (bind_silent _ _ _ _ _ Hi).
  destruct (deriveContextId_silent w contextId σb) as (newContextId & σc & Hc).
  rewrite (bind_silent _ _ _ _ _ Hc).
  rewrite (bind_run _ _ σc σc tt [Status Started None]) by reflexivity.
  rewrite (bind_silent _ _ _ _ _ (generateId_run w σc)).
  eexists _, identity, newContextId, _, σb, _. cbv zeta.
  split; [reflexivity|]. rewrite buildHeaders_run, Hi, Hc.
  repeat split.
  assert (Hb : paymentToken σb = paymentToken (Payment.getPaymentHeaders σ).2).
  { revert Hi. rewrite resolveTaskIdentity_run.
    repeat case_match; by intros [= _ <-]. }
  assert (Hcc : paymentToken σc = paymentToken σb).
  { revert Hc. unfold deriveContextId.
    destruct (truthy_opt contextId); by intros [= _ <-]. }
  cbn. by rewrite Hcc.
Qed.

(** An invocation is [Started] followed by the guarded [try] block run on
    the request of the prologue. *)
Lemma sendAgentMessage_request (message : jsstring)
    (contextId : option jsstring) (abortSignal : option (nat -> bool))
    (currentTaskId taskState replyToTaskId : option jsstring) (σ σ1 : State)
    (headers : gmap jsstring jsstring) (agentMessage : AgentMessage)
    (newContextId requestId : jsstring) :
  Trace.request w message contextId currentTaskId taskState replyToTaskId σ
  = mkRes [] (inr (headers, agentMessage, newContextId, requestId)) σ1 ->
  let r := try_catch (sendAndPoll w abortSignal headers agentMessage
                                  newContextId requestId)
                     reportError σ1 in
  sendAgentMessage w message contextId abortSignal currentTaskId taskState
                   replyToTaskId σ
  = mkRes (Status Started None :: trace r) (value r) (final r)
  /\ paymentToken σ1 = paymentToken (Payment.getPaymentHeaders σ).2.
Proof.
  unfold Trace.request, sendAgentMessage.
  rewrite !(bind_silent _ _ _ _ _ (buildHeaders_run σ)).
  rewrite !(bind_silent _ _ _ _ _ (generateId_run w _)).
  destruct (resolveTaskIdentity_silent w replyToTaskId currentTaskId taskState
              (bump (Payment.getPaymentHeaders σ).2)) as (identity & σb & Hi).
  rewrite !(bind_silent _ _ _ _ _ Hi).
  destruct (deriveContextId_silent w contextId σb) as (ctx & σc & Hc).
  rewrite !(bind_silent _ _ _ _ _ Hc).
  rewrite (bind_run _ _ σc σc tt [Status Started None]) by reflexivity.
  rewrite !(bind_silent _ _ _ _ _ (generateId_run w σc)).
  assert (Hb : paymentToken σb = paymentToken (Payment.getPaymentHeaders σ).2).
  { revert Hi. rewrite resolveTaskIdentity_run.
    repeat case_match; by intros [= _ <-]. }
  assert (Hcc : paymentToken σc = paymentToken σb).
  { revert Hc. unfold deriveContextId.
    destruct (truthy_opt contextId); by intros [= _ <-]. }
  unfold ret. intros Hreq.
  assert (Hσ : bump σc = σ1) by congruence.
  match type of Hreq with
  | mkRes _ (inr (?h, ?am, ?c, ?q)) _ = _ =>
      assert (Hh : h = headers) by congruence;
      assert (Ham : am = agentMessage) by congruence;
      assert (Hctx : c = newContextId) by congruence;
      assert (Hq : q = requestId) by congruence
  end.
  rewrite Hh, Ham, Hq, Hσ. rewrite Hctx.
  split; [reflexivity|]. rewrite <- Hσ. cbn [bump paymentToken]. congruence.
Qed.

Lemma request_run (message : jsstring)
    (contextId currentTaskId taskState replyToTaskId : option jsstring)
    (σ : State) :
  exists headers agentMessage newContextId requestId σ1,
    Trace.request w message contextId currentTaskId taskState replyToTaskId σ
    = mkRes [] (inr (headers, agentMessage, newContextId, requestId)) σ1.
Proof.
  unfold Trace.request.
  rewrite (bind_silent _ _ _ _ _ (buildHeaders_run σ)).
  rewrite (bind_silent _ _ _ _ _ (generateId_run w _)).
  destruct (resolveTaskIdentity_silent w replyToTaskId currentTaskId taskState
              (bump (Payment.getPaymentHeaders σ).2)) as (identity & σb & Hi).
  rewrite (bind_silent _ _ _ _ _ Hi).
  destruct (deriveContextId_silent w contextId σb) as (ctx & σc & Hc).
  rewrite (bind_silent _ _ _ _ _ Hc).
  rewrite (bind_silent _ _ _ _ _ (generateId_run w σc)).
  by eexists _, _, _, _, _.
Qed.

Lemma identity_references
    (replyToTaskId currentTaskId taskState : option jsstring) (σ : State)
    (identity : jsstring * list jsstring) :
  value (resolveTaskIdentity w replyToTaskId currentTaskId taskState σ)
  = inr identity ->
  identity.2 = (if truthy_opt replyToTaskId then [default [] replyToTaskId]
                else if truthy_opt taskState
                        && (streq (default [] taskState) (lit "input-required")
                            || streq (default [] taskState) (lit "auth-required"))
                        && truthy_opt currentTaskId then []
                else if truthy_opt currentTaskId
                     then [default [] currentTaskId] else []).
Proof.
  rewrite resolveTaskIdentity_run.
  destruct (truthy_opt replyToTaskId); [by intros [= <-]|].
  destruct (_ && truthy_opt currentTaskId); by intros [= <-].
Qed.

(** What every invocation yields, with the identity the prologue
    resolved. *)
Lemma sendAgentMessage_trace (message : jsstring)
    (contextId : option jsstring) (abortSignal : option (nat -> bool))
    (currentTaskId taskState replyToTaskId : option jsstring) (σ : State) :
  let r := sendAgentMessage w message contextId abortSignal currentTaskId
                            taskState replyToTaskId σ in
  exists tid ctx identity states σa σb,
    value (resolveTaskIdentity w replyToTaskId currentTaskId taskState σa)
    = inr identity
    /\ value (deriveContextId w contextId σb) = inr ctx
    /\ let refs := if bool_decide (0 < length identity.2)
                   then Some identity.2 else None in
       match value r with
       | inr _ =>
           exists text,
             2 <= length states
             /\ trace r = Status Started None
                          :: Trace.metadata tid ctx refs states
                          ++ [FinalAnswer text false; Status Finished None]
       | inl e =>
           trace r = Status Started None
                     :: Trace.metadata tid ctx refs states
                     ++ [Status Error (Some (error_message e))]
       end.
Proof.
  intros r. subst r.
  destruct (sendAgentMessage_prologue message contextId abortSignal
              currentTaskId taskState replyToTaskId σ)
    as (headers & identity & ctx & requestId & σb & σ1 & Hrun & _ & Hid & Hctx & _).
  cbv zeta in Hrun. rewrite Hrun. clear Hrun.
  rewrite try_catch_reportError.
  match goal with
  | |- context [sendAndPoll w ?a ?h ?m ?c ?q ?s] =>
      destruct (sendAndPoll_shape a h m c q s) as (tid & states & Hshape);
      set (body := sendAndPoll w a h m c q s) in *
  end.
  exists tid, ctx, identity, states, (bump (Payment.getPaymentHeaders σ).2), σb.
  split; [exact Hid|]. split; [exact Hctx|]. cbv zeta.
  cbn [am_referenceTaskIds] in Hshape.
  destruct (value body) as [e|[]] eqn:Hv; cbn [trace value].
  - by rewrite Hshape.
  - rewrite Hv. destruct Hshape as (text & Hne & ->). by exists text.
Qed.

Lemma filter_metadata (f : MessageUpdate -> bool) (tid ctx : jsstring)
    (refs : option (list jsstring)) (states : list jsstring) :
  (forall st, f (TaskMetadata tid ctx st refs) = false) ->
  List.filter f (Trace.metadata tid ctx refs states) = [].
Proof.
  intros Hf. induction states as [|st states IH]; [done|].
  cbn. by rewrite Hf.
Qed.

(** X10: the update sequence of every invocation is [Status{started}];
    then only [TaskMetadata] updates, all for one task id, with the derived
    context id and one reference list that is absent or holds a single id;
    then either the final answer and [Status{finished}] (the invocation
    returns, having reported at least two states: the one of the send and
    one polled) or a single [Status{error}] (it throws).  So a failing
    invocation yields neither a final answer nor [Status{finished}]. *)
Theorem sendAgentMessage_grammar (message : jsstring)
    (contextId : option jsstring) (abortSignal : option (nat -> bool))
    (currentTaskId taskState replyToTaskId : option jsstring) (σ : State) :
  let r := sendAgentMessage w message contextId abortSignal currentTaskId
                            taskState replyToTaskId σ in
  exists tid ctx refs states,
    (refs = None \/ exists ref, refs = Some [ref])
    /\ (forall c, Doc.present contextId c -> ctx = padContextId c)
    /\ match value r with
       | inr _ =>
           exists text,
             2 <= length states
             /\ trace r = Status Started None
                          :: Trace.metadata tid ctx refs states
                          ++ [FinalAnswer text false; Status Finished None]
       | inl e =>
           trace r = Status Started None
                     :: Trace.metadata tid ctx refs states
                     ++ [Status Error (Some (error_message e))]
           /\ List.filter is_final_answer (trace r) = []
           /\ List.filter Trace.is_finished (trace r) = []
       end.
Proof.
  intros r.
  destruct (sendAgentMessage_trace message contextId abortSignal currentTaskId
              taskState replyToTaskId σ)
    as (tid & ctx & identity & states & σa & σb & Hid & Hctx & Htrace).
  fold r in Htrace. cbv zeta in Htrace.
  exists tid, ctx,
    (if bool_decide (0 < length identity.2) then Some identity.2 else None),
    states.
  split; [|split].
  - rewrite (identity_references _ _ _ _ _ Hid).
    destruct (truthy_opt replyToTaskId); [cbn; eauto|].
    destruct (_ && truthy_opt currentTaskId); [cbn; eauto|].
    destruct (truthy_opt currentTaskId); cbn; eauto.
  - intros c [-> Hc]. revert Hctx. unfold deriveContextId.
    destruct c; [done|]. cbn [truthy_opt truthy from_option id ret value].
    by intros [= <-].
  - destruct (value r) as [e|[]]; [|done].
    rewrite Htrace. split; [done|].
    split; cbn [List.filter is_final_answer Trace.is_finished];
      rewrite List.filter_app, filter_metadata by done; done.
Qed.

(** X11: every [TaskMetadata] of an invocation carries the references the
    task identity rules give: the reply target for an explicit reply; else
    nothing when an open task (input-required, auth-required) is continued;
    else the current task, if there is one. *)
Theorem sendAgentMessage_references (message : jsstring)
    (contextId : option jsstring) (abortSignal : option (nat -> bool))
    (currentTaskId taskState replyToTaskId : option jsstring) (σ : State)
    (taskId ctx st : jsstring) (refs : option (list jsstring)) :
  In (TaskMetadata taskId ctx st refs)
     (trace (sendAgentMessage w message contextId abortSignal currentTaskId
                              taskState replyToTaskId σ)) ->
  (forall reply, Doc.present replyToTaskId reply -> refs = Some [reply])
  /\ (forall current,
         Doc.absent replyToTaskId -> Doc.present currentTaskId current ->
         refs = if bool_decide (Doc.awaits_input taskState)
                then None else Some [current])
  /\ (Doc.absent replyToTaskId -> Doc.absent currentTaskId -> refs = None).
Proof.
  intros Hin.
  destruct (sendAgentMessage_trace message contextId abortSignal currentTaskId
              taskState replyToTaskId σ)
    as (tid & ctx' & identity & states & σa & σb & Hid & _ & Htrace).
  cbv zeta in Htrace.
  assert (Hrefs : refs = if bool_decide (0 < length identity.2)
                         then Some identity.2 else None).
  { assert (Hmeta : forall l tail,
               (forall u, In u tail -> forall a b c d, u <> TaskMetadata a b c d) ->
               In (TaskMetadata taskId ctx st refs)
                  (Status Started None
                   :: Trace.metadata tid ctx'
                        (if bool_decide (0 < length identity.2)
                         then Some identity.2 else None) l ++ tail) ->
               refs = if bool_decide (0 < length identity.2)
                      then Some identity.2 else None).
    { intros l tail Htail [H|H]; [done|].
      apply in_app_or in H as [H|H]; [|by destruct (Htail _ H taskId ctx st refs)].
      unfold Trace.metadata in H. apply in_map_iff in H as (s & [= _ _ _ ->] & _).
      done. }
    destruct (value (sendAgentMessage _ _ _ _ _ _ _ _)) as [e|[]].
    - rewrite Htrace in Hin. eapply Hmeta; [|exact Hin].
      intros u Hu. cbn in Hu. by destruct Hu as [<-|[]].
    - destruct Htrace as (text & _ & Htrace). rewrite Htrace in Hin.
      eapply Hmeta; [|exact Hin].
      intros u Hu. cbn in Hu. by destruct Hu as [<-|[<-|[]]]. }
  rewrite Hrefs, (identity_references _ _ _ _ _ Hid).
  split; [|split].
  - intros reply [Ht Hd]%truthy_present. by rewrite Ht, Hd.
  - intros current Hr [Ht Hd]%truthy_present.
    rewrite (truthy_absent _ Hr), Ht, Hd, andb_true_r.
    destruct (truthy_opt taskState && _) eqn:E.
    + apply awaits_input_test in E.
      by rewrite (bool_decide_eq_true_2 (Doc.awaits_input taskState)).
    + rewrite (bool_decide_eq_false_2 (Doc.awaits_input taskState)); [done|].
      intros Hs%awaits_input_test. by rewrite Hs in E.
  - intros Hr Hc. rewrite (truthy_absent _ Hr), (truthy_absent _ Hc).
    by rewrite andb_false_r.
Qed.

End TraceShape.

Lemma sendAgentMessage_references_witness :
  let r := Engine.sendAgentMessage (Sample.world_agent Sample.poll_happy)
             (lit "hello") (Some (lit "ctx-1")) None
             (Some (lit "old")) (Some (lit "completed")) None Sample.state0 in
  In (TaskMetadata (lit "task-1") (lit "ctx-1") (lit "working")
                   (Some [lit "old"])) (trace r)
  /\ forall current,
      Doc.absent None -> Doc.present (Some (lit "old")) current ->
      Some [lit "old"]
      = if bool_decide (Doc.awaits_input (Some (lit "completed")))
        then None else Some [current].
Proof.
  assert (Hin : In (TaskMetadata (lit "task-1") (lit "ctx-1") (lit "working")
                      (Some [lit "old"]))
                   (trace (Engine.sendAgentMessage
                             (Sample.world_agent Sample.poll_happy)
                             (lit "hello") (Some (lit "ctx-1")) None
                             (Some (lit "old")) (Some (lit "completed")) None
                             Sample.state0))).
  { vm_compute. do 3 right. left. reflexivity. }
  split; [exact Hin|].
  exact (proj1 (proj2 (sendAgentMessage_references _ _ _ _ _ _ _ _ _ _ _ _ Hin))).
Defined.

(** ** Send/Poll Engine: headers, payment challenge, time-out, abort *)

Section EngineMore.

Import Engine.

Variable w : World.

Lemma getPaymentHeaders_cases (σ : State) :
  (Payment.getPaymentHeaders σ).1 = ∅
  /\ ((Payment.getPaymentHeaders σ).2 = σ
      \/ (Payment.getPaymentHeaders σ).2 = set_token None σ)
  \/ exists v, Payment.getPaymentHeaders σ = ({[ Payment.X_PAYMENT := v ]}, σ).
Proof.
  unfold Payment.getPaymentHeaders.
  destruct (negb (truthy_opt _)); [left; auto|].
  destruct (negb (Payment.is_ascii _)); [left; auto|]. right. by eexists.
Qed.

Lemma handlePaymentRequired_unpaid (σ : State) :
  match Payment.handlePaymentRequired w σ with
  | (false, _, σ') => σ' = σ
  | (true, _, σ') => exists tok, tok <> [] /\ σ' = set_token (Some tok) σ
  end.
Proof.
  unfold Payment.handlePaymentRequired, Payment.paymentAttempt.
  destruct (w_start_session w) as [e|s]; [done|].
  destruct (resp_ok s); cbn [negb]; [|done].
  destruct (resp_json s) as [f|sd]; [done|].
  destruct (w_window_open w _); cbn [negb]; [|done].
  pose proof (pollPayment_outcome w (session_id sd) Payment.maxAttempts 0 σ) as H.
  destruct (Payment.pollPayment w (session_id sd) Payment.maxAttempts 0 σ)
    as [[[e|[|]] notices] σ']; try by destruct H.
  destruct H as (_ & k & r & d & tok & _ & _ & _ & _ & Hne & ->). by exists tok.
Qed.

Lemma header_names_differ :
  CONTENT_TYPE <> AUTHORIZATION /\ CONTENT_TYPE <> Payment.X_PAYMENT
  /\ AUTHORIZATION <> Payment.X_PAYMENT.
Proof. repeat split; discriminate. Qed.

(** The headers [buildHeaders] returns, key by key. *)
Lemma buildHeaders_lookup (σ : State) :
  exists headers : gmap jsstring jsstring,
    buildHeaders w σ = mkRes [] (inr headers) (Payment.getPaymentHeaders σ).2
    /\ headers !! CONTENT_TYPE = Some (lit "application/json")
    /\ headers !! AUTHORIZATION
       = (if truthy_opt (w_auth_token w)
          then Some (lit "Bearer " ++ default [] (w_auth_token w)) else None)
    /\ headers !! Payment.X_PAYMENT
       = (Payment.getPaymentHeaders σ).1 !! Payment.X_PAYMENT
    /\ forall key, key <> CONTENT_TYPE -> key <> AUTHORIZATION ->
                   key <> Payment.X_PAYMENT -> headers !! key = None.
Proof.
  rewrite buildHeaders_run. eexists. split; [reflexivity|].
  destruct header_names_differ as (Hca & Hcx & Hax).
  set (base := (Payment.getPaymentHeaders σ).1
               ∪ {[ CONTENT_TYPE := lit "application/json" ]}).
  assert (Hbase : forall key,
             base !! key
             = if decide (key = Payment.X_PAYMENT)
               then (Payment.getPaymentHeaders σ).1 !! Payment.X_PAYMENT
               else if decide (key = CONTENT_TYPE)
                    then Some (lit "application/json") else None).
  { intros key. unfold base. rewrite lookup_union.
    destruct (getPaymentHeaders_cases σ) as [[-> _]|[v ->]]; cbn [fst].
    - rewrite lookup_empty, (left_id None _).
      case_decide as Hx; [subst; by rewrite lookup_singleton_ne|].
      case_decide as Hc; [subst; by rewrite lookup_singleton_eq|].
      by rewrite lookup_singleton_ne.
    - case_decide as Hx.
      + subst. by rewrite lookup_singleton_eq, lookup_singleton_ne.
      + rewrite (lookup_singleton_ne Payment.X_PAYMENT key) by done.
        rewrite (left_id None _).
        case_decide as Hc; [subst; by rewrite lookup_singleton_eq|].
        by rewrite lookup_singleton_ne. }
  destruct (w_auth_token w) as [[|c token]|]; cbn [truthy_opt truthy from_option].
  - repeat split; intros; rewrite Hbase; repeat case_decide; try done; try congruence.
  - repeat split; intros;
      rewrite ?lookup_insert_eq, ?lookup_insert_ne, ?Hbase by congruence;
      repeat case_decide; try done; try congruence.
  - repeat split; intros; rewrite Hbase; repeat case_decide; try done; try congruence.
Qed.

(** X12: the headers of the first send are exactly: Content-Type
    application/json; Authorization "Bearer <token>" when a non-empty
    bearer token is stored, and otherwise none; X-PAYMENT as
    [getPaymentHeaders] gives it; and nothing else. *)
Theorem buildHeaders_contract (σ : State) :
  exists headers : gmap jsstring jsstring,
    value (buildHeaders w σ) = inr headers
    /\ trace (buildHeaders w σ) = []
    /\ headers !! CONTENT_TYPE = Some (lit "application/json")
    /\ headers !! AUTHORIZATION
       = (if truthy_opt (w_auth_token w)
          then Some (lit "Bearer " ++ default [] (w_auth_token w)) else None)
    /\ headers !! Payment.X_PAYMENT
       = (Payment.getPaymentHeaders σ).1 !! Payment.X_PAYMENT
    /\ forall key, key <> CONTENT_TYPE -> key <> AUTHORIZATION ->
                   key <> Payment.X_PAYMENT -> headers !! key = None.
Proof.
  destruct (buildHeaders_lookup σ) as (headers & Hrun & Hlookups).
  exists headers. by rewrite Hrun.
Qed.

(** X13: when the send step succeeds, the response it hands on is a 2xx
    response, and the headers kept for the polls are those of the send
    except, after a payment challenge, for X-PAYMENT; the polls get other
    headers than the first send only after a 402 and a completed payment. *)
Theorem sendWithPayment_success (headers headers' : gmap jsstring jsstring)
    (agentMessage : AgentMessage) (requestId : jsstring) (σ : State)
    (response : Response RpcEnvelope) :
  value (sendWithPayment w headers agentMessage requestId σ)
  = inr (response, headers') ->
  resp_ok response = true
  /\ (forall key, key <> Payment.X_PAYMENT -> headers' !! key = headers !! key)
  /\ ((w_send w 0 headers agentMessage requestId = Responds response
       /\ headers' = headers
       /\ final (sendWithPayment w headers agentMessage requestId σ) = σ)
      \/ (exists first, w_send w 0 headers agentMessage requestId = Responds first
                       /\ resp_status first = 402%N
                       /\ (Payment.handlePaymentRequired w σ).1.1 = true)).
Proof.
  unfold sendWithPayment, bind, call, await.
  destruct (w_send w 0 headers agentMessage requestId) as [e|first]; [done|].
  cbn [ret value trace final]. destruct (resp_status first =? 402)%N eqn:H402.
  - destruct (Payment.handlePaymentRequired w σ) as [[[|] notices] σ1];
      cbn [value trace final fst]; [|done].
    destruct (Payment.getPaymentHeaders σ1) as [payment σ2].
    cbn [value trace final].
    destruct (w_send w 1 _ _ _) as [e|retried]; [done|].
    cbn [ret value trace final].
    destruct (resp_ok retried) eqn:Hok; cbn [negb]; [|done].
    destruct (Payment.getPaymentHeaders σ2) as [payment2 σ3].
    cbn [value trace final]. intros [= <- <-].
    split; [done|]. split.
    + intros key Hkey. by rewrite lookup_insert_ne.
    + right. exists first. by apply N.eqb_eq in H402.
  - destruct (resp_ok first) eqn:Hok; cbn [negb]; [|done].
    cbn [ret value trace final]. intros [= <- <-].
    split; [done|]. split; [done|]. by left.
Qed.

(** X14: when the send of an invocation is answered with 402 and the
    payment it then attempts is not completed, the invocation fails with the
    payment error right after [Status{started}], without reading a task; the
    payment token is the one left by the header validation of the
    prologue. *)
Theorem sendAgentMessage_payment_failed (message : jsstring)
    (contextId : option jsstring) (abortSignal : option (nat -> bool))
    (currentTaskId taskState replyToTaskId : option jsstring) (σ σ1 : State)
    (headers : gmap jsstring jsstring) (agentMessage : AgentMessage)
    (newContextId requestId : jsstring) (first : Response RpcEnvelope) :
  Trace.request w message contextId currentTaskId taskState replyToTaskId σ
  = mkRes [] (inr (headers, agentMessage, newContextId, requestId)) σ1 ->
  w_send w 0 headers agentMessage requestId = Responds first ->
  resp_status first = 402%N ->
  (Payment.handlePaymentRequired w σ1).1.1 = false ->
  let r := sendAgentMessage w message contextId abortSignal currentTaskId
                            taskState replyToTaskId σ in
  value r = inl (ErrorObj (lit "Payment required but not completed"))
  /\ trace r = [Status Started None;
                Status Error (Some (lit "Payment required but not completed"))]
  /\ paymentToken (final r) = paymentToken (Payment.getPaymentHeaders σ).2.
Proof.
  intros Hreq Hsend H402 Hpay r. subst r.
  destruct (sendAgentMessage_request w message contextId abortSignal
              currentTaskId taskState replyToTaskId σ σ1 headers agentMessage
              newContextId requestId Hreq) as [Hrun Htok].
  cbv zeta in Hrun. rewrite Hrun. clear Hrun.
  rewrite try_catch_reportError.
  assert (Hbody : sendAndPoll w abortSignal headers agentMessage newContextId
                              requestId σ1
                  = mkRes [] (inl (ErrorObj
                              (lit "Payment required but not completed"))) σ1).
  { unfold sendAndPoll. apply bind_throw.
    unfold sendWithPayment, bind, call, await. rewrite Hsend.
    cbn [ret value trace final]. rewrite H402. cbn [N.eqb Pos.eqb].
    pose proof (handlePaymentRequired_unpaid σ1) as Hu.
    destruct (Payment.handlePaymentRequired w σ1) as [[ok notices] σ2].
    cbn in Hpay. subst ok. cbn [value trace final]. by subst σ2. }
  rewrite Hbody. cbn [trace value final app]. by rewrite Htok.
Qed.

End EngineMore.

Lemma sendWithPayment_success_witness :
  resp_ok (Sample.ok_response
             (mkEnvelope None (Some (Sample.task_in "submitted")))) = true.
Proof.
  refine (proj1 (sendWithPayment_success
                   (Sample.world_agent Sample.poll_happy) ∅ ∅
                   (mkAgentMessage [] [] [] [] [] [] None) []
                   Sample.state0 _ _)).
  reflexivity.
Defined.

Lemma sendAgentMessage_payment_failed_witness :
  let r := Sample.run Sample.world_blocked in
  value r = inl (ErrorObj (lit "Payment required but not completed"))
  /\ trace r = [Status Started None;
                Status Error (Some (lit "Payment required but not completed"))]
  /\ paymentToken (final r) = Some (lit "tok").
Proof.
  eapply (sendAgentMessage_payment_failed Sample.world_blocked (lit "hello")
            (Some (lit "ctx-1")) None None None None
            (mkState (Some (lit "tok")) 0));
    [vm_compute; reflexivity | reflexivity | reflexivity | reflexivity].
Defined.

(** ** Send/Poll Engine: polls that go on, time-out and abort *)

Section PollBudget.

Import Engine.

Variable w : World.
Variable abortSignal : option (nat -> bool).
Variable headers : gmap jsstring jsstring.
Variable tid ctx : jsstring.
Variable refs : option (list jsstring).

Lemma advance_state (σ : State) (k : nat) :
  bump (mkState (paymentToken σ) (idCounter σ + k))
  = mkState (paymentToken σ) (idCounter σ + S k).
Proof. unfold bump. cbn. f_equal. lia. Qed.

Lemma pollIteration_goes_on (attempt : nat) (σ : State) :
  aborted abortSignal attempt = false ->
  Trace.goes_on (w_poll w attempt headers tid (w_uuid w (idCounter σ))) = true ->
  exists states,
    pollIteration w abortSignal headers tid ctx refs attempt σ
    = mkRes (Trace.metadata tid ctx refs states) (inr Continue) (bump σ)
    /\ length states <= 1
    /\ Forall (fun st => Trace.keeps_polling st = true) states.
Proof.
  intros Ha Hgo. rewrite pollIteration_run, Ha.
  unfold Trace.goes_on in Hgo.
  destruct (w_poll _ _ _ _ _) as [e|response]; [done|].
  destruct (resp_ok response); cbn [negb orb] in Hgo.
  2:{ exists []. repeat split; [cbn; lia|constructor]. }
  destruct (resp_json response) as [f|envelope]; [done|].
  destruct (rpc_error envelope); [done|].
  destruct (rpc_result envelope) as [task|]; [|done].
  exists [status_state (task_status task)].
  split; [|split; [cbn; lia|by repeat constructor]].
  unfold Trace.keeps_polling in Hgo. unfold Doc.on_task.
  repeat (apply andb_prop in Hgo as [Hgo ?]).
  repeat match goal with
         | H : negb _ = true |- _ => apply negb_true_iff in H; rewrite H
         end.
  done.
Qed.

(** As long as the polls go on and nobody aborts, the loop only reports
    metadata and moves to the next attempt. *)
Lemma pollLoop_goes_on (k fuel attempt : nat) (σ : State) :
  (forall j, attempt <= j < attempt + k ->
             aborted abortSignal j = false
             /\ forall rid, Trace.goes_on (w_poll w j headers tid rid) = true) ->
  exists states,
    let r' := pollLoop w abortSignal headers tid ctx refs fuel (attempt + k)
                (mkState (paymentToken σ) (idCounter σ + k)) in
    pollLoop w abortSignal headers tid ctx refs (k + fuel) attempt σ
    = mkRes (Trace.metadata tid ctx refs states ++ trace r') (value r') (final r')
    /\ length states <= k
    /\ Forall (fun st => Trace.keeps_polling st = true) states.
Proof.
  revert attempt σ. induction k as [|k IH]; intros attempt σ Hk.
  { exists []. cbn [plus Trace.metadata map app]. rewrite !Nat.add_0_r.
    destruct σ. cbn. split; [by rewrite res_eta|]. split; [lia|constructor]. }
  destruct (Hk attempt ltac:(lia)) as [Ha Hgo].
  destruct (pollIteration_goes_on attempt σ Ha (Hgo _))
    as (first & Hit & Hlen & Hkeep).
  destruct (IH (S attempt) (bump σ)) as (states & Hloop & Hlen' & Hkeep').
  { intros j Hj. apply Hk. lia. }
  exists (first ++ states). cbn [plus]. rewrite pollLoop_step, Hit.
  cbn [value trace final]. cbv zeta in Hloop |- *. rewrite Hloop.
  cbn [value trace final bump paymentToken idCounter].
  replace (S attempt + k) with (attempt + S k) by lia.
  replace (S (idCounter σ) + k) with (idCounter σ + S k) by lia.
  split; [|split].
  - unfold Trace.metadata. by rewrite map_app, app_assoc.
  - rewrite length_app. lia.
  - by apply Forall_app.
Qed.

(** X15: when the caller aborts before attempt [k] of the loop and the
    polls before went on, the loop stops there with the abort error: it has
    issued exactly [k] requests, reported nothing but metadata of states
    that keep polling, and left the payment token alone. *)
Theorem pollLoop_abort (k fuel : nat) (σ : State) :
  (forall j, j < k ->
             aborted abortSignal j = false
             /\ forall rid, Trace.goes_on (w_poll w j headers tid rid) = true) ->
  aborted abortSignal k = true ->
  k < fuel ->
  exists states,
    pollLoop w abortSignal headers tid ctx refs fuel 0 σ
    = mkRes (Trace.metadata tid ctx refs states)
            (inl (ErrorObj (lit "Request aborted")))
            (mkState (paymentToken σ) (idCounter σ + k))
    /\ length states <= k
    /\ Forall (fun st => Trace.keeps_polling st = true) states.
Proof.
  intros Hk Ha Hfuel.
  destruct (pollLoop_goes_on k (fuel - k) 0 σ) as (states & Hloop & Hlen & Hkeep).
  { intros j Hj. apply Hk. lia. }
  exists states. split; [|done].
  replace (k + (fuel - k)) with fuel in Hloop by lia. cbv zeta in Hloop.
  rewrite Hloop. destruct (fuel - k) as [|fuel'] eqn:E; [lia|].
  rewrite pollLoop_step, pollIteration_run. cbn [plus]. rewrite Ha.
  cbn [value trace final]. by rewrite app_nil_r.
Qed.

(** A loop whose polls all go on uses up its budget. *)
Lemma pollLoop_runs_out (fuel : nat) (σ : State) :
  (forall j, j < fuel ->
             aborted abortSignal j = false
             /\ forall rid, Trace.goes_on (w_poll w j headers tid rid) = true) ->
  exists states,
    pollLoop w abortSignal headers tid ctx refs fuel 0 σ
    = mkRes (Trace.metadata tid ctx refs states) (inr LoopExhausted)
            (mkState (paymentToken σ) (idCounter σ + fuel))
    /\ length states <= fuel
    /\ Forall (fun st => Trace.keeps_polling st = true) states.
Proof.
  intros Hk.
  destruct (pollLoop_goes_on fuel 0 0 σ) as (states & Hloop & Hlen & Hkeep).
  { intros j Hj. apply Hk. lia. }
  exists states. split; [|done].
  rewrite Nat.add_0_r in Hloop. cbv zeta in Hloop. rewrite Hloop.
  cbn [pollLoop ret value trace final plus]. by rewrite app_nil_r.
Qed.

(** X16: when none of the [fuel] polls ends the task and nobody aborts,
    the loop runs out: it has issued exactly [fuel] requests, yielded no
    final answer, and left the payment token alone. *)
Theorem pollLoop_exhausted (fuel : nat) (σ : State) :
  (forall j, j < fuel ->
             aborted abortSignal j = false
             /\ forall rid, Trace.goes_on (w_poll w j headers tid rid) = true) ->
  exists states,
    pollLoop w abortSignal headers tid ctx refs fuel 0 σ
    = mkRes (Trace.metadata tid ctx refs states) (inr LoopExhausted)
            (mkState (paymentToken σ) (idCounter σ + fuel))
    /\ length states <= fuel
    /\ Forall (fun st => Trace.keeps_polling st = true) states.
Proof. exact (pollLoop_runs_out fuel σ). Qed.

End PollBudget.

Lemma pollLoop_abort_witness :
  exists states,
    Engine.pollLoop (Sample.world_agent Sample.poll_working)
      (Some Sample.abort_after_5) ∅ (lit "task-1") (lit "ctx-1") None 300 0
      Sample.state0
    = mkRes (Trace.metadata (lit "task-1") (lit "ctx-1") None states)
            (inl (ErrorObj (lit "Request aborted"))) (mkState None 5)
    /\ length states <= 5
    /\ Forall (fun st => Trace.keeps_polling st = true) states.
Proof.
  refine (pollLoop_abort (Sample.world_agent Sample.poll_working)
            (Some Sample.abort_after_5) ∅ (lit "task-1") (lit "ctx-1") None
            5 300 Sample.state0 _ _ _).
  - intros j Hj. split; [|reflexivity].
    cbn. unfold Sample.abort_after_5. apply bool_decide_eq_false_2. lia.
  - reflexivity.
  - lia.
Defined.

Lemma pollLoop_exhausted_witness :
  exists states,
    Engine.pollLoop (Sample.world_agent Sample.poll_working) None ∅
      (lit "task-1") (lit "ctx-1") None 300 0 Sample.state0
    = mkRes (Trace.metadata (lit "task-1") (lit "ctx-1") None states)
            (inr Engine.LoopExhausted) (mkState None 300)
    /\ length states <= 300
    /\ Forall (fun st => Trace.keeps_polling st = true) states.
Proof.
  refine (pollLoop_exhausted (Sample.world_agent Sample.poll_working) None ∅
            (lit "task-1") (lit "ctx-1") None 300 Sample.state0 _).
  intros j Hj. split; reflexivity.
Defined.

(** ** Send/Poll Engine: an accepted send, the time-out, the token *)

Section Accepted.

Import Engine.

Variable w : World.

Lemma ok_not_402 {B} (response : Response B) :
  resp_ok response = true -> (resp_status response =? 402)%N = false.
Proof.
  unfold resp_ok. intros [H1 H2]%andb_prop.
  apply N.leb_le in H2. apply N.eqb_neq. lia.
Qed.

Lemma sendWithPayment_accepted (headers : gmap jsstring jsstring)
    (agentMessage : AgentMessage) (requestId : jsstring) (σ : State)
    (task : AgentTask) :
  Trace.accepted (w_send w 0 headers agentMessage requestId) = Some task ->
  exists response,
    sendWithPayment w headers agentMessage requestId σ
    = mkRes [] (inr (response, headers)) σ
    /\ readTask response σ = mkRes [] (inr task) σ.
Proof.
  unfold Trace.accepted, sendWithPayment, readTask, bind, await.
  destruct (w_send w 0 headers agentMessage requestId) as [e|response]; [done|].
  destruct (resp_ok response) eqn:Hok; [|done].
  destruct (resp_json response) as [f|envelope] eqn:Hj; [done|].
  destruct (rpc_error envelope) eqn:He; [done|]. intros Hres.
  exists response. cbn [ret value trace final].
  rewrite (ok_not_402 _ Hok), Hok, Hj, He, Hres. by cbn.
Qed.

Lemma sendWithPayment_handed (headers pollHeaders : gmap jsstring jsstring)
    (agentMessage : AgentMessage) (requestId : jsstring) (σ : State)
    (response : Response RpcEnvelope) :
  value (sendWithPayment w headers agentMessage requestId σ)
  = inr (response, pollHeaders) ->
  sendWithPayment w headers agentMessage requestId σ
  = mkRes [] (inr (response, pollHeaders))
          (final (sendWithPayment w headers agentMessage requestId σ)).
Proof.
  intros Hv.
  rewrite <- Hv, <- (sendWithPayment_trace w headers agentMessage requestId σ).
  symmetry. apply res_eta.
Qed.

(** X17: when the send step of an invocation succeeds (at once, or after a
    payment) with a task, and then none of the 300 polls for that task ends
    it (each is an HTTP failure or a snapshot that is neither completed,
    input-required, failed nor canceled) and nobody aborts, the invocation
    fails with the polling time-out, without a final answer; the payment
    token is the one held after the send step. *)
Theorem sendAgentMessage_timeout (message : jsstring)
    (contextId : option jsstring) (abortSignal : option (nat -> bool))
    (currentTaskId taskState replyToTaskId : option jsstring) (σ σ1 : State)
    (headers pollHeaders : gmap jsstring jsstring)
    (agentMessage : AgentMessage) (newContextId requestId : jsstring)
    (response : Response RpcEnvelope) (envelope : RpcEnvelope)
    (task : AgentTask) :
  Trace.request w message contextId currentTaskId taskState replyToTaskId σ
  = mkRes [] (inr (headers, agentMessage, newContextId, requestId)) σ1 ->
  value (sendWithPayment w headers agentMessage requestId σ1)
  = inr (response, pollHeaders) ->
  resp_json response = inr envelope ->
  rpc_error envelope = None ->
  rpc_result envelope = Some task ->
  (forall j, j < 300 ->
      aborted abortSignal j = false
      /\ forall pollId,
          Trace.goes_on (w_poll w j pollHeaders (task_id task) pollId) = true) ->
  let r := sendAgentMessage w message contextId abortSignal currentTaskId
                            taskState replyToTaskId σ in
  value r = inl (ErrorObj (lit "Task polling timeout"))
  /\ List.filter is_final_answer (trace r) = []
  /\ paymentToken (final r)
     = paymentToken
         (final (sendWithPayment w headers agentMessage requestId σ1)).
Proof.
  intros Hreq Hsent Hj He Hres Hpoll r. subst r.
  destruct (sendAgentMessage_request w message contextId abortSignal
              currentTaskId taskState replyToTaskId σ σ1 headers agentMessage
              newContextId requestId Hreq) as [Hrun _].
  cbv zeta in Hrun. rewrite Hrun. clear Hrun.
  rewrite try_catch_reportError.
  set (σ2 := final (sendWithPayment w headers agentMessage requestId σ1)).
  assert (Hbody : exists states,
             sendAndPoll w abortSignal headers agentMessage newContextId
                         requestId σ1
             = mkRes (Trace.metadata (task_id task) newContextId
                        (am_referenceTaskIds agentMessage) states)
                     (inl (ErrorObj (lit "Task polling timeout")))
                     (mkState (paymentToken σ2) (idCounter σ2 + 300))).
  { unfold sendAndPoll.
    rewrite (bind_silent _ _ _ _ _ (sendWithPayment_handed _ _ _ _ _ _ Hsent)).
    fold σ2. cbn [fst snd].
    assert (Hr : readTask response σ2 = mkRes [] (inr task) σ2).
    { unfold readTask. by rewrite Hj, He, Hres. }
    rewrite (bind_silent _ _ _ _ _ Hr).
    rewrite (bind_run _ _ σ2 σ2 tt
               [TaskMetadata (task_id task) newContextId
                             (status_state (task_status task))
                             (am_referenceTaskIds agentMessage)])
      by reflexivity.
    destruct (pollLoop_runs_out w abortSignal pollHeaders (task_id task)
                newContextId (am_referenceTaskIds agentMessage) maxAttempts σ2)
      as (states & Hloop & _).
    { intros j Hjlt. by apply Hpoll. }
    rewrite (bind_run _ _ _ _ _ _ Hloop). cbn [throw trace value final].
    exists (status_state (task_status task) :: states).
    cbn [Trace.metadata map app]. by rewrite app_nil_r. }
  destruct Hbody as (states & ->). cbn [value trace final paymentToken].
  split; [done|]. split; [|done].
  cbn [List.filter is_final_answer]. rewrite List.filter_app.
  by rewrite filter_metadata.
Qed.

Lemma final_bind {A B} (m : Gen A) (k : A -> Gen B) (σ : State) :
  final (bind m k σ)
  = match value (m σ) with
    | inr a => final (k a (final (m σ)))
    | inl _ => final (m σ)
    end.
Proof. unfold bind. by destruct (value (m σ)). Qed.

Lemma readTask_final (response : Response RpcEnvelope) (σ : State) :
  final (readTask response σ) = σ.
Proof. unfold readTask. by repeat case_match. Qed.

Lemma sendWithPayment_unchallenged (headers : gmap jsstring jsstring)
    (agentMessage : AgentMessage) (requestId : jsstring) (σ : State) :
  (forall first, w_send w 0 headers agentMessage requestId = Responds first ->
                 resp_status first <> 402%N) ->
  final (sendWithPayment w headers agentMessage requestId σ) = σ.
Proof.
  intros H402. unfold sendWithPayment, bind, await.
  destruct (w_send w 0 headers agentMessage requestId) as [e|first]; [done|].
  cbn [ret value trace final].
  rewrite (proj2 (N.eqb_neq _ _) (H402 first eq_refl)).
  by destruct (negb (resp_ok first)).
Qed.

(** X18: without a payment challenge (the send is never answered with 402)
    an invocation never acquires a token: afterwards the payment token is
    either cleared or the one held before. *)
Theorem sendAgentMessage_token_unchallenged (message : jsstring)
    (contextId : option jsstring) (abortSignal : option (nat -> bool))
    (currentTaskId taskState replyToTaskId : option jsstring) (σ : State) :
  (forall headers agentMessage requestId first,
      w_send w 0 headers agentMessage requestId = Responds first ->
      resp_status first <> 402%N) ->
  let r := sendAgentMessage w message contextId abortSignal currentTaskId
                            taskState replyToTaskId σ in
  paymentToken (final r) = None \/ paymentToken (final r) = paymentToken σ.
Proof.
  intros H402 r. subst r.
  destruct (sendAgentMessage_prologue w message contextId abortSignal
              currentTaskId taskState replyToTaskId σ)
    as (headers & identity & ctx & requestId & σb & σ1 & Hrun & _ & _ & _ & Htok).
  cbv zeta in Hrun. rewrite Hrun. clear Hrun. cbn [final].
  rewrite try_catch_reportError.
  assert (Hstart : paymentToken σ1 = None \/ paymentToken σ1 = paymentToken σ).
  { rewrite Htok.
    destruct (getPaymentHeaders_cases σ) as [[_ [-> | ->]]|[v ->]]; auto. }
  match goal with
  | |- context [sendAndPoll w ?a ?h ?m ?c ?q ?s] =>
      assert (Hbody : paymentToken (final (sendAndPoll w a h m c q s)) = None
                      \/ paymentToken (final (sendAndPoll w a h m c q s))
                         = paymentToken s);
        [|set (body := sendAndPoll w a h m c q s) in *]
  end.
  { unfold sendAndPoll. rewrite final_bind.
    rewrite (sendWithPayment_unchallenged _ _ _ _ (H402 _ _ _)).
    destruct (value (sendWithPayment _ _ _ _ _)) as [e|sent]; [by right|].
    rewrite final_bind, readTask_final.
    destruct (value (readTask _ _)) as [e|task]; [by right|].
    rewrite final_bind. cbn [yield value final].
    rewrite final_bind.
    match goal with
    | |- context [pollLoop w ?a ?h ?t ?c ?r ?f ?n ?s] =>
        pose proof (pollLoop_token w a h t c r f n s) as Hloop;
        destruct (value (pollLoop w a h t c r f n s)) as [e|[|]]
    end; cbn [ret throw final]; rewrite Hloop;
      destruct (Doc.drops_token _); auto. }
  destruct (value body) as [e|[]]; cbn [final];
    destruct Hbody as [-> | ->]; auto.
Qed.

End Accepted.

Lemma sendAgentMessage_timeout_witness :
  let r := Sample.run (Sample.world_agent Sample.poll_working) in
  value r = inl (ErrorObj (lit "Task polling timeout"))
  /\ List.filter is_final_answer (trace r) = []
  /\ paymentToken (final r) = Some (lit "tok").
Proof.
  edestruct (sendAgentMessage_timeout
               (Sample.world_agent Sample.poll_working) (lit "hello")
               (Some (lit "ctx-1")) None None None None
               (mkState (Some (lit "tok")) 0)) as (Hv & Ht & Hf);
    [vm_compute; reflexivity | vm_compute; reflexivity | reflexivity
    | reflexivity | reflexivity | |].
  - intros j Hj. split; [reflexivity|]. intros pollId. reflexivity.
  - split; [exact Hv|]. split; [exact Ht|exact Hf].
Defined.

Lemma sendAgentMessage_token_unchallenged_witness :
  paymentToken (final (Sample.run (Sample.world_agent Sample.poll_input)))
  = None
  \/ paymentToken (final (Sample.run (Sample.world_agent Sample.poll_input)))
     = Some (lit "tok").
Proof.
  refine (sendAgentMessage_token_unchallenged
            (Sample.world_agent Sample.poll_input) (lit "hello")
            (Some (lit "ctx-1")) None None None None
            (mkState (Some (lit "tok")) 0) _).
  intros headers agentMessage requestId first [= <-]. discriminate.
Defined.

(** ** From one turn to the next: the caller's tracking of the task *)

Section Threading.

Import Engine.

Variable w : World.

Lemma pollLoop_last_state (abortSignal : option (nat -> bool))
    (headers : gmap jsstring jsstring) (tid ctx : jsstring)
    (refs : option (list jsstring)) (fuel attempt : nat) (σ : State) :
  value (pollLoop w abortSignal headers tid ctx refs fuel attempt σ)
  = inr LoopReturned ->
  exists states st text,
    trace (pollLoop w abortSignal headers tid ctx refs fuel attempt σ)
    = Trace.metadata tid ctx refs (states ++ [st])
      ++ [FinalAnswer text false; Status Finished None]
    /\ (st = lit "completed" \/ st = lit "input-required").
Proof.
  revert attempt σ. induction fuel as [|fuel IH]; intros attempt σ; [done|].
  rewrite pollLoop_step. cbv zeta.
  destruct (pollIteration_cases w abortSignal headers tid ctx refs attempt σ)
    as [(Ht & Hf & Hv)|[task Htask]].
  - destruct (value (pollIteration _ _ _ _ _ _ _ _)) as [e|[|]] eqn:E;
      cbn [trace value final]; [| |done]; [done|].
    rewrite Ht, app_nil_l. apply IH.
  - rewrite Htask. unfold Doc.on_task. cbv zeta.
    destruct (streq _ (lit "completed")) eqn:Hc.
    { intros _. exists [], (status_state (task_status task)). eexists.
      split; [reflexivity|]. left. by apply streq_true. }
    destruct (streq _ (lit "input-required")) eqn:Hi.
    { intros _. exists [], (status_state (task_status task)). eexists.
      split; [reflexivity|]. right. by apply streq_true. }
    destruct (streq _ (lit "failed")); [done|].
    destruct (streq _ (lit "canceled")); [done|].
    cbn [trace value final]. intros Hv.
    destruct (IH _ _ Hv) as (states & st & text & -> & Hst).
    by exists (status_state (task_status task) :: states), st, text.
Qed.

Lemma sendAndPoll_last_state (abortSignal : option (nat -> bool))
    (headers : gmap jsstring jsstring) (agentMessage : AgentMessage)
    (newContextId requestId : jsstring) (σ : State) :
  value (sendAndPoll w abortSignal headers agentMessage newContextId requestId σ)
  = inr tt ->
  exists tid states st text,
    trace (sendAndPoll w abortSignal headers agentMessage newContextId
                       requestId σ)
    = Trace.metadata tid newContextId (am_referenceTaskIds agentMessage)
                     (states ++ [st])
      ++ [FinalAnswer text false; Status Finished None]
    /\ (st = lit "completed" \/ st = lit "input-required").
Proof.
  unfold sendAndPoll. rewrite trace_bind, value_bind, sendWithPayment_trace.
  destruct (value (sendWithPayment _ _ _ _ _)) as [e|sent]; [done|].
  rewrite trace_bind, value_bind, readTask_trace.
  destruct (value (readTask _ _)) as [e|task]; [done|].
  rewrite trace_bind, value_bind. cbn [yield trace value final].
  rewrite trace_bind, value_bind.
  destruct (value (pollLoop _ _ _ _ _ _ _ _ _)) as [e|[|]] eqn:Hloop;
    [done| |done].
  intros _.
  destruct (pollLoop_last_state _ _ _ _ _ _ _ _ Hloop)
    as (states & st & text & -> & Hst).
  exists (task_id task), (status_state (task_status task) :: states), st, text.
  cbn [ret trace app]. by rewrite app_nil_r.
Qed.

Lemma consume_app (stream stream' : list MessageUpdate) (n : nat)
    (p : Caller.Page) :
  Caller.consume (fun _ => false) n (stream ++ stream') p
  = Caller.consume (fun _ => false) (n + length stream) stream'
      (Caller.consume (fun _ => false) n stream p).
Proof.
  revert n p. induction stream as [|u stream IH]; intros n p.
  - cbn. by rewrite Nat.add_0_r.
  - cbn [app Caller.consume length]. rewrite IH. f_equal. lia.
Qed.

Lemma consume_metadata (tid ctx : jsstring) (refs : option (list jsstring))
    (states : list jsstring) (st : jsstring) (n : nat) (p : Caller.Page) :
  let p' := Caller.consume (fun _ => false) n
              (Trace.metadata tid ctx refs (states ++ [st])) p in
  Caller.currentTaskId p' = Some tid
  /\ Caller.currentTaskState p' = Some st
  /\ Caller.taskMetadata p' = Some (tid, ctx, st, refs)
  /\ Caller.content p' = Caller.content p
  /\ Caller.error p' = Caller.error p.
Proof.
  revert n p. induction states as [|s states IH]; intros n p; [done|].
  cbn [app Trace.metadata map Caller.consume].
  destruct (IH (S n) (Caller.onUpdate (TaskMetadata tid ctx s refs) p))
    as (H1 & H2 & H3 & H4 & H5).
  by repeat split.
Qed.

Lemma sendAgentMessage_last_state (message : jsstring)
    (contextId : option jsstring) (abortSignal : option (nat -> bool))
    (currentTaskId taskState replyToTaskId : option jsstring) (σ : State) :
  value (sendAgentMessage w message contextId abortSignal currentTaskId
                          taskState replyToTaskId σ) = inr tt ->
  exists tid ctx refs states st text,
    trace (sendAgentMessage w message contextId abortSignal currentTaskId
                            taskState replyToTaskId σ)
    = Status Started None
      :: Trace.metadata tid ctx refs (states ++ [st])
      ++ [FinalAnswer text false; Status Finished None]
    /\ (st = lit "completed" \/ st = lit "input-required").
Proof.
  destruct (sendAgentMessage_run w message contextId abortSignal currentTaskId
              taskState replyToTaskId σ)
    as (headers & agentMessage & newContextId & requestId & σ1 & ->).
  cbv zeta. rewrite try_catch_reportError. cbn [trace value].
  destruct (value (sendAndPoll _ _ _ _ _ _ _)) as [e|[]] eqn:Hv; [done|].
  intros _.
  destruct (sendAndPoll_last_state _ _ _ _ _ _ Hv)
    as (tid & states & st & text & -> & Hst).
  by exists tid, newContextId, (am_referenceTaskIds agentMessage), states, st, text.
Qed.

(** X19: what the conversation page holds after it has consumed, without
    aborting, the updates of an invocation that returned: the answer shown
    is the text of the final answer, the page is no longer pending, no
    error was recorded, and the task tracked for the next message is the
    task of the invocation in its last reported state, which is completed
    or input-required. *)
Theorem consume_success (message : jsstring) (contextId : option jsstring)
    (abortSignal : option (nat -> bool))
    (currentTaskId taskState replyToTaskId : option jsstring) (σ : State)
    (p : Caller.Page) :
  let r := sendAgentMessage w message contextId abortSignal currentTaskId
                            taskState replyToTaskId σ in
  value r = inr tt ->
  let p' := Caller.consume (fun _ => false) 0 (trace r) p in
  exists tid ctx refs st text,
    In (TaskMetadata tid ctx st refs) (trace r)
    /\ In (FinalAnswer text false) (trace r)
    /\ Caller.taskMetadata p' = Some (tid, ctx, st, refs)
    /\ Caller.currentTaskId p' = Some tid
    /\ Caller.currentTaskState p' = Some st
    /\ (st = lit "completed" \/ st = lit "input-required")
    /\ Caller.content p' = text
    /\ Caller.pending p' = false
    /\ Caller.error p' = Caller.error p.
Proof.
  intros r Hv p'. subst p'.
  destruct (sendAgentMessage_last_state _ _ _ _ _ _ _ Hv)
    as (tid & ctx & refs & states & st & text & Htrace & Hst).
  fold r in Htrace. rewrite Htrace.
  exists tid, ctx, refs, st, text.
  split.
  { right. apply in_or_app. left. unfold Trace.metadata. apply in_map_iff.
    exists st. split; [done|]. apply in_or_app. right. by left. }
  split.
  { right. apply in_or_app. right. by left. }
  cbn [Caller.consume]. rewrite consume_app.
  pose proof (consume_metadata tid ctx refs states st 1
                (Caller.onUpdate (Status Started None) p)) as H.
  cbv zeta in H.
  set (q := Caller.consume (fun _ => false) 1
              (Trace.metadata tid ctx refs (states ++ [st]))
              (Caller.onUpdate (Status Started None) p)) in *.
  destruct H as (H1 & H2 & H3 & H4 & H5). clearbody q.
  cbn [Caller.consume Caller.onUpdate negb Caller.content Caller.pending
       Caller.error Caller.currentTaskId Caller.currentTaskState
       Caller.taskMetadata].
  by rewrite H1, H2, H3, H5.
Qed.

(** X20: threading from one turn to the next: after the page has consumed
    an invocation that returned, the identity of the next message (sent
    without an explicit reply, with the tracked task and state) continues
    the same task when the invocation ended on input-required, and opens a
    new task referring to it when it ended on completed; this for a
    non-empty task id. *)
Theorem next_turn_identity (message : jsstring) (contextId : option jsstring)
    (abortSignal : option (nat -> bool))
    (currentTaskId taskState replyToTaskId : option jsstring) (σ σ' : State)
    (p : Caller.Page) :
  let r := sendAgentMessage w message contextId abortSignal currentTaskId
                            taskState replyToTaskId σ in
  value r = inr tt ->
  let p' := Caller.consume (fun _ => false) 0 (trace r) p in
  exists tid st,
    Caller.currentTaskId p' = Some tid
    /\ Caller.currentTaskState p' = Some st
    /\ (tid <> [] ->
        value (resolveTaskIdentity w None (Caller.currentTaskId p')
                 (Caller.currentTaskState p') σ')
        = inr (if streq st (lit "input-required") then (tid, [])
               else (w_uuid w (idCounter σ'), [tid]))).
Proof.
  intros r Hv p'. subst p'.
  destruct (sendAgentMessage_last_state _ _ _ _ _ _ _ Hv)
    as (tid & ctx & refs & states & st & text & Htrace & Hst).
  fold r in Htrace. rewrite Htrace.
  exists tid, st.
  cbn [Caller.consume]. rewrite consume_app.
  pose proof (consume_metadata tid ctx refs states st 1
                (Caller.onUpdate (Status Started None) p)) as H.
  cbv zeta in H.
  set (q := Caller.consume (fun _ => false) 1
              (Trace.metadata tid ctx refs (states ++ [st]))
              (Caller.onUpdate (Status Started None) p)) in *.
  destruct H as (H1 & H2 & _). clearbody q.
  cbn [Caller.consume Caller.onUpdate negb Caller.currentTaskId
       Caller.currentTaskState].
  rewrite H1, H2. split; [done|]. split; [done|]. intros Htid.
  rewrite resolveTaskIdentity_run.
  destruct tid as [|c tid]; [done|].
  by destruct Hst as [-> | ->].
Qed.

End Threading.

Lemma consume_success_witness :
  let r := Sample.run (Sample.world_agent Sample.poll_happy) in
  Caller.content
    (Caller.consume (fun _ => false) 0 (trace r)
       (Caller.mkPage [] [] None None None None true))
  = lit "final".
Proof.
  destruct (consume_success (Sample.world_agent Sample.poll_happy)
              (lit "hello") (Some (lit "ctx-1")) None None None None
              (mkState (Some (lit "tok")) 0)
              (Caller.mkPage [] [] None None None None true) eq_refl)
    as (tid & ctx & refs & st & text & _ & _ & _ & _ & _ & _ & Hc & _).
  reflexivity.
Defined.

Lemma next_turn_identity_witness :
  value (Engine.resolveTaskIdentity (Sample.world_agent Sample.poll_input) None
           (Some (lit "task-1")) (Some (lit "input-required")) Sample.state0)
  = inr (lit "task-1", []).
Proof.
  destruct (next_turn_identity (Sample.world_agent Sample.poll_input)
              (lit "hello") (Some (lit "ctx-1")) None None None None
              (mkState (Some (lit "tok")) 0) Sample.state0
              (Caller.mkPage [] [] None None None None true) eq_refl)
    as (tid & st & Ht & Hs & Hnext).
  reflexivity.
Defined.

(** ** The chat store: switching context *)

Section StoreFacts.

Import Store.

Variable env : Env.

Lemma insertByTime_perm (task : Chat.Task) (sorted : list Chat.Task) :
  Permutation (insertByTime task sorted) (task :: sorted).
Proof.
  induction sorted as [|first rest IH]; [done|]. cbn [insertByTime].
  destruct (Chat.earlier first task); [|done].
  rewrite IH. apply perm_swap.
Qed.

Lemma stableByTime_perm (tasks : list Chat.Task) :
  Permutation (stableByTime tasks) tasks.
Proof.
  induction tasks as [|task tasks IH]; [done|]. cbn [stableByTime fold_right].
  rewrite insertByTime_perm. by constructor.
Qed.

Lemma insertByTime_sorted (task : Chat.Task) (sorted : list Chat.Task) :
  is_Some (Chat.chat_time task) ->
  Forall (fun other => is_Some (Chat.chat_time other)) sorted ->
  Sorted byTime sorted -> Sorted byTime (insertByTime task sorted).
Proof.
  intros [time Htime].
  induction sorted as [|first rest IH]; intros Hall Hs.
  { by repeat constructor. }
  apply Forall_cons_1 in Hall as [[timeF HtimeF] Hall].
  cbn [insertByTime]. unfold Chat.earlier. rewrite HtimeF, Htime.
  destruct (timeF <? time)%Z eqn:Hlt.
  - apply Sorted_inv in Hs as [Hrest Hhd]. constructor; [by apply IH|].
    apply Z.ltb_lt in Hlt.
    destruct rest as [|second rest]; cbn [insertByTime].
    + constructor. unfold byTime. rewrite HtimeF, Htime. lia.
    + destruct (Chat.earlier second task); constructor.
      * by apply HdRel_inv in Hhd.
      * unfold byTime. rewrite HtimeF, Htime. lia.
  - constructor; [done|]. constructor. unfold byTime.
    rewrite HtimeF, Htime. apply Z.ltb_ge in Hlt. lia.
Qed.

Lemma stableByTime_sorted (tasks : list Chat.Task) :
  Forall (fun task => is_Some (Chat.chat_time task)) tasks ->
  Sorted byTime (stableByTime tasks).
Proof.
  induction tasks as [|task tasks IH]; intros Hall; [constructor|].
  apply Forall_cons_1 in Hall as [Htask Hall].
  cbn [stableByTime fold_right]. apply insertByTime_sorted; [done| |by apply IH].
  change (fold_right insertByTime [] tasks) with (stableByTime tasks).
  by rewrite stableByTime_perm.
Qed.

(** Tasks whose times are all numbers are sorted stably. *)
Lemma sortByTime_timed (tasks : list Chat.Task) :
  Forall (fun task => is_Some (Chat.chat_time task)) tasks ->
  sortByTime env tasks = stableByTime tasks.
Proof.
  intros Hall. unfold sortByTime, consistentTimes.
  replace (forallb _ tasks) with true; [done|].
  symmetry. apply forallb_forall. intros task Hin.
  apply bool_decide_eq_true_2.
  by apply (proj1 (List.Forall_forall _ _) Hall).
Qed.

Lemma sortByTime_nil : sortByTime env [] = [].
Proof. reflexivity. Qed.

Lemma loadTasks_omap (taskIds : list jsstring) :
  loadTasks env taskIds = omap (getTask env) taskIds.
Proof.
  induction taskIds as [|taskId rest IH]; [done|].
  cbn [loadTasks omap list_omap]. rewrite IH. by destruct (getTask env taskId).
Qed.

Lemma shown_addMessage (text : jsstring) (role : Role)
    (taskId state : option jsstring) (s : Chat) :
  map shown (messages (addMessage env text role taskId state s))
  = map shown (messages s) ++ [(text, role, taskId, state)].
Proof. unfold addMessage. cbn [messages]. by rewrite map_app. Qed.

Lemma shown_showMessage (task : Chat.Task) (s : Chat) (msg : HistoryMessage) :
  map shown (messages (showMessage env task s msg))
  = map shown (messages s) ++ entry task msg.
Proof.
  unfold showMessage, entry.
  destruct (Chat.textParts msg) as [|t ts]; [by rewrite app_nil_r|].
  rewrite shown_addMessage. by destruct (streq _ _).
Qed.

Lemma shown_showTask (s : Chat) (task : Chat.Task) :
  map shown (messages (showTask env s task))
  = map shown (messages s) ++ entries task.
Proof.
  unfold showTask, entries.
  generalize (default [] (Chat.chat_history task)) as history.
  intros history. revert s.
  induction history as [|msg history IH]; intros s.
  { by rewrite app_nil_r. }
  cbn [fold_left map mjoin list_join]. rewrite IH, shown_showMessage.
  by rewrite app_assoc.
Qed.

Lemma shown_showTasks (tasks : list Chat.Task) (s : Chat) :
  map shown (messages (fold_left (showTask env) tasks s))
  = map shown (messages s) ++ mjoin (map entries tasks).
Proof.
  revert s. induction tasks as [|task tasks IH]; intros s.
  { by rewrite app_nil_r. }
  cbn [fold_left map mjoin list_join]. rewrite IH, shown_showTask.
  by rewrite app_assoc.
Qed.

(** Everything but the messages and the counters is left alone by showing
    tasks. *)
Lemma showTasks_frame (tasks : list Chat.Task) (s : Chat) :
  let s' := fold_left (showTask env) tasks s in
  currentTaskId s' = currentTaskId s
  /\ currentTaskState s' = currentTaskState s
  /\ contextId s' = contextId s /\ replyToTaskId s' = replyToTaskId s
  /\ contexts s' = contexts s /\ error s' = error s
  /\ isThinking s' = isThinking s.
Proof.
  revert s. induction tasks as [|task tasks IH]; intros s; [done|].
  cbn [fold_left]. cbv zeta in IH |- *.
  destruct (IH (showTask env s task)) as (H1 & H2 & H3 & H4 & H5 & H6 & H7).
  rewrite H1, H2, H3, H4, H5, H6, H7. clear.
  unfold showTask. generalize (default [] (Chat.chat_history task)).
  intros history. revert s.
  induction history as [|msg history IH]; intros s; [done|].
  cbn [fold_left].
  destruct (IH (showMessage env task s msg)) as (H1 & H2 & H3 & H4 & H5 & H6 & H7).
  rewrite H1, H2, H3, H4, H5, H6, H7.
  unfold showMessage. by destruct (Chat.textParts msg).
Qed.

(** X21: when the timestamp of every task of the context that could be
    loaded is readable (its time is a number), switching to the context
    replaces the message list by the histories of those tasks in ascending
    order of their times: the list shown is, task after task, one message
    per history entry with a text-kind part (role user for user entries,
    assistant with the task's state for all others), the tasks being a
    permutation, sorted by time, of those that could be loaded; a task that
    cannot be loaded is skipped without affecting the others. *)
Theorem switchContext_messages (ctxId : jsstring) (s : Chat) (c : Context) :
  List.find (fun c => streq (ctx_id c) ctxId) (contexts s) = Some c ->
  Forall (fun task => is_Some (Chat.chat_time task))
         (omap (getTask env) (ctx_taskIds c)) ->
  exists tasks,
    Permutation tasks (omap (getTask env) (ctx_taskIds c))
    /\ Sorted byTime tasks
    /\ map shown (messages (switchContext env ctxId s))
       = mjoin (map entries tasks)
    /\ contextId (switchContext env ctxId s) = Some ctxId.
Proof.
  intros Hfind Htimed. unfold switchContext.
  cbn [contexts setContextId clearMessages]. rewrite Hfind.
  destruct (ctx_taskIds c) as [|taskId rest] eqn:Hids.
  { exists []. by repeat split; try constructor. }
  rewrite <- loadTasks_omap in Htimed |- *.
  rewrite (sortByTime_timed _ Htimed).
  exists (stableByTime (loadTasks env (taskId :: rest))).
  split; [by rewrite stableByTime_perm|].
  split; [by apply stableByTime_sorted|].
  cbv zeta.
  pose proof (showTasks_frame (stableByTime (loadTasks env (taskId :: rest)))
                (setContextId (Some ctxId) (clearMessages s))) as Hframe.
  cbv zeta in Hframe. destruct Hframe as (_ & _ & Hctx & _).
  pose proof (shown_showTasks (stableByTime (loadTasks env (taskId :: rest)))
                (setContextId (Some ctxId) (clearMessages s))) as Hshown.
  destruct (last _); cbn [setCurrentTask messages contextId];
    by rewrite Hshown, Hctx.
Qed.

Lemma sorted_last_greatest (tasks : list Chat.Task) (task : Chat.Task) :
  Forall (fun other => is_Some (Chat.chat_time other)) tasks ->
  Sorted byTime tasks -> last tasks = Some task ->
  Forall (fun other => byTime other task) tasks.
Proof.
  intros Htimed Hs%Sorted_StronglySorted.
  2: { intros a b d. unfold byTime.
       destruct (Chat.chat_time a), (Chat.chat_time b), (Chat.chat_time d);
         try done. lia. }
  induction Hs as [|first rest Hrest IH Hall]; [done|].
  apply Forall_cons_1 in Htimed as [[time Htime] Htimed].
  destruct rest as [|second rest].
  - intros [= ->]. repeat constructor. unfold byTime. rewrite Htime. lia.
  - intros Hlast. change (last (second :: rest) = Some task) in Hlast.
    specialize (IH Htimed Hlast). constructor; [|done].
    apply Forall_cons_1 in Hall as [Hfs _].
    apply Forall_cons_1 in IH as [Hst _]. unfold byTime in *.
    destruct (Chat.chat_time first), (Chat.chat_time second),
      (Chat.chat_time task); try done. lia.
Qed.

(** X22: when the timestamps of the tasks of the context that could be
    loaded are all readable, the task tracked after a switch is one of them
    with the greatest time, with its state; when the context is unknown or
    none of its tasks loads, the task and state tracked before the switch
    are kept, although the context id is the new one and the message list
    is empty. *)
Theorem switchContext_current (ctxId : jsstring) (s : Chat) :
  let loaded :=
    match List.find (fun c => streq (ctx_id c) ctxId) (contexts s) with
    | Some c => omap (getTask env) (ctx_taskIds c)
    | None => []
    end in
  let s' := switchContext env ctxId s in
  contextId s' = Some ctxId
  /\ (loaded = [] ->
      currentTaskId s' = currentTaskId s
      /\ currentTaskState s' = currentTaskState s
      /\ messages s' = [])
  /\ (loaded <> [] ->
      Forall (fun task => is_Some (Chat.chat_time task)) loaded ->
      exists task,
        task ∈ loaded
        /\ Forall (fun other => byTime other task) loaded
        /\ currentTaskId s' = Some (Chat.chat_id task)
        /\ currentTaskState s' = Some (Chat.chat_state task)).
Proof.
  intros loaded s'. subst loaded s'. unfold switchContext.
  cbn [contexts setContextId clearMessages].
  destruct (List.find _ (contexts s)) as [c|]; [|by repeat split].
  destruct (ctx_taskIds c) as [|taskId rest] eqn:Hids; [by repeat split|].
  cbv zeta. rewrite <- loadTasks_omap.
  set (loaded := loadTasks env (taskId :: rest)).
  pose proof (showTasks_frame (sortByTime env loaded)
                (setContextId (Some ctxId) (clearMessages s))) as Hframe.
  cbv zeta in Hframe. destruct Hframe as (Hid & Hst & Hctx & _).
  clearbody loaded.
  split; [by destruct (last _); cbn [setCurrentTask contextId]|].
  split.
  - intros ->. by rewrite sortByTime_nil.
  - intros Hsome Htimed. rewrite (sortByTime_timed _ Htimed).
    pose proof (stableByTime_perm loaded) as Hperm.
    pose proof (stableByTime_sorted loaded Htimed) as Hsorted.
    destruct (last (stableByTime loaded)) as [task|] eqn:Hlast.
    + cbn [setCurrentTask currentTaskId currentTaskState].
      exists task. split; [|split; [|done]].
      * rewrite <- Hperm. by apply last_Some_elem_of.
      * rewrite <- Hperm. apply sorted_last_greatest; [|done|done].
        by rewrite Hperm.
    + apply last_None in Hlast. rewrite Hlast in Hperm.
      apply Permutation_nil in Hperm. by subst loaded.
Qed.

(** ** The chat store: polling a task *)

Section Polling.

Variable isTerminalState : jsstring -> bool.

Lemma assistantTexts_app (h1 h2 : list HistoryMessage) :
  assistantTexts (h1 ++ h2) = assistantTexts h1 ++ assistantTexts h2.
Proof. unfold assistantTexts. by rewrite map_app, join_app. Qed.

Lemma spoken_fold (task : Chat.Task) (stretch : list HistoryMessage) (s : Chat) :
  spoken
    (fold_left
       (fun s msg =>
          if streq (msg_role msg) (lit "assistant") then
            match Chat.textParts msg with
            | [] => s
            | (_ :: _) as textParts =>
                addMessage env (join nl textParts) Assistant
                           (Some (Chat.chat_id task))
                           (Some (Chat.chat_state task)) s
            end
          else s)
       stretch s)
  = spoken s ++ map (fun t => (t, Assistant)) (assistantTexts stretch).
Proof.
  revert s. induction stretch as [|msg stretch IH]; intros s.
  { by rewrite app_nil_r. }
  cbn [fold_left]. rewrite IH. unfold assistantTexts.
  cbn [map mjoin list_join]. rewrite map_app, app_assoc. f_equal.
  destruct (streq _ _); [|by rewrite app_nil_r].
  destruct (Chat.textParts msg) as [|t ts]; [by rewrite app_nil_r|].
  unfold spoken, addMessage. cbn [messages]. by rewrite map_app.
Qed.

Lemma spoken_messages (a b : Chat) : messages a = messages b -> spoken a = spoken b.
Proof. unfold spoken. by intros ->. Qed.

Lemma pollTick_spoken (task : Chat.Task) (n : nat) (polling : bool) (s : Chat) :
  let h := default [] (Chat.chat_history task) in
  let r := pollTick env isTerminalState (Some task) (n, polling) s in
  r.1.1 = (if bool_decide (n < length h) then length h else n)
  /\ spoken r.2
     = spoken s ++ map (fun t => (t, Assistant)) (assistantTexts (drop n h)).
Proof.
  intros h r. subst r. unfold pollTick. fold h.
  case_bool_decide as Hn.
  - cbn [fst snd]. rewrite <- (spoken_fold task (drop n h) s).
    destruct (isTerminalState _); cbn [fst snd]; (split; [done|]);
      by apply spoken_messages.
  - rewrite drop_ge by lia. cbn [fst snd assistantTexts map mjoin list_join].
    rewrite app_nil_r.
    destruct (isTerminalState _); cbn [fst snd]; (split; [done|]);
      by apply spoken_messages.
Qed.

Lemma pollTicks_growing (snapshots : list Chat.Task)
    (previous : list HistoryMessage) (polling : bool) (s : Chat) :
  growing previous snapshots ->
  let final := default previous
                 (default [] <$> (Chat.chat_history <$> last snapshots)) in
  let r := pollTicks env isTerminalState snapshots (length previous, polling, s) in
  r.1.1 = length final
  /\ spoken r.2
     = spoken s
       ++ map (fun t => (t, Assistant))
              (assistantTexts (drop (length previous) final)).
Proof.
  revert previous polling s.
  induction snapshots as [|task snapshots IH]; intros previous polling s.
  { intros _. cbn. rewrite drop_all. cbn. by rewrite app_nil_r. }
  intros [[d Hd] Hgrow]. cbn [pollTicks fold_left fst snd].
  pose proof (pollTick_spoken task (length previous) polling s) as Htick.
  cbv zeta in Htick.
  destruct (pollTick env isTerminalState (Some task) (length previous, polling) s)
    as [[n polling'] s'] eqn:E.
  cbn [fst snd] in Htick. destruct Htick as [Hn Hs].
  assert (n = length (default [] (Chat.chat_history task))) as ->.
  { rewrite Hn. case_bool_decide as Hlt; [done|].
    rewrite Hd, length_app in Hlt |- *. lia. }
  specialize (IH _ polling' s' Hgrow). cbv zeta in IH.
  unfold pollTicks in IH. destruct IH as [IH1 IH2].
  assert (Hfinal : default previous
                     (default [] <$> (Chat.chat_history <$> last (task :: snapshots)))
                   = default (default [] (Chat.chat_history task))
                       (default [] <$> (Chat.chat_history <$> last snapshots))).
  { destruct snapshots as [|second rest]; [done|].
    change (last (task :: second :: rest)) with (last (second :: rest)).
    destruct (last (second :: rest)) eqn:El; [done|].
    by apply last_None in El. }
  cbv zeta. rewrite Hfinal. split; [exact IH1|].
  rewrite IH2, Hs, <- app_assoc, <- map_app, <- assistantTexts_app.
  do 3 f_equal.
  assert (Hpre : default [] (Chat.chat_history task)
                 `prefix_of` default (default [] (Chat.chat_history task))
                               (default [] <$> (Chat.chat_history <$> last snapshots))).
  { clear -Hgrow. revert Hgrow.
    generalize (default [] (Chat.chat_history task)) as prev.
    induction snapshots as [|second rest IH]; intros prev Hg; [done|].
    destruct Hg as [Hp Hg]. specialize (IH _ Hg).
    destruct rest as [|third rest].
    - done.
    - change (last (second :: third :: rest)) with (last (third :: rest)) in *.
      destruct (last (third :: rest)) as [t|] eqn:El; [|by apply last_None in El].
      cbn in *. by etrans. }
  destruct Hpre as [d' Hd']. rewrite Hd', Hd.
  rewrite !drop_app_length.
  rewrite <- app_assoc. by rewrite drop_app_length.
Qed.

(** X23: polling shows every answer once: when the polling callback runs
    on successive snapshots of a task whose history only grows, the display
    messages it adds are exactly, in order, one assistant message per
    assistant-role entry with a text-kind part of the last snapshot's
    history; entries seen in an earlier snapshot are not shown again and
    user- or agent-role entries are never shown. *)
Theorem pollTicks_once (snapshots : list Chat.Task) (polling : bool) (s : Chat) :
  growing [] snapshots ->
  let final := default [] (default [] <$> (Chat.chat_history <$> last snapshots)) in
  spoken (pollTicks env isTerminalState snapshots (0, polling, s)).2
  = spoken s ++ map (fun t => (t, Assistant)) (assistantTexts final).
Proof.
  intros Hgrow final.
  destruct (pollTicks_growing snapshots [] polling s Hgrow) as [_ H].
  exact H.
Qed.

End Polling.

End StoreFacts.

Lemma switchContext_messages_witness :
  exists tasks,
    Permutation tasks (omap Sample.getTask2 Sample.taskIds2)
    /\ Sorted Store.byTime tasks
    /\ map Store.shown
         (Store.messages
            (Store.switchContext Sample.env2 (lit "ctx-1") Sample.chat2))
       = mjoin (map Store.entries tasks)
    /\ Store.contextId
         (Store.switchContext Sample.env2 (lit "ctx-1") Sample.chat2)
       = Some (lit "ctx-1").
Proof.
  apply (switchContext_messages Sample.env2 (lit "ctx-1") Sample.chat2 _
           eq_refl).
  repeat constructor; by eexists.
Defined.

Lemma switchContext_current_witness :
  exists task,
    task ∈ omap Sample.getTask2 Sample.taskIds2
    /\ Forall (fun other => Store.byTime other task)
              (omap Sample.getTask2 Sample.taskIds2)
    /\ Store.currentTaskId
         (Store.switchContext Sample.env2 (lit "ctx-1") Sample.chat2)
       = Some (Chat.chat_id task)
    /\ Store.currentTaskState
         (Store.switchContext Sample.env2 (lit "ctx-1") Sample.chat2)
       = Some (Chat.chat_state task).
Proof.
  apply (proj2 (proj2 (switchContext_current Sample.env2 (lit "ctx-1")
                         Sample.chat2))).
  - discriminate.
  - repeat constructor; by eexists.
Defined.

(** With the later task listed first, the earlier one is shown first. *)
Example switchContext_shows_earlier_first :
  map Store.shown
      (Store.messages (Store.switchContext Sample.env2 (lit "ctx-1") Sample.chat2))
  = [(lit "first question", Store.User, Some (lit "t-early"), None);
     (lit "ok", Store.Assistant, Some (lit "t-early"), Some (lit "completed"));
     (lit "second question", Store.User, Some (lit "t-late"), None);
     (lit "ok", Store.Assistant, Some (lit "t-late"), Some (lit "completed"))].
Proof. reflexivity. Qed.

(** A task with an unreadable timestamp between two tasks in descending
    order: the comparator is not consistent, and the order shown is the
    engine's. *)
Example sortByTime_unreadable (env : Store.Env) :
  let tasks := [Sample.chat_task "t-late" "second question" 2000;
                Chat.mkChatTask (lit "bad") (lit "completed") None None;
                Sample.chat_task "t-early" "first question" 1000] in
  Store.consistentTimes tasks = false
  /\ Store.sortByTime env tasks = Store.sortAnyhow env tasks.
Proof. split; reflexivity. Qed.

Lemma pollTicks_once_witness :
  Store.spoken
    (Store.pollTicks Sample.env2 (fun st => streq st (lit "completed"))
       Sample.snapshots3 (0, true, Sample.chat2)).2
  = [(lit "one", Store.Assistant); (lit "two", Store.Assistant)].
Proof.
  refine (pollTicks_once Sample.env2 (fun st => streq st (lit "completed"))
            Sample.snapshots3 true Sample.chat2 _).
  cbn. repeat split; eexists; reflexivity.
Defined.

(** ** The chat store: clearing a context, sending a message *)

Section StoreMore.

Import Store.

Variable env : Env.

(** X24: clearing a context: when the API call fails, only the error is
    set.  When it succeeds, the context is removed from the list and a
    status message is appended; the conversation is reset (no task, no
    context, no reply target, no earlier message) exactly when the cleared
    context is the current one, and is otherwise left as it was. *)
Theorem clearContext_effect (ctxId : jsstring) (s : Chat) :
  let s' := clearContext env ctxId s in
  match clearContextApi env ctxId with
  | inl _ =>
      error s' = Some (lit "Failed to clear context")
      /\ messages s' = messages s /\ contexts s' = contexts s
      /\ contextId s' = contextId s /\ currentTaskId s' = currentTaskId s
      /\ currentTaskState s' = currentTaskState s
  | inr _ =>
      Forall (fun c => ctx_id c <> ctxId) (contexts s')
      /\ (forall c, ctx_id c <> ctxId -> c ∈ contexts s -> c ∈ contexts s')
      /\ error s' = error s
      /\ (if bool_decide (contextId s = Some ctxId) then
            map shown (messages s')
            = [(lit "Context cleared successfully", StatusRole, None, None)]
            /\ contextId s' = None /\ currentTaskId s' = None
            /\ currentTaskState s' = None /\ replyToTaskId s' = None
          else
            map shown (messages s')
            = map shown (messages s)
              ++ [(lit "Context cleared successfully", StatusRole, None, None)]
            /\ contextId s' = contextId s /\ currentTaskId s' = currentTaskId s
            /\ currentTaskState s' = currentTaskState s
            /\ replyToTaskId s' = replyToTaskId s)
  end.
Proof.
  intros s'. subst s'. unfold clearContext.
  destruct (clearContextApi env ctxId) as [e|[]]; [done|].
  cbv zeta. cbn [contextId].
  split; [|split; [|split]].
  - case_bool_decide; cbn [addMessage createNewContext contexts];
      apply List.Forall_forall; intros c [_ Hc%negb_true_iff]%filter_In;
      unfold streq in Hc; by apply bool_decide_eq_false_1 in Hc.
  - intros c Hne Hin.
    assert (c ∈ List.filter (fun c => negb (streq (ctx_id c) ctxId)) (contexts s)).
    { apply list_elem_of_In, filter_In. split; [by apply list_elem_of_In|].
      apply negb_true_iff. unfold streq. by apply bool_decide_eq_false_2. }
    by case_bool_decide.
  - by case_bool_decide.
  - case_bool_decide; cbn [addMessage createNewContext messages contextId
                           currentTaskId currentTaskState replyToTaskId];
      rewrite ?map_app; done.
Qed.

End StoreMore.

Section SendMessage.

Import Store Sending.

Variable env : Env.
Variable isNonTerminalState : jsstring -> bool.
Variable sendMessageApi : AgentMessage -> Thrown + SentTask.

Lemma identity_agrees (s : Chat) :
  (identity env isNonTerminalState s).1
  = Chat.sendMessageIdentity isNonTerminalState (generateUUID env (uuids s))
      (replyToTaskId s) (currentTaskState s) (currentTaskId s).
Proof.
  unfold identity, Chat.sendMessageIdentity.
  by repeat case_match.
Qed.

(** X25: [sendMessage] records the user's message at once, with the task
    id its identity rules chose, and consumes the reply target, whether or
    not the send succeeds; an established context id is never changed; a
    failed send sets the error, stops the thinking indicator, keeps the
    tracked task and starts no polling, while a successful one tracks the
    returned task and polls it. *)
Theorem sendMessage_effect (text : jsstring) (s : Chat) :
  let r := sendMessage env isNonTerminalState sendMessageApi text s in
  let chosen := Chat.sendMessageIdentity isNonTerminalState
                  (generateUUID env (uuids s)) (replyToTaskId s)
                  (currentTaskState s) (currentTaskId s) in
  replyToTaskId r.1 = None
  /\ map shown (messages r.1)
     = map shown (messages s) ++ [(text, User, Some chosen.1, None)]
  /\ (truthy_opt (contextId s) = true -> contextId r.1 = contextId s)
  /\ exists message,
      am_taskId message = chosen.1
      /\ am_referenceTaskIds message
         = (if bool_decide (0 < length chosen.2) then Some chosen.2 else None)
      /\ match sendMessageApi message with
         | inr task =>
             r.2 = Some (sent_id task)
             /\ currentTaskId r.1 = Some (sent_id task)
             /\ isThinking r.1 = true /\ error r.1 = error s
         | inl err =>
             r.2 = None /\ currentTaskId r.1 = currentTaskId s
             /\ isThinking r.1 = false /\ is_Some (error r.1)
         end.
Proof.
  intros r chosen. subst r chosen. rewrite <- identity_agrees.
  unfold sendMessage.
  destruct (identity env isNonTerminalState s) as [[taskId refs] n].
  cbn [fst snd].
  destruct (truthy_opt (contextId s)) eqn:Hctx;
    match goal with
    | |- context [sendMessageApi ?m] =>
        destruct (sendMessageApi m) as [err|task] eqn:Hsend
    end;
    cbn [fst snd replyToTaskId messages contextId currentTaskId isThinking
         error addMessage];
    (split; [done|]); (split; [by rewrite map_app|]); (split; [done|]);
    eexists; (split; [|split; [|rewrite Hsend]]);
    cbn [am_taskId am_referenceTaskIds]; try done; by repeat split.
Qed.

End SendMessage.

(** ** TaskInfo.svelte *)

Section TaskInfoFacts.

Import TaskInfo.

(** X26: the displayed task id: an id of at most 12 code units is shown as
    it is; a longer one is shown as its first six code units, three dots and
    its last six, 15 code units in all (so an id of 13 or 14 code units is
    displayed longer than it is). *)
Theorem truncateId_shape (id : jsstring) :
  (length id <= 12 -> truncateId id = id)
  /\ (12 < length id ->
      length (truncateId id) = 15
      /\ take 6 (truncateId id) = take 6 id
      /\ drop 9 (truncateId id) = drop (length id - 6) id
      /\ take 3 (drop 6 (truncateId id)) = lit "...").
Proof.
  unfold truncateId. split; intros Hlen.
  - by rewrite bool_decide_eq_true_2.
  - rewrite bool_decide_eq_false_2 by lia.
    assert (H6 : length (take 6 id) = 6) by (rewrite length_take; lia).
    repeat split.
    + rewrite !length_app, H6, length_drop. cbn. lia.
    + rewrite take_app_le by lia. rewrite take_take. by rewrite Nat.min_id.
    + rewrite drop_app_ge by lia. rewrite H6. done.
    + rewrite drop_app_ge by lia. rewrite H6. done.
Qed.

Lemma truncateId_shape_witness :
  truncateId (lit "0123456789abcdef") = lit "012345...abcdef"
  /\ length (truncateId (lit "0123456789abc")) = 15.
Proof.
  split; [reflexivity|].
  refine (proj1 (proj2 (truncateId_shape (lit "0123456789abc")) _)).
  cbn. lia.
Defined.

End TaskInfoFacts.

(** ** Send/Poll Engine: where the answer comes from, protocol errors,
    the retried send *)

Section Provenance.

Import Engine.

Variable w : World.

Lemma pollLoop_answer (abortSignal : option (nat -> bool))
    (headers : gmap jsstring jsstring) (tid ctx : jsstring)
    (refs : option (list jsstring)) (fuel attempt : nat) (σ : State) :
  value (pollLoop w abortSignal headers tid ctx refs fuel attempt σ)
  = inr LoopReturned ->
  exists k requestId response envelope task before,
    attempt <= k < attempt + fuel
    /\ aborted abortSignal k = false
    /\ w_poll w k headers tid requestId = Responds response
    /\ resp_ok response = true
    /\ resp_json response = inr envelope
    /\ rpc_error envelope = None
    /\ rpc_result envelope = Some task
    /\ trace (pollLoop w abortSignal headers tid ctx refs fuel attempt σ)
       = before
         ++ [TaskMetadata tid ctx (status_state (task_status task)) refs;
             FinalAnswer (Extractor.extractTextFromTask task) false;
             Status Finished None].
Proof.
  revert attempt σ. induction fuel as [|fuel IH]; intros attempt σ; [done|].
  rewrite pollLoop_step, pollIteration_run. cbv zeta.
  destruct (aborted abortSignal attempt) eqn:Ha; [done|].
  destruct (w_poll w attempt headers tid (w_uuid w (idCounter σ)))
    as [e|response] eqn:Hpoll; [done|].
  assert (Hnext : forall pre σ1,
             value (pollLoop w abortSignal headers tid ctx refs fuel
                             (S attempt) σ1) = inr LoopReturned ->
             exists k requestId response envelope task before,
               attempt <= k < attempt + S fuel
               /\ aborted abortSignal k = false
               /\ w_poll w k headers tid requestId = Responds response
               /\ resp_ok response = true
               /\ resp_json response = inr envelope
               /\ rpc_error envelope = None
               /\ rpc_result envelope = Some task
               /\ pre ++ trace (pollLoop w abortSignal headers tid ctx refs
                                         fuel (S attempt) σ1)
                  = before
                    ++ [TaskMetadata tid ctx (status_state (task_status task)) refs;
                        FinalAnswer (Extractor.extractTextFromTask task) false;
                        Status Finished None]).
  { intros pre σ1 Hv.
    destruct (IH _ _ Hv)
      as (k & rid & r & env & task & before & Hk & Hab & Hr & Hok & Hj & He
          & Hres & ->).
    exists k, rid, r, env, task, (pre ++ before).
    repeat split; try done; try lia. by rewrite app_assoc. }
  destruct (resp_ok response) eqn:Hok; cbn [value trace final].
  2:{ intros Hv. by apply (Hnext []). }
  destruct (resp_json response) as [f|envelope] eqn:Hj; [done|].
  destruct (rpc_error envelope) as [m|] eqn:He; [done|].
  destruct (rpc_result envelope) as [task|] eqn:Hres; [|done].
  unfold Doc.on_task. cbv zeta.
  assert (Hhere : exists k requestId response envelope task0 before,
             attempt <= k < attempt + S fuel
             /\ aborted abortSignal k = false
             /\ w_poll w k headers tid requestId = Responds response
             /\ resp_ok response = true
             /\ resp_json response = inr envelope
             /\ rpc_error envelope = None
             /\ rpc_result envelope = Some task0
             /\ [TaskMetadata tid ctx (status_state (task_status task)) refs;
                 FinalAnswer (Extractor.extractTextFromTask task) false;
                 Status Finished None]
                = before
                  ++ [TaskMetadata tid ctx (status_state (task_status task0)) refs;
                      FinalAnswer (Extractor.extractTextFromTask task0) false;
                      Status Finished None]).
  { exists attempt, (w_uuid w (idCounter σ)), response, envelope, task, [].
    repeat split; try done; lia. }
  destruct (streq _ (lit "completed")); [by intros _|].
  destruct (streq _ (lit "input-required")); [by intros _|].
  destruct (streq _ (lit "failed")); [done|].
  destruct (streq _ (lit "canceled")); [done|].
  cbn [value trace final]. intros Hv. by apply Hnext.
Qed.

(** X27: the final answer of an invocation that returns is extracted from
    a task snapshot that a poll delivered (a 2xx poll response without
    error field, at an attempt below 300 that was not aborted), and the
    [TaskMetadata] just before it reports that snapshot's state; it is never
    taken from the response to the send. *)
Theorem sendAgentMessage_answer (message : jsstring)
    (contextId : option jsstring) (abortSignal : option (nat -> bool))
    (currentTaskId taskState replyToTaskId : option jsstring) (σ : State) :
  let r := sendAgentMessage w message contextId abortSignal currentTaskId
                            taskState replyToTaskId σ in
  value r = inr tt ->
  exists k headers tid requestId response envelope task before ctx refs,
    k < 300
    /\ aborted abortSignal k = false
    /\ w_poll w k headers tid requestId = Responds response
    /\ resp_ok response = true
    /\ resp_json response = inr envelope
    /\ rpc_error envelope = None
    /\ rpc_result envelope = Some task
    /\ trace r
       = before
         ++ [TaskMetadata tid ctx (status_state (task_status task)) refs;
             FinalAnswer (Extractor.extractTextFromTask task) false;
             Status Finished None].
Proof.
  intros r. subst r.
  destruct (sendAgentMessage_run w message contextId abortSignal currentTaskId
              taskState replyToTaskId σ)
    as (headers & agentMessage & newContextId & requestId & σ1 & ->).
  cbv zeta. rewrite try_catch_reportError. cbn [trace value].
  destruct (value (sendAndPoll _ _ _ _ _ _ _)) as [e|[]] eqn:Hv; [done|].
  intros _. revert Hv. unfold sendAndPoll.
  rewrite trace_bind, value_bind, sendWithPayment_trace.
  destruct (value (sendWithPayment _ _ _ _ _)) as [e|sent]; [done|].
  rewrite trace_bind, value_bind, readTask_trace.
  destruct (value (readTask _ _)) as [e|task0]; [done|].
  rewrite trace_bind, value_bind. cbn [yield trace value final].
  rewrite trace_bind, value_bind.
  destruct (value (pollLoop _ _ _ _ _ _ _ _ _)) as [e|[|]] eqn:Hloop;
    [done| |done].
  intros _.
  destruct (pollLoop_answer _ _ _ _ _ _ _ _ Hloop)
    as (k & rid & response & envelope & task & before & Hk & Hab & Hr & Hok
        & Hj & He & Hres & ->).
  exists k, sent.2, (task_id task0), rid, response, envelope, task.
  eexists (Status Started None :: _ :: before), newContextId, _.
  unfold maxAttempts in Hk.
  repeat split; try done; try lia.
  cbn [ret trace app]. by rewrite app_nil_r.
Qed.

End Provenance.

Lemma sendAgentMessage_answer_witness :
  exists before,
    trace (Sample.run (Sample.world_agent Sample.poll_happy))
    = before ++ [TaskMetadata (lit "task-1") (lit "ctx-1") (lit "completed") None;
                 FinalAnswer (lit "final") false; Status Finished None].
Proof.
  destruct (sendAgentMessage_answer (Sample.world_agent Sample.poll_happy)
              (lit "hello") (Some (lit "ctx-1")) None None None None
              (mkState (Some (lit "tok")) 0) eq_refl)
    as (k & headers & tid & rid & response & envelope & task & before & ctx
        & refs & _).
  by eexists [_; _; _; _].
Defined.

Section ProtocolAndRetry.

Import Engine.

Variable w : World.

(** X28: the JSON-RPC [error] field is honoured on 2xx responses only.
    When the response that the send step of an invocation hands on (a 2xx
    response: that of the send or, after a payment, of the retry) carries
    an [error], the invocation fails with that error's message ("Agent
    error" when it has none), whether or not a [result] is present too; in
    the poll loop such a response throws likewise ("Task status error" by
    default), whereas a response with another status is skipped whatever
    its body says. *)
Theorem rpc_error_on_2xx (message : jsstring)
    (contextId : option jsstring) (abortSignal : option (nat -> bool))
    (currentTaskId taskState replyToTaskId : option jsstring) (σ σ1 : State)
    (headers pollHeaders : gmap jsstring jsstring)
    (agentMessage : AgentMessage) (newContextId requestId : jsstring)
    (response : Response RpcEnvelope) (envelope : RpcEnvelope)
    (msg : option jsstring) :
  (Trace.request w message contextId currentTaskId taskState replyToTaskId σ
   = mkRes [] (inr (headers, agentMessage, newContextId, requestId)) σ1 ->
   value (sendWithPayment w headers agentMessage requestId σ1)
   = inr (response, pollHeaders) ->
   resp_json response = inr envelope ->
   rpc_error envelope = Some msg ->
   let r := sendAgentMessage w message contextId abortSignal currentTaskId
                             taskState replyToTaskId σ in
   resp_ok response = true
   /\ value r = inl (ErrorObj (or_default msg (lit "Agent error")))
   /\ trace r = [Status Started None;
                 Status Error (Some (or_default msg (lit "Agent error")))])
  /\ (forall tid ctx refs attempt polled,
        aborted abortSignal attempt = false ->
        w_poll w attempt pollHeaders tid (w_uuid w (idCounter σ))
        = Responds polled ->
        resp_json polled = inr envelope ->
        rpc_error envelope = Some msg ->
        pollIteration w abortSignal pollHeaders tid ctx refs attempt σ
        = if resp_ok polled
          then mkRes [] (inl (ErrorObj (or_default msg (lit "Task status error"))))
                     (bump σ)
          else mkRes [] (inr Continue) (bump σ)).
Proof.
  split.
  - intros Hreq Hsent Hj He r. subst r.
    destruct (sendAgentMessage_request w message contextId abortSignal
                currentTaskId taskState replyToTaskId σ σ1 headers agentMessage
                newContextId requestId Hreq) as [Hrun _].
    cbv zeta in Hrun. rewrite Hrun. clear Hrun.
    rewrite try_catch_reportError.
    assert (Hok : resp_ok response = true).
    { revert Hsent. unfold sendWithPayment, bind, call, await.
      destruct (w_send w 0 _ _ _) as [e|first]; [done|].
      cbn [ret value trace final]. destruct (_ =? _)%N.
      - destruct (Payment.handlePaymentRequired w σ1) as [[[|] notices] σ'];
          cbn [value trace final]; [|done].
        destruct (Payment.getPaymentHeaders σ') as [payment σ''].
        cbn [value trace final].
        destruct (w_send w 1 _ _ _) as [e|retried]; [done|].
        cbn [ret value trace final].
        destruct (resp_ok retried) eqn:Hok; cbn [negb]; [|done].
        destruct (Payment.getPaymentHeaders σ''). cbn [value].
        intros Heq. assert (retried = response) by congruence. by subst.
      - destruct (resp_ok first) eqn:Hok; cbn [negb]; [|done].
        cbn [ret value]. intros Heq.
        assert (first = response) by congruence. by subst. }
    split; [done|].
    assert (Hbody : sendAndPoll w abortSignal headers agentMessage newContextId
                                requestId σ1
                    = mkRes [] (inl (ErrorObj (or_default msg (lit "Agent error"))))
                            (final (sendWithPayment w headers agentMessage
                                                    requestId σ1))).
    { unfold sendAndPoll.
      rewrite (bind_silent _ _ _ _ _ (sendWithPayment_handed w _ _ _ _ _ _ Hsent)).
      apply bind_throw. unfold readTask. cbn [fst]. by rewrite Hj, He. }
    by rewrite Hbody.
  - intros tid ctx refs attempt polled Ha Hr Hj He.
    rewrite pollIteration_run, Ha, Hr, Hj, He. by destruct (resp_ok polled).
Qed.

Lemma getPaymentHeaders_again (σ : State) :
  Payment.getPaymentHeaders (Payment.getPaymentHeaders σ).2
  = Payment.getPaymentHeaders σ.
Proof.
  unfold Payment.getPaymentHeaders.
  destruct (truthy_opt (paymentToken σ)) eqn:Ht; cbn [negb snd].
  - destruct (Payment.is_ascii _) eqn:Ha; cbn [negb snd]; [by rewrite Ht, Ha|done].
  - by rewrite Ht.
Qed.

(** X29: after a 402 and a completed payment the send is retried once,
    with fresh headers: Content-Type, the bearer token if one is stored, and
    X-PAYMENT exactly as [getPaymentHeaders] gives it for the stored token
    (none if that token is dropped as non-ASCII).  A rejected retry or one
    without a 2xx status fails the operation; otherwise the polls use the
    first send's headers with X-PAYMENT set to that value, or to the empty
    string if there is none. *)
Theorem sendWithPayment_retry (headers : gmap jsstring jsstring)
    (agentMessage : AgentMessage) (requestId : jsstring) (σ σ1 : State)
    (first : Response RpcEnvelope) (notices : list Payment.Notice) :
  w_send w 0 headers agentMessage requestId = Responds first ->
  resp_status first = 402%N ->
  Payment.handlePaymentRequired w σ = (true, notices, σ1) ->
  exists retryHeaders : gmap jsstring jsstring,
    retryHeaders !! Payment.X_PAYMENT
    = (Payment.getPaymentHeaders σ1).1 !! Payment.X_PAYMENT
    /\ retryHeaders !! CONTENT_TYPE = Some (lit "application/json")
    /\ retryHeaders !! AUTHORIZATION
       = (if truthy_opt (w_auth_token w)
          then Some (lit "Bearer " ++ default [] (w_auth_token w)) else None)
    /\ value (sendWithPayment w headers agentMessage requestId σ)
       = match w_send w 1 retryHeaders agentMessage requestId with
         | Rejects e => inl e
         | Responds retried =>
             if resp_ok retried then
               inr (retried,
                    <[ Payment.X_PAYMENT :=
                         or_default ((Payment.getPaymentHeaders σ1).1
                                     !! Payment.X_PAYMENT) [] ]> headers)
             else
               inl (ErrorObj (lit "Agent request failed after payment: "
                              ++ of_N (resp_status retried) ++ lit " - "
                              ++ errorText retried))
         end.
Proof.
  intros Hfirst H402 Hpaid.
  destruct (buildHeaders_lookup w σ1)
    as (retryHeaders & Hrun & Hct & Hauth & Hx & _).
  exists retryHeaders. split; [done|]. split; [done|]. split; [done|].
  unfold sendWithPayment, bind, call, await. rewrite Hfirst.
  cbn [ret value trace final]. rewrite H402. cbn [N.eqb Pos.eqb].
  rewrite Hpaid. cbn [value trace final].
  pose proof (buildHeaders_run w σ1) as Hval. rewrite Hrun in Hval.
  apply (f_equal value) in Hval. cbn [value] in Hval.
  apply (inj inr) in Hval.
  destruct (Payment.getPaymentHeaders σ1) as [payment σ2] eqn:E1.
  cbn [fst snd value trace final] in *. rewrite <- Hval.
  destruct (w_send w 1 retryHeaders agentMessage requestId) as [e|retried];
    [done|].
  cbn [ret value trace final].
  destruct (resp_ok retried); cbn [negb]; [|done].
  pose proof (getPaymentHeaders_again σ1) as Hagain. rewrite E1 in Hagain.
  cbn [snd] in Hagain. rewrite Hagain. by cbn.
Qed.

End ProtocolAndRetry.

Lemma rpc_error_on_2xx_witness :
  let r := Sample.run Sample.world_rpc_error in
  value r = inl (ErrorObj (lit "method not found"))
  /\ trace r = [Status Started None;
                Status Error (Some (lit "method not found"))].
Proof.
  epose proof (proj1 (rpc_error_on_2xx Sample.world_rpc_error (lit "hello")
                        (Some (lit "ctx-1")) None None None None
                        (mkState (Some (lit "tok")) 0) _ _ _ _ _ _ _ _
                        (Some (lit "method not found")))) as Hsend.
  edestruct Hsend as (_ & Hv & Ht);
    [vm_compute; reflexivity | vm_compute; reflexivity | reflexivity
    | reflexivity |].
  split; [exact Hv|exact Ht].
Defined.

Lemma sendWithPayment_retry_witness :
  value (Engine.sendWithPayment Sample.world_402 ∅
           (mkAgentMessage [] [] [] [] [] [] None) [] Sample.state0)
  = inr (Sample.ok_response
           (mkEnvelope None (Some (Sample.task_in "submitted"))),
         <[ Payment.X_PAYMENT := lit "tok123" ]> ∅).
Proof.
  edestruct (sendWithPayment_retry Sample.world_402 ∅
               (mkAgentMessage [] [] [] [] [] [] None) [] Sample.state0)
    as (retryHeaders & Hx & _ & _ & Hv);
    [vm_compute; reflexivity | vm_compute; reflexivity
    | vm_compute; reflexivity | ].
  assert (Hx' : retryHeaders !! Payment.X_PAYMENT = Some (lit "tok123"))
    by (rewrite Hx; vm_compute; reflexivity).
  rewrite Hv. unfold Sample.world_402. cbn [w_send]. rewrite Hx'.
  vm_compute. reflexivity.
Defined.
